(** * Beluga Challenge, MCTS core: a shallow embedding of [mcts_fast]

    The development follows the C++ sources under [rl/mcts/mcts_fast]:
    the domain records ([Jig.hpp], [Beluga.hpp], [Rack.hpp],
    [ProductionLine.hpp]), the snapshot [ProblemState], the eight
    transitions of [namespace Action], the scenario loader, the
    observation and the text of a snapshot, the tree node [MCTSNode], and
    of the [MCTS] driver the rollout and the loops that walk the tree;
    the rack of [rack.cpp] is set beside that of [Rack.cpp].

    Conventions.
    - [int] is [Z]; the counters of the program stay far from the limits
      of a 32 bit integer, and no wrap-around is modelled for them.  The
      one [int] that comes from the input, the number [std::stoi] reads
      in a jig reference, can be the least [int]; the subtraction on it
      is written with its wrap-around.
    - [std::vector<T>] is [list T].  [operator[]] on a vector is
      [at_index], which has no result outside the bounds of the vector;
      code that reads through it lives in the [option] monad, so [None]
      stands for an out-of-bounds read of the C++ program.
    - [float] and [double] are the IEEE 754 formats binary32 and binary64,
      computed with [SpecFloat].
    - Snapshots are copy-on-write in the source; a copy and its original
      are the same value here, and mutation is explicit state passing. *)

From Stdlib Require Import ZArith String Ascii List Bool Lia SpecFloat.
From stdpp Require Import base option list list_numbers strings pretty.

Set Warnings "-register-all".

Open Scope Z_scope.

(** ** IEEE 754 arithmetic *)

Module F32.
Definition prec : Z := 24.
Definition emax : Z := 128.
Definition of_int (n : Z) : spec_float := binary_normalize prec emax n 0 false.
Definition zero : spec_float := S754_zero false.
Definition infinity : spec_float := S754_infinity false.
Definition lowest : spec_float := SFopp (SFmax_float prec emax).
Definition add : spec_float -> spec_float -> spec_float := SFadd prec emax.
Definition sub : spec_float -> spec_float -> spec_float := SFsub prec emax.
Definition mul : spec_float -> spec_float -> spec_float := SFmul prec emax.
Definition div : spec_float -> spec_float -> spec_float := SFdiv prec emax.
Definition gt (x y : spec_float) : bool := SFltb y x.
  (** Narrowing conversion from binary64, round to nearest even. *)
Definition of_double (x : spec_float) : spec_float :=
    match x with
    | S754_finite s m e => binary_normalize prec emax (cond_Zopp s (Zpos m)) e s
    | _ => x
    end.
End F32.

Module F64.
Definition prec : Z := 53.
Definition emax : Z := 1024.
Definition of_int (n : Z) : spec_float := binary_normalize prec emax n 0 false.
Definition mul : spec_float -> spec_float -> spec_float := SFmul prec emax.
Definition div : spec_float -> spec_float -> spec_float := SFdiv prec emax.
Definition sqrt : spec_float -> spec_float := SFsqrt prec emax.
  (** Widening conversion from binary32: the value is kept. *)
Definition of_float (x : spec_float) : spec_float :=
    match x with
    | S754_finite s m e => binary_normalize prec emax (cond_Zopp s (Zpos m)) e s
    | _ => x
    end.
End F64.

(** ** Vectors *)

Definition is_valid_index {T} (index : Z) (vec : list T) : bool :=
  (0 <=? index) && (index <? Z.of_nat (length vec)).

(** [vec[index]]: no result outside the bounds. *)
Definition at_index {T} (vec : list T) (index : Z) : option T :=
  if is_valid_index index vec then vec !! Z.to_nat index else None.

(** [if (index >= vec.size()) return; vec[index] = value;] with [index]
    converted to [size_t], so that a negative [int] is out of range. *)
Definition assign {T} (vec : list T) (index : Z) (value : T) : list T :=
  if is_valid_index index vec then <[Z.to_nat index := value]> vec else vec.

(** [if (index >= vec.size()) return; vec.erase(vec.begin() + index);] *)
Definition erase_at {T} (vec : list T) (index : Z) : list T :=
  if is_valid_index index vec then delete (Z.to_nat index) vec else vec.

Definition vec_empty {T} (vec : list T) : bool :=
  match vec with [] => true | _ :: _ => false end.

(** [vec.pop_back()] on a non-empty vector. *)
Definition pop_back {T} (vec : list T) : list T := removelast vec.

(** ** Domain records *)

Record JigType := mkJigType {
  name : string;
  size_empty : Z;
  size_loaded : Z
}.

(** [JigType::operator==] compares the names only. *)
Definition JigType_eqb (a b : JigType) : bool := String.eqb (name a) (name b).

Record Jig := mkJig {
  jig_type : JigType;
  empty : bool
}.

Definition jig_size (jig : Jig) : Z :=
  if empty jig then size_empty (jig_type jig) else size_loaded (jig_type jig).

Module Beluga.
Record t := mk {
    current_jigs : list Z;
    outgoing : list JigType
  }.
End Beluga.

Module ProductionLine.
Record t := mk {
    scheduled_jigs : list Z
  }.
End ProductionLine.

Module Rack.
Record t := mk {
    size : Z;
    current_jigs : list Z
  }.

  (** The loop of [Rack::get_free_space]; it reads [all_jigs[jig_id - 1]]. *)
Fixpoint used_space (all_jigs : list Jig) (ids : list Z) (total_used_space : Z)
    : option Z :=
    match ids with
    | [] => Some total_used_space
    | jig_id :: rest =>
        jig ← at_index all_jigs (jig_id - 1);
        used_space all_jigs rest (total_used_space + jig_size jig)
    end.

Definition get_free_space (r : t) (all_jigs : list Jig) : option Z :=
    total_used_space ← used_space all_jigs (current_jigs r) 0;
    Some (size r - total_used_space).
End Rack.

(** ** The snapshot *)

Record ProblemState := mkProblemState {
  jigs : list Jig;
  belugas : list Beluga.t;
  trailers_beluga : list Z;        (* -1 for none, otherwise a jig id *)
  trailers_factory : list Z;
  racks : list Rack.t;
  production_lines : list ProductionLine.t;
  hangars : list Z;
  belugas_unloaded : Z;
  belugas_finished : Z;
  production_lines_finished : Z;
  total_lines : Z;
  total_belugas : Z;
  problem_solved : bool
}.

(** The constructor from the seven vectors. *)
Definition new_ProblemState (js : list Jig) (bs : list Beluga.t) (tb tf : list Z)
    (rs : list Rack.t) (pls : list ProductionLine.t) (hs : list Z) : ProblemState :=
  {| jigs := js; belugas := bs; trailers_beluga := tb; trailers_factory := tf;
     racks := rs; production_lines := pls; hangars := hs;
     belugas_unloaded := 0; belugas_finished := 0; production_lines_finished := 0;
     total_lines := Z.of_nat (length pls); total_belugas := Z.of_nat (length bs);
     problem_solved := false |}.

Definition with_jigs (s : ProblemState) (v : list Jig) : ProblemState :=
  {| jigs := v; belugas := belugas s; trailers_beluga := trailers_beluga s;
     trailers_factory := trailers_factory s; racks := racks s;
     production_lines := production_lines s; hangars := hangars s;
     belugas_unloaded := belugas_unloaded s; belugas_finished := belugas_finished s;
     production_lines_finished := production_lines_finished s;
     total_lines := total_lines s; total_belugas := total_belugas s;
     problem_solved := problem_solved s |}.

Definition with_belugas (s : ProblemState) (v : list Beluga.t) : ProblemState :=
  {| jigs := jigs s; belugas := v; trailers_beluga := trailers_beluga s;
     trailers_factory := trailers_factory s; racks := racks s;
     production_lines := production_lines s; hangars := hangars s;
     belugas_unloaded := belugas_unloaded s; belugas_finished := belugas_finished s;
     production_lines_finished := production_lines_finished s;
     total_lines := total_lines s; total_belugas := total_belugas s;
     problem_solved := problem_solved s |}.

Definition with_trailers_beluga (s : ProblemState) (v : list Z) : ProblemState :=
  {| jigs := jigs s; belugas := belugas s; trailers_beluga := v;
     trailers_factory := trailers_factory s; racks := racks s;
     production_lines := production_lines s; hangars := hangars s;
     belugas_unloaded := belugas_unloaded s; belugas_finished := belugas_finished s;
     production_lines_finished := production_lines_finished s;
     total_lines := total_lines s; total_belugas := total_belugas s;
     problem_solved := problem_solved s |}.

Definition with_trailers_factory (s : ProblemState) (v : list Z) : ProblemState :=
  {| jigs := jigs s; belugas := belugas s; trailers_beluga := trailers_beluga s;
     trailers_factory := v; racks := racks s;
     production_lines := production_lines s; hangars := hangars s;
     belugas_unloaded := belugas_unloaded s; belugas_finished := belugas_finished s;
     production_lines_finished := production_lines_finished s;
     total_lines := total_lines s; total_belugas := total_belugas s;
     problem_solved := problem_solved s |}.

Definition with_racks (s : ProblemState) (v : list Rack.t) : ProblemState :=
  {| jigs := jigs s; belugas := belugas s; trailers_beluga := trailers_beluga s;
     trailers_factory := trailers_factory s; racks := v;
     production_lines := production_lines s; hangars := hangars s;
     belugas_unloaded := belugas_unloaded s; belugas_finished := belugas_finished s;
     production_lines_finished := production_lines_finished s;
     total_lines := total_lines s; total_belugas := total_belugas s;
     problem_solved := problem_solved s |}.

Definition with_production_lines (s : ProblemState) (v : list ProductionLine.t)
  : ProblemState :=
  {| jigs := jigs s; belugas := belugas s; trailers_beluga := trailers_beluga s;
     trailers_factory := trailers_factory s; racks := racks s;
     production_lines := v; hangars := hangars s;
     belugas_unloaded := belugas_unloaded s; belugas_finished := belugas_finished s;
     production_lines_finished := production_lines_finished s;
     total_lines := total_lines s; total_belugas := total_belugas s;
     problem_solved := problem_solved s |}.

Definition with_hangars (s : ProblemState) (v : list Z) : ProblemState :=
  {| jigs := jigs s; belugas := belugas s; trailers_beluga := trailers_beluga s;
     trailers_factory := trailers_factory s; racks := racks s;
     production_lines := production_lines s; hangars := v;
     belugas_unloaded := belugas_unloaded s; belugas_finished := belugas_finished s;
     production_lines_finished := production_lines_finished s;
     total_lines := total_lines s; total_belugas := total_belugas s;
     problem_solved := problem_solved s |}.

Definition with_belugas_unloaded (s : ProblemState) (v : Z) : ProblemState :=
  {| jigs := jigs s; belugas := belugas s; trailers_beluga := trailers_beluga s;
     trailers_factory := trailers_factory s; racks := racks s;
     production_lines := production_lines s; hangars := hangars s;
     belugas_unloaded := v; belugas_finished := belugas_finished s;
     production_lines_finished := production_lines_finished s;
     total_lines := total_lines s; total_belugas := total_belugas s;
     problem_solved := problem_solved s |}.

Definition with_belugas_finished (s : ProblemState) (v : Z) : ProblemState :=
  {| jigs := jigs s; belugas := belugas s; trailers_beluga := trailers_beluga s;
     trailers_factory := trailers_factory s; racks := racks s;
     production_lines := production_lines s; hangars := hangars s;
     belugas_unloaded := belugas_unloaded s; belugas_finished := v;
     production_lines_finished := production_lines_finished s;
     total_lines := total_lines s; total_belugas := total_belugas s;
     problem_solved := problem_solved s |}.

Definition with_production_lines_finished (s : ProblemState) (v : Z) : ProblemState :=
  {| jigs := jigs s; belugas := belugas s; trailers_beluga := trailers_beluga s;
     trailers_factory := trailers_factory s; racks := racks s;
     production_lines := production_lines s; hangars := hangars s;
     belugas_unloaded := belugas_unloaded s; belugas_finished := belugas_finished s;
     production_lines_finished := v;
     total_lines := total_lines s; total_belugas := total_belugas s;
     problem_solved := problem_solved s |}.

(** The guarded setters of [ProblemState.cpp]. *)
Definition set_jig (s : ProblemState) (index : Z) (jig : Jig) : ProblemState :=
  with_jigs s (assign (jigs s) index jig).
Definition set_beluga (s : ProblemState) (index : Z) (b : Beluga.t) : ProblemState :=
  with_belugas s (assign (belugas s) index b).
Definition set_trailer_beluga (s : ProblemState) (index value : Z) : ProblemState :=
  with_trailers_beluga s (assign (trailers_beluga s) index value).
Definition set_trailer_factory (s : ProblemState) (index value : Z) : ProblemState :=
  with_trailers_factory s (assign (trailers_factory s) index value).
Definition set_rack (s : ProblemState) (index : Z) (r : Rack.t) : ProblemState :=
  with_racks s (assign (racks s) index r).
Definition set_production_line (s : ProblemState) (index : Z) (l : ProductionLine.t)
  : ProblemState :=
  with_production_lines s (assign (production_lines s) index l).
Definition set_hangar (s : ProblemState) (index value : Z) : ProblemState :=
  with_hangars s (assign (hangars s) index value).
Definition remove_production_line (s : ProblemState) (index : Z) : ProblemState :=
  with_production_lines s (erase_at (production_lines s) index).

Definition copy (s : ProblemState) : ProblemState := s.

Definition is_terminal (s : ProblemState) : bool :=
  vec_empty (belugas s) && vec_empty (production_lines s).

(** [ProblemState::beluga_complete]: the flag and the snapshot afterwards. *)
Definition beluga_complete (s : ProblemState) : bool * ProblemState :=
  match belugas s with
  | [] => (false, s)
  | beluga :: rest =>
      if negb (vec_empty (Beluga.outgoing beluga))
         || negb (vec_empty (Beluga.current_jigs beluga))
      then (false, s)
      else (true, with_belugas (with_belugas_finished s (belugas_finished s + 1)) rest)
  end.

(** ** The eight transitions of [namespace Action]

    Every function returns the flag of the C++ function together with the
    snapshot afterwards. *)

(** A scan [for (i = 0; i < vec.size(); ++i) if (p(vec[i])) { idx = i; break; }]
    started with [idx = -1]. *)
Fixpoint find_first {T} (p : T -> bool) (vec : list T) (i : Z) : Z :=
  match vec with
  | [] => -1
  | x :: rest => if p x then i else find_first p rest (i + 1)
  end.

Module Action.

Definition load_beluga (state : ProblemState) (trailer_beluga none : Z)
    : option (bool * ProblemState) :=
    if negb (is_valid_index trailer_beluga (trailers_beluga state))
    then Some (false, state) else
    jig_id ← at_index (trailers_beluga state) trailer_beluga;
    if jig_id =? -1 then Some (false, state) else
    if negb (is_valid_index jig_id (jigs state)) then Some (false, state) else
    match belugas state with
    | [] => Some (false, state)
    | beluga :: _ =>
        jig ← at_index (jigs state) jig_id;
        if negb (empty jig) || vec_empty (Beluga.outgoing beluga)
           || negb (vec_empty (Beluga.current_jigs beluga))
        then Some (false, state) else
        outgoing0 ← at_index (Beluga.outgoing beluga) 0;
        if negb (JigType_eqb (jig_type jig) outgoing0) then Some (false, state) else
        let modifiedBeluga :=
          Beluga.mk (Beluga.current_jigs beluga) (tail (Beluga.outgoing beluga)) in
        if Z.of_nat (length (Beluga.outgoing beluga)) =? 1 then
          let state := set_beluga state 0 modifiedBeluga in
          let state := set_trailer_beluga state trailer_beluga (-1) in
          let state := snd (beluga_complete state) in
          Some (true, state)
        else
          let state := set_beluga state 0 modifiedBeluga in
          let state := set_trailer_beluga state trailer_beluga (-1) in
          Some (true, state)
    end.

Definition unload_beluga (state : ProblemState) : option (bool * ProblemState) :=
    let trailer_beluga := find_first (fun v => v =? -1) (trailers_beluga state) 0 in
    if (trailer_beluga =? -1) || vec_empty (belugas state) then Some (false, state) else
    beluga ← at_index (belugas state) 0;
    if vec_empty (Beluga.current_jigs beluga) then Some (false, state) else
    jigToTransfer ← last (Beluga.current_jigs beluga);
    let modifiedBeluga :=
      Beluga.mk (pop_back (Beluga.current_jigs beluga)) (Beluga.outgoing beluga) in
    let state := set_trailer_beluga state trailer_beluga jigToTransfer in
    let state := set_beluga state 0 modifiedBeluga in
    if vec_empty (Beluga.current_jigs modifiedBeluga) then
      let state := with_belugas_unloaded state (belugas_unloaded state + 1) in
      if vec_empty (Beluga.outgoing modifiedBeluga)
      then Some (true, snd (beluga_complete state))
      else Some (true, state)
    else Some (true, state).

Definition get_from_hangar (state : ProblemState) (hangar trailer_factory : Z)
    : option (bool * ProblemState) :=
    if negb (is_valid_index hangar (hangars state))
       || negb (is_valid_index trailer_factory (trailers_factory state))
    then Some (false, state) else
    in_hangar ← at_index (hangars state) hangar;
    on_trailer ← at_index (trailers_factory state) trailer_factory;
    if (in_hangar =? -1) || negb (on_trailer =? -1) then Some (false, state) else
    let jig_id := in_hangar in
    if negb (is_valid_index jig_id (jigs state)) then Some (false, state) else
    jig ← at_index (jigs state) jig_id;
    if negb (empty jig) then Some (false, state) else
    let state := set_trailer_factory state trailer_factory jig_id in
    let state := set_hangar state hangar (-1) in
    Some (true, state).

  (** The test of the scan over the production lines in [deliver_to_hangar]. *)
Definition line_starts_with (jig_id : Z) (line : ProductionLine.t) : bool :=
    match ProductionLine.scheduled_jigs line with
    | [] => false
    | first :: _ => first =? jig_id
    end.

Definition deliver_to_hangar (state : ProblemState) (hangar trailer_factory : Z)
    : option (bool * ProblemState) :=
    if negb (is_valid_index hangar (hangars state))
       || negb (is_valid_index trailer_factory (trailers_factory state))
    then Some (false, state) else
    in_hangar ← at_index (hangars state) hangar;
    on_trailer ← at_index (trailers_factory state) trailer_factory;
    if negb (in_hangar =? -1) || (on_trailer =? -1) then Some (false, state) else
    let jig_id := on_trailer in
    if negb (is_valid_index jig_id (jigs state)) then Some (false, state) else
    jig ← at_index (jigs state) jig_id;
    if empty jig then Some (false, state) else
    let production_line_idx :=
      find_first (line_starts_with jig_id) (production_lines state) 0 in
    if production_line_idx =? -1 then Some (false, state) else
    line ← at_index (production_lines state) production_line_idx;
    let modifiedLine := ProductionLine.mk (tail (ProductionLine.scheduled_jigs line)) in
    let modifiedJig := mkJig (jig_type jig) true in
    let state := set_production_line state production_line_idx modifiedLine in
    let state := set_hangar state hangar jig_id in
    let state := set_jig state jig_id modifiedJig in
    let state := set_trailer_factory state trailer_factory (-1) in
    if vec_empty (ProductionLine.scheduled_jigs modifiedLine) then
      let state :=
        with_production_lines_finished state (production_lines_finished state + 1) in
      Some (true, remove_production_line state production_line_idx)
    else Some (true, state).

Definition left_stack_rack (state : ProblemState) (rack trailer_id : Z)
    : option (bool * ProblemState) :=
    if negb (is_valid_index rack (racks state))
       || negb (is_valid_index trailer_id (trailers_beluga state))
    then Some (false, state) else
    jig_id ← at_index (trailers_beluga state) trailer_id;
    if jig_id =? -1 then Some (false, state) else
    if negb (is_valid_index jig_id (jigs state)) then Some (false, state) else
    jig ← at_index (jigs state) jig_id;
    let jig_size := jig_size jig in
    the_rack ← at_index (racks state) rack;
    free_space ← Rack.get_free_space the_rack (jigs state);
    if free_space <? jig_size then Some (false, state) else
    let state := set_trailer_beluga state trailer_id (-1) in
    rack_copy ← at_index (racks state) rack;
    let rack_copy := Rack.mk (Rack.size rack_copy) (jig_id :: Rack.current_jigs rack_copy) in
    let state := set_rack state rack rack_copy in
    Some (true, state).

Definition right_stack_rack (state : ProblemState) (rack trailer_id : Z)
    : option (bool * ProblemState) :=
    if negb (is_valid_index rack (racks state))
       || negb (is_valid_index trailer_id (trailers_factory state))
    then Some (false, state) else
    jig_id ← at_index (trailers_factory state) trailer_id;
    if jig_id =? -1 then Some (false, state) else
    if negb (is_valid_index jig_id (jigs state)) then Some (false, state) else
    jig ← at_index (jigs state) jig_id;
    let jig_size := jig_size jig in
    the_rack ← at_index (racks state) rack;
    free_space ← Rack.get_free_space the_rack (jigs state);
    if free_space <? jig_size then Some (false, state) else
    let modifiedRack :=
      Rack.mk (Rack.size the_rack) (Rack.current_jigs the_rack ++ [jig_id]) in
    let state := set_trailer_factory state trailer_id (-1) in
    let state := set_rack state rack modifiedRack in
    Some (true, state).

Definition left_unstack_rack (state : ProblemState) (rack trailer_id : Z)
    : option (bool * ProblemState) :=
    if negb (is_valid_index rack (racks state))
       || negb (is_valid_index trailer_id (trailers_beluga state))
    then Some (false, state) else
    on_trailer ← at_index (trailers_beluga state) trailer_id;
    the_rack ← at_index (racks state) rack;
    if negb (on_trailer =? -1) || vec_empty (Rack.current_jigs the_rack)
    then Some (false, state) else
    jigToTransfer ← head (Rack.current_jigs the_rack);
    let modifiedRack := Rack.mk (Rack.size the_rack) (tail (Rack.current_jigs the_rack)) in
    let state := set_trailer_beluga state trailer_id jigToTransfer in
    let state := set_rack state rack modifiedRack in
    Some (true, state).

Definition right_unstack_rack (state : ProblemState) (rack trailer_id : Z)
    : option (bool * ProblemState) :=
    if negb (is_valid_index rack (racks state))
       || negb (is_valid_index trailer_id (trailers_factory state))
    then Some (false, state) else
    on_trailer ← at_index (trailers_factory state) trailer_id;
    the_rack ← at_index (racks state) rack;
    if negb (on_trailer =? -1) || vec_empty (Rack.current_jigs the_rack)
    then Some (false, state) else
    jigToTransfer ← last (Rack.current_jigs the_rack);
    let modifiedRack :=
      Rack.mk (Rack.size the_rack) (pop_back (Rack.current_jigs the_rack)) in
    let state := set_trailer_factory state trailer_id jigToTransfer in
    let state := set_rack state rack modifiedRack in
    Some (true, state).

End Action.

(** ** [ProblemState]: dispatch, validation, enumeration, reward *)

(** [action_name[0]]; the character after the end of a [std::string] is
    the null character. *)
Definition first_char (s : string) : ascii :=
  match s with
  | EmptyString => Ascii.zero
  | String c _ => c
  end.

Definition apply_action (s : ProblemState) (action_name : string) (params : list Z)
  : option (bool * ProblemState) :=
  let n := Z.of_nat (length params) in
  if Ascii.eqb (first_char action_name) "l"%char then
    if String.eqb action_name "left_stack_rack" && (2 <=? n) then
      p0 ← at_index params 0; p1 ← at_index params 1;
      Action.left_stack_rack s p0 p1
    else if String.eqb action_name "left_unstack_rack" && (2 <=? n) then
      p0 ← at_index params 0; p1 ← at_index params 1;
      Action.left_unstack_rack s p0 p1
    else if String.eqb action_name "load_beluga" && (1 <=? n) then
      p0 ← at_index params 0;
      p1 ← (if 1 <? n then at_index params 1 else Some (-1));
      Action.load_beluga s p0 p1
    else Some (false, s)
  else if Ascii.eqb (first_char action_name) "r"%char then
    if String.eqb action_name "right_stack_rack" && (2 <=? n) then
      p0 ← at_index params 0; p1 ← at_index params 1;
      Action.right_stack_rack s p0 p1
    else if String.eqb action_name "right_unstack_rack" && (2 <=? n) then
      p0 ← at_index params 0; p1 ← at_index params 1;
      Action.right_unstack_rack s p0 p1
    else Some (false, s)
  else if Ascii.eqb (first_char action_name) "u"%char then
    if String.eqb action_name "unload_beluga" then Action.unload_beluga s
    else Some (false, s)
  else if Ascii.eqb (first_char action_name) "g"%char then
    if String.eqb action_name "get_from_hangar" && (2 <=? n) then
      p0 ← at_index params 0; p1 ← at_index params 1;
      Action.get_from_hangar s p0 p1
    else Some (false, s)
  else if Ascii.eqb (first_char action_name) "d"%char then
    if String.eqb action_name "deliver_to_hangar" && (2 <=? n) then
      p0 ← at_index params 0; p1 ← at_index params 1;
      Action.deliver_to_hangar s p0 p1
    else Some (false, s)
  else Some (false, s).

(** The action is tried on a copy, which is then dropped. *)
Definition check_action_valid (s : ProblemState) (action_name : string)
    (params : list Z) : option bool :=
  fst <$> apply_action (copy s) action_name params.

(** A [for] loop over [items] that threads an accumulator. *)
Fixpoint for_each {A S} (items : list A) (body : A -> S -> option S) (acc : S)
  : option S :=
  match items with
  | [] => Some acc
  | x :: rest => acc' ← body x acc; for_each rest body acc'
  end.

(** [for (int i = 0; i < static_cast<int>(vec.size()); ++i)] *)
Definition indices {T} (vec : list T) : list Z := seqZ 0 (Z.of_nat (length vec)).

(** [if (check_action_valid(action, candidate)) params.push_back(candidate);] *)
Definition push_if_valid (s : ProblemState) (action : string) (candidate : list Z)
    (params : list (list Z)) : option (list (list Z)) :=
  valid ← check_action_valid s action candidate;
  Some (if (valid : bool) then params ++ [candidate] else params).

Definition enumerate_valid_params (s : ProblemState) (action : string)
  : option (list (list Z)) :=
  if String.eqb action "left_stack_rack" then
    for_each (indices (racks s)) (fun rack_id =>
      for_each (indices (trailers_beluga s)) (fun trailer_id (params : list (list Z)) =>
        on_trailer ← at_index (trailers_beluga s) trailer_id;
        if negb (on_trailer =? -1) then
          let jig_id := on_trailer in
          if (0 <=? jig_id) && (jig_id <? Z.of_nat (length (jigs s))) then
            jig ← at_index (jigs s) jig_id;
            the_rack ← at_index (racks s) rack_id;
            free_space ← Rack.get_free_space the_rack (jigs s);
            if free_space >=? jig_size jig
            then push_if_valid s action [rack_id; trailer_id] params
            else Some params
          else Some params
        else Some params)) []
  else if String.eqb action "right_stack_rack" then
    for_each (indices (racks s)) (fun rack_id =>
      for_each (indices (trailers_factory s)) (fun trailer_id (params : list (list Z)) =>
        on_trailer ← at_index (trailers_factory s) trailer_id;
        if negb (on_trailer =? -1) then
          let jig_id := on_trailer in
          if (0 <=? jig_id) && (jig_id <? Z.of_nat (length (jigs s))) then
            jig ← at_index (jigs s) jig_id;
            the_rack ← at_index (racks s) rack_id;
            free_space ← Rack.get_free_space the_rack (jigs s);
            if free_space >=? jig_size jig
            then push_if_valid s action [rack_id; trailer_id] params
            else Some params
          else Some params
        else Some params)) []
  else if String.eqb action "left_unstack_rack" then
    for_each (indices (racks s)) (fun rack_id =>
      for_each (indices (trailers_beluga s)) (fun trailer_id (params : list (list Z)) =>
        on_trailer ← at_index (trailers_beluga s) trailer_id;
        the_rack ← at_index (racks s) rack_id;
        if (on_trailer =? -1) && negb (vec_empty (Rack.current_jigs the_rack))
        then push_if_valid s action [rack_id; trailer_id] params
        else Some params)) []
  else if String.eqb action "right_unstack_rack" then
    for_each (indices (racks s)) (fun rack_id =>
      for_each (indices (trailers_factory s)) (fun trailer_id (params : list (list Z)) =>
        on_trailer ← at_index (trailers_factory s) trailer_id;
        the_rack ← at_index (racks s) rack_id;
        if (on_trailer =? -1) && negb (vec_empty (Rack.current_jigs the_rack))
        then push_if_valid s action [rack_id; trailer_id] params
        else Some params)) []
  else if String.eqb action "left_load" then
    for_each (indices (production_lines s)) (fun line_id =>
      for_each (indices (trailers_beluga s)) (fun trailer_id (params : list (list Z)) =>
        on_trailer ← at_index (trailers_beluga s) trailer_id;
        if negb (on_trailer =? -1) then
          let jig_id := on_trailer in
          if (0 <=? jig_id) && (jig_id <? Z.of_nat (length (jigs s))) then
            jig ← at_index (jigs s) jig_id;
            line ← at_index (production_lines s) line_id;
            if empty jig && vec_empty (ProductionLine.scheduled_jigs line)
            then push_if_valid s action [line_id; trailer_id] params
            else Some params
          else Some params
        else Some params)) []
  else if String.eqb action "right_load" then
    for_each (indices (production_lines s)) (fun line_id =>
      for_each (indices (trailers_factory s)) (fun trailer_id (params : list (list Z)) =>
        on_trailer ← at_index (trailers_factory s) trailer_id;
        if negb (on_trailer =? -1) then
          let jig_id := on_trailer in
          if (0 <=? jig_id) && (jig_id <? Z.of_nat (length (jigs s))) then
            jig ← at_index (jigs s) jig_id;
            line ← at_index (production_lines s) line_id;
            if empty jig && vec_empty (ProductionLine.scheduled_jigs line)
            then push_if_valid s action [line_id; trailer_id] params
            else Some params
          else Some params
        else Some params)) []
  else if String.eqb action "left_unload" then
    for_each (indices (production_lines s)) (fun line_id =>
      for_each (indices (trailers_beluga s)) (fun trailer_id (params : list (list Z)) =>
        on_trailer ← at_index (trailers_beluga s) trailer_id;
        line ← at_index (production_lines s) line_id;
        if (on_trailer =? -1) && negb (vec_empty (ProductionLine.scheduled_jigs line))
        then push_if_valid s action [line_id; trailer_id] params
        else Some params)) []
  else if String.eqb action "right_unload" then
    for_each (indices (production_lines s)) (fun line_id =>
      for_each (indices (trailers_factory s)) (fun trailer_id (params : list (list Z)) =>
        on_trailer ← at_index (trailers_factory s) trailer_id;
        line ← at_index (production_lines s) line_id;
        if (on_trailer =? -1) && negb (vec_empty (ProductionLine.scheduled_jigs line))
        then push_if_valid s action [line_id; trailer_id] params
        else Some params)) []
  else if String.eqb action "deliver_to_hangar" then
    for_each (indices (hangars s)) (fun hangar_id =>
      for_each (indices (trailers_factory s)) (fun trailer_id (params : list (list Z)) =>
        in_hangar ← at_index (hangars s) hangar_id;
        on_trailer ← at_index (trailers_factory s) trailer_id;
        if (in_hangar =? -1) && negb (on_trailer =? -1) then
          let jig_id := on_trailer in
          if (0 <=? jig_id) && (jig_id <? Z.of_nat (length (jigs s))) then
            jig ← at_index (jigs s) jig_id;
            if negb (empty jig) then
              let needed :=
                existsb (Action.line_starts_with jig_id) (production_lines s) in
              Some (if needed then params ++ [[hangar_id; trailer_id]] else params)
            else Some params
          else Some params
        else Some params)) []
  else if String.eqb action "get_from_hangar" then
    for_each (indices (hangars s)) (fun hangar_id =>
      for_each (indices (trailers_factory s)) (fun trailer_id (params : list (list Z)) =>
        in_hangar ← at_index (hangars s) hangar_id;
        on_trailer ← at_index (trailers_factory s) trailer_id;
        if negb (in_hangar =? -1) && (on_trailer =? -1) then
          let jig_id := in_hangar in
          if (0 <=? jig_id) && (jig_id <? Z.of_nat (length (jigs s))) then
            jig ← at_index (jigs s) jig_id;
            Some (if empty jig then params ++ [[hangar_id; trailer_id]] else params)
          else Some params
        else Some params)) []
  else if String.eqb action "unload_beluga" then
    match belugas s with
    | [] => Some []
    | beluga :: _ =>
        if negb (vec_empty (Beluga.current_jigs beluga)) then
          (* one empty parameter list at the first empty trailer, then [break] *)
          Some (if existsb (fun v => v =? -1) (trailers_beluga s) then [[]] else [])
        else Some []
    end
  else Some [].

Definition param_actions : list string :=
  ["left_stack_rack"; "right_stack_rack"; "left_unstack_rack";
   "right_unstack_rack"; "load_beluga"; "get_from_hangar"; "deliver_to_hangar"]%string.

Definition get_possible_actions (s : ProblemState)
  : option (list (string * list Z)) :=
  valid ← check_action_valid s "unload_beluga" [];
  let possible_actions := if (valid : bool) then [("unload_beluga"%string, [])] else [] in
  for_each param_actions (fun action possible_actions =>
    params ← enumerate_valid_params s action;
    Some (possible_actions ++ map (fun param => (action, param)) params))
    possible_actions.

(** The default value [0.05f] of [mu]. *)
Definition mu_default : spec_float := S754_finite false 13421773 (-28).

Definition evaluate (s : ProblemState) (depth : Z) (mu : spec_float) : spec_float :=
  let local_belugas_finished := total_belugas s - Z.of_nat (length (belugas s)) in
  let local_production_lines_finished :=
    total_lines s - Z.of_nat (length (production_lines s)) in
  let local_problem_solved :=
    vec_empty (belugas s) && vec_empty (production_lines s) in
  let score := F32.zero in
  let score := F32.add score (F32.mul (F32.of_int (belugas_unloaded s)) (F32.of_int 15)) in
  let score := F32.add score (F32.mul (F32.of_int local_belugas_finished) (F32.of_int 60)) in
  let score :=
    F32.add score (F32.mul (F32.of_int local_production_lines_finished) (F32.of_int 100)) in
  let score :=
    F32.add score (if local_problem_solved then F32.of_int 1000 else F32.zero) in
  let score := F32.sub score (F32.mul mu (F32.of_int depth)) in
  score.

(** ** The observation of a snapshot *)

(** The [float] literals [1.0f], [0.5f], [0.25f] and the converted [-1]. *)
Definition float_one : spec_float := S754_finite false 8388608 (-23).
Definition float_half : spec_float := S754_finite false 8388608 (-24).
Definition float_quarter : spec_float := S754_finite false 8388608 (-25).
Definition float_minus_one : spec_float := S754_finite true 8388608 (-23).

(** [std::min(a, b)] is [(b < a) ? b : a] and [std::max(a, b)] is
    [(a < b) ? b : a]. *)
Definition float_min (a b : spec_float) : spec_float := if SFltb b a then b else a.
Definition float_max (a b : spec_float) : spec_float := if SFltb a b then b else a.

(** One round of the loop over the first three beluga trailers.  The
    writes [out[1 + i] = ...] are inside the vector of forty. *)
Definition observe_trailer (s : ProblemState) (needed_outgoing_types : list JigType)
    (i : Z) (out : list spec_float) : option (list spec_float) :=
  if i <? Z.of_nat (length (trailers_beluga s)) then
    on_trailer ← at_index (trailers_beluga s) i;
    if on_trailer =? -1 then Some (assign out (1 + i) float_half)
    else
      jig ← at_index (jigs s) on_trailer;
      if empty jig then
        out0 ← at_index out 0;
        if SFeqb out0 F32.zero then
          let found :=
            existsb (fun ty => JigType_eqb ty (jig_type jig)) needed_outgoing_types in
          Some (assign out (1 + i) (if found then F32.zero else float_quarter))
        else Some (assign out (1 + i) float_one)
      else Some (assign out (1 + i) float_one)
  else Some (assign out (1 + i) float_minus_one).

Definition get_observation_high_level (s : ProblemState) : option (list spec_float) :=
  let n_racks := 10 in
  let out := replicate (Z.to_nat (10 + 3 * n_racks)) F32.zero in
  let needed_in_production_lines :=
    flat_map (fun pl => match ProductionLine.scheduled_jigs pl with
                        | [] => []
                        | first :: _ => [first]
                        end) (production_lines s) in
  let '(out, needed_outgoing_types) :=
    match belugas s with
    | beluga :: _ =>
        let out0 :=
          float_max F32.zero
            (float_min (F32.of_int (Z.of_nat (length (Beluga.current_jigs beluga))))
               float_one) in
        (assign out 0 out0,
         if SFeqb out0 F32.zero then Beluga.outgoing beluga else [])
    | [] => (assign out 0 float_minus_one, [])
    end in
  for_each [0; 1; 2] (observe_trailer s needed_outgoing_types) out.

(** What slot [1 + i] of the observation says of beluga trailer [i]. *)
Definition slot_reading (s : ProblemState) (i : Z) (v : spec_float) : Prop :=
  match at_index (trailers_beluga s) i with
  | None => v = float_minus_one
  | Some on_trailer =>
      if on_trailer =? -1 then v = float_half
      else v = F32.zero \/ v = float_quarter \/ v = float_one
  end.

(** Every jig on one of the first three beluga trailers is in the
    registry. *)
Definition observed_trailers_known (s : ProblemState) : Prop :=
  forall i on_trailer,
    0 <= i < 3 ->
    at_index (trailers_beluga s) i = Some on_trailer ->
    on_trailer <> -1 ->
    is_valid_index on_trailer (jigs s) = true.

(** ** The scenario loader

    The scenario file is decoded by a JSON library that is not part of the
    sources; the loader is modelled on the decoded document.  Errors of the
    JSON library itself (syntax, a field of the wrong shape) are outside
    the model; the exceptions below are the ones the loader's own code and
    [std::stoi] throw. *)

Inductive exception :=
| runtime_error (what : string)
| invalid_argument (what : string)
| out_of_range (what : string).

Definition result (A : Type) : Type := exception + A.
Definition throw {A} (e : exception) : result A := inl e.
Definition ret {A} (a : A) : result A := inr a.
Definition bind {A B} (m : result A) (k : A -> result B) : result B :=
  match m with
  | inl e => inl e
  | inr a => k a
  end.

Notation "'try' x <- m ; k" := (bind m (fun x => k))
  (at level 10, x name, m at level 100, k at level 200).

(** A loop that pushes [f x] for every [x], left to right; the first
    exception ends it. *)
Fixpoint collect {A B} (f : A -> result B) (items : list A) : result (list B) :=
  match items with
  | [] => ret []
  | x :: rest => try y <- f x; try ys <- collect f rest; ret (y :: ys)
  end.

Record JigEntry := mkJigEntry {
  entry_type : string;
  entry_empty : bool
}.

Record Flight := mkFlight {
  flight_incoming : list string;
  flight_outgoing : list string
}.

Record RackEntry := mkRackEntry {
  entry_size : Z;
  entry_jigs : list string
}.

(** The decoded document; for the three slot arrays only the length is
    read. *)
Record Scenario := mkScenario {
  sc_jigs : list (string * JigEntry);         (* in key iteration order *)
  sc_flights : list Flight;
  sc_production_lines : list (list string);   (* the [schedule] of each line *)
  sc_racks : list RackEntry;
  sc_trailers_beluga : nat;
  sc_trailers_factory : nat;
  sc_hangars : nat
}.

Definition get_type_from_string (type_str : string) : result JigType :=
  if String.eqb type_str "typeA" then ret (mkJigType "typeA" 4 4)
  else if String.eqb type_str "typeB" then ret (mkJigType "typeB" 8 11)
  else if String.eqb type_str "typeC" then ret (mkJigType "typeC" 9 18)
  else if String.eqb type_str "typeD" then ret (mkJigType "typeD" 18 25)
  else if String.eqb type_str "typeE" then ret (mkJigType "typeE" 32 32)
  else throw (runtime_error ("Unbekannter Jig-Typ: " ++ type_str)).

(** [std::stoi] in base ten: white space, an optional sign, then the
    longest run of digits; whatever follows is ignored. *)
Definition is_space (c : ascii) : bool :=
  let n := Z.of_nat (nat_of_ascii c) in (n =? 32) || ((9 <=? n) && (n <=? 13)).

Fixpoint skip_spaces (s : string) : string :=
  match s with
  | String c rest => if is_space c then skip_spaces rest else s
  | EmptyString => s
  end.

Definition digit_value (c : ascii) : option Z :=
  let n := Z.of_nat (nat_of_ascii c) in
  if (48 <=? n) && (n <=? 57) then Some (n - 48) else None.

Fixpoint read_digits (s : string) (acc : option Z) : option Z :=
  match s with
  | String c rest =>
      match digit_value c with
      | Some d => read_digits rest (Some (10 * default 0 acc + d))
      | None => acc
      end
  | EmptyString => acc
  end.

Definition stoi (str : string) : result Z :=
  let s := skip_spaces str in
  let '(negative, digits) :=
    match s with
    | String "-"%char rest => (true, rest)
    | String "+"%char rest => (false, rest)
    | _ => (false, s)
    end in
  match read_digits digits None with
  | None => throw (invalid_argument "stoi")
  | Some n =>
      let v := if negative then - n else n in
      if (-2147483648 <=? v) && (v <=? 2147483647) then ret v
      else throw (out_of_range "stoi")
  end.

(** The value of an [int] computation whose exact result is [z]: inside
    the range of [int] it is [z]; outside, where the language leaves the
    behaviour undefined, it is the two's complement result. *)
Definition wrap_int (z : Z) : Z := (z + 2147483648) mod 4294967296 - 2147483648.

Definition extract_id_from_string (id_str : string) : result Z :=
  let prefix : string := "jig" in
  if String.prefix prefix id_str then
    let number_part := String.substring (String.length prefix)
                         (String.length id_str - String.length prefix) id_str in
    try n <- stoi number_part; ret (wrap_int (n - 1))
  else throw (runtime_error ("Konnte ID nicht aus String extrahieren: " ++ id_str)).

(** [file] is the decoded content of the file at [path], if it opens. *)
Definition load_from_json (path : string) (file : option Scenario)
  : result ProblemState :=
  match file with
  | None => throw (runtime_error ("Konnte Datei nicht öffnen: " ++ path))
  | Some data =>
      try jigs <- collect (fun kv : string * JigEntry =>
                    try ty <- get_type_from_string (entry_type (snd kv));
                    ret (mkJig ty (entry_empty (snd kv)))) (sc_jigs data);
      try belugas <- collect (fun beluga_data =>
                    try incoming <- collect extract_id_from_string
                                      (flight_incoming beluga_data);
                    try outgoing <- collect get_type_from_string
                                      (flight_outgoing beluga_data);
                    ret (Beluga.mk incoming outgoing)) (sc_flights data);
      try production_lines <- collect (fun schedule =>
                    try ids <- collect extract_id_from_string schedule;
                    ret (ProductionLine.mk ids)) (sc_production_lines data);
      try racks <- collect (fun rack_data =>
                    try storage <- collect extract_id_from_string (entry_jigs rack_data);
                    ret (Rack.mk (entry_size rack_data) storage)) (sc_racks data);
      let trailers_beluga := replicate (sc_trailers_beluga data) (-1) in
      let trailers_factory := replicate (sc_trailers_factory data) (-1) in
      let hangars := replicate (sc_hangars data) (-1) in
      ret (new_ProblemState jigs belugas trailers_beluga trailers_factory
             racks production_lines hangars)
  end.

(** ** The tree node

    A node owns its children; the weak back edge to the parent is read
    only by [is_root] and [backpropagate], which are not part of this
    development, and is left out of the record. *)

Module MCTSNode.

Inductive t := mk {
    state : ProblemState;
    action : string * list Z;
    depth : Z;
    children : list t;
    visits : Z;
    total_reward : spec_float
  }.

  (** The constructor: no children, [visits(0)], [total_reward(0.0f)]. *)
Definition new (state : ProblemState) (action : string * list Z) (depth : Z) : t :=
    mk state action depth [] 0 F32.zero.

Definition add_child (n : t) (child : t) : t :=
    mk (state n) (action n) (depth n) (children n ++ [child]) (visits n)
       (total_reward n).

  (** [expand] mutates the node and returns the new child: the result is
      the node afterwards and the child.  The flag of [apply_action] is
      dropped, as in the source. *)
Definition expand (n : t) (candidate : string * list Z) : option (t * t) :=
    let new_state := copy (state n) in
    applied ← apply_action new_state (fst candidate) (snd candidate);
    let new_state := snd applied in
    let child_node := new new_state candidate (depth n + 1) in
    Some (add_child n child_node, child_node).

  (** The selection loop shared by [best_child] and [bestChild]: the first
      child whose score is greater than every score before it. *)
Fixpoint best_child_loop (score_of : t -> spec_float) (kids : list t)
      (best_score : spec_float) (best : option t) : option t :=
    match kids with
    | [] => best
    | child :: rest =>
        let score := score_of child in
        if SFltb best_score score
        then best_child_loop score_of rest score (Some child)
        else best_child_loop score_of rest best_score best
    end.

Section UCT.
    (** [std::log] on [double], from the C library. *)
Variable log : spec_float -> spec_float.

    (** [MCTSNode.cpp]: the score is a [float]; the exploration term is
        computed in [double] and narrowed. *)
Definition uct_score (n : t) (exploration_weight : spec_float) (child : t)
      : spec_float :=
      if visits child =? 0 then F32.infinity
      else
        let exploitation := F32.div (total_reward child) (F32.of_int (visits child)) in
        let exploration :=
          F32.of_double
            (F64.mul (F64.of_float exploration_weight)
               (F64.sqrt (F64.div (log (F64.of_int (visits n)))
                                  (F64.of_int (visits child))))) in
        F32.add exploitation exploration.

Definition best_child (n : t) (exploration_weight : spec_float) : option t :=
      if vec_empty (children n) then None
      else best_child_loop (uct_score n exploration_weight) (children n)
             F32.lowest None.

    (** [mcts_node.cpp]: the same loop with every quantity a [double]. *)
Definition uct_score_double (n : t) (exploration_weight : spec_float) (child : t)
      : spec_float :=
      if visits child =? 0 then S754_infinity false
      else
        let exploitation :=
          F64.div (total_reward child) (F64.of_int (visits child)) in
        let exploration :=
          F64.mul exploration_weight
            (F64.sqrt (F64.div (log (F64.of_int (visits n)))
                               (F64.of_int (visits child)))) in
        SFadd F64.prec F64.emax exploitation exploration.

Definition bestChild (n : t) (exploration_weight : spec_float) : option t :=
      if vec_empty (children n) then None
      else best_child_loop (uct_score_double n exploration_weight) (children n)
             (SFopp (SFmax_float F64.prec F64.emax)) None.
End UCT.

  (** [child->action.first == action.first && child->action.second ==
      action.second] *)
Definition same_action (x y : string * list Z) : bool :=
    String.eqb (fst x) (fst y) && bool_decide (snd x = snd y).

Definition action_tried (n : t) (candidate : string * list Z) : bool :=
    existsb (fun child => same_action (action child) candidate) (children n).

  (** [is_root] is [parent.expired()]; the parent is not part of the
      record, and the flag is an argument.  Each loop pushes, in order,
      the candidates that [action_tried] does not know. *)
Definition get_untried_actions (is_root : bool) (n : t)
      : option (list (string * list Z)) :=
    if is_root && negb (String.eqb (fst (action n)) EmptyString) && vec_empty (snd (action n))
    then
      let action_name := fst (action n) in
      all_params ← enumerate_valid_params (state n) action_name;
      Some (List.filter (fun candidate => negb (action_tried n candidate))
              (map (fun params => (action_name, params)) all_params))
    else
      all_possible_actions ← get_possible_actions (state n);
      Some (List.filter (fun candidate => negb (action_tried n candidate))
              all_possible_actions).

Definition is_fully_expanded (is_root : bool) (n : t) : option bool :=
    vec_empty <$> get_untried_actions is_root n.

End MCTSNode.

(** ** The rollout of the driver *)

(** What a run of a loop with a step budget comes to. *)
Inductive run (A : Type) :=
| Returned (a : A)
| OutOfBounds        (* a read outside a vector *)
| OutOfFuel.         (* the budget of the model was too small *)
Arguments Returned {A} a.
Arguments OutOfBounds {A}.
Arguments OutOfFuel {A}.

Module MCTS.
Section Rollout.
    (** [std::mt19937]: the state of the generator and one draw. *)
Variable RngState : Type.
Variable rng_next : RngState -> Z * RngState.

    (** The [while] loop of [rollout_single]; it returns the state, the
        depth, the number of actions taken and the generator. *)
Fixpoint rollout_loop (fuel : nat) (depth max_rollout_steps : Z)
        (state : ProblemState) (current_depth actions_taken : Z) (rng : RngState)
      : run (ProblemState * Z * Z * RngState) :=
      if negb (is_terminal state) && (current_depth <? depth)
         && (actions_taken <? max_rollout_steps)
      then
        match fuel with
        | O => OutOfFuel
        | S fuel' =>
            match get_possible_actions state with
            | None => OutOfBounds
            | Some possible_actions =>
                if vec_empty possible_actions
                then Returned (state, current_depth, actions_taken, rng)
                else
                  let '(drawn, rng) := rng_next rng in
                  let action_idx := drawn mod Z.of_nat (length possible_actions) in
                  match at_index possible_actions action_idx with
                  | None => OutOfBounds
                  | Some action =>
                      match apply_action state (fst action) (snd action) with
                      | None => OutOfBounds
                      | Some applied =>
                          rollout_loop fuel' depth max_rollout_steps (snd applied)
                            (current_depth + 1) (actions_taken + 1) rng
                      end
                  end
            end
        end
      else Returned (state, current_depth, actions_taken, rng).

    (** [depth] is the field of the driver. *)
Definition rollout_single (depth : Z) (node : MCTSNode.t) (rng : RngState)
      : run (spec_float * RngState) :=
      let state := copy (MCTSNode.state node) in
      let current_depth := MCTSNode.depth node in
      let max_rollout_steps := Z.min 50 (depth - current_depth) in
      match rollout_loop (Z.to_nat max_rollout_steps) depth max_rollout_steps
              state current_depth 0 rng with
      | Returned (state, current_depth, _, rng) =>
          Returned (evaluate state current_depth mu_default, rng)
      | OutOfBounds => OutOfBounds
      | OutOfFuel => OutOfFuel
      end.
End Rollout.

    (** The loop of [count_nodes]: the queue and the count so far. *)
Fixpoint count_nodes_loop (fuel : nat) (nodes_to_count : list MCTSNode.t) (count : Z)
      : run Z :=
      match nodes_to_count with
      | [] => Returned count
      | current :: rest =>
          match fuel with
          | O => OutOfFuel
          | S fuel' =>
              let count := count + 1 in
              let nodes_to_count := rest ++ MCTSNode.children current in
              if count >? 1000000 then Returned count
              else count_nodes_loop fuel' nodes_to_count count
          end
      end.

Definition count_nodes (fuel : nat) (node : MCTSNode.t) : run Z :=
      count_nodes_loop fuel [node] 0.

    (** The loop of [get_max_depth]: the queue and the greatest depth so
        far. *)
Fixpoint get_max_depth_loop (fuel : nat) (nodes_to_check : list MCTSNode.t)
        (max_depth : Z) : run Z :=
      match nodes_to_check with
      | [] => Returned max_depth
      | current :: rest =>
          match fuel with
          | O => OutOfFuel
          | S fuel' =>
              let max_depth := Z.max max_depth (MCTSNode.depth current) in
              let nodes_to_check := rest ++ MCTSNode.children current in
              if Z.of_nat (length nodes_to_check) >? 100000 then Returned max_depth
              else get_max_depth_loop fuel' nodes_to_check max_depth
          end
      end.

Definition get_max_depth (fuel : nat) (node : MCTSNode.t) : run Z :=
      get_max_depth_loop fuel [node] 0.

Section BestPath.
    (** [std::log] on [double], from the C library. *)
Variable log : spec_float -> spec_float.

    (** The loop [while (true)] of [get_best_path]; a unit of fuel pays for
        one call of [best_child]. *)
Fixpoint get_best_path_loop (fuel : nat) (node : MCTSNode.t)
        (path : list (string * list Z)) : run (list (string * list Z)) :=
      match fuel with
      | O => OutOfFuel
      | S fuel' =>
          match MCTSNode.best_child log node F32.zero with
          | None => Returned path
          | Some best_child =>
              get_best_path_loop fuel' best_child (path ++ [MCTSNode.action best_child])
          end
      end.

Definition get_best_path (fuel : nat) (root : MCTSNode.t)
      : run (list (string * list Z)) :=
      get_best_path_loop fuel root [].
End BestPath.

    (** [visits > 0 ? total_reward / visits : 0.0f] *)
Definition node_value (node : MCTSNode.t) : spec_float :=
      if MCTSNode.visits node >? 0
      then F32.div (MCTSNode.total_reward node) (F32.of_int (MCTSNode.visits node))
      else F32.zero.

    (** The loop of [collect_training_data]: the queue and the samples so
        far.  The diagnostic counters and the output are left out. *)
Fixpoint collect_loop (fuel : nat) (max_samples min_visits : Z)
        (nodes_to_process : list MCTSNode.t)
        (training_data : list (list spec_float * spec_float))
      : run (list (list spec_float * spec_float)) :=
      match nodes_to_process with
      | [] => Returned training_data
      | current_node :: rest =>
          if Z.of_nat (length training_data) <? max_samples then
            match fuel with
            | O => OutOfFuel
            | S fuel' =>
                let nodes_to_process := rest ++ MCTSNode.children current_node in
                if MCTSNode.visits current_node >=? min_visits then
                  match get_observation_high_level (MCTSNode.state current_node) with
                  | None => OutOfBounds
                  | Some observation =>
                      collect_loop fuel' max_samples min_visits nodes_to_process
                        (training_data ++ [(observation, node_value current_node)])
                  end
                else
                  collect_loop fuel' max_samples min_visits nodes_to_process
                    training_data
            end
          else Returned training_data
      end.

    (** With fewer than ten samples and [min_visits > 1] the function calls
        itself with [min_visits = 1]; that call cannot call itself
        again. *)
Definition collect_training_data (fuel : nat) (max_samples min_visits : Z)
        (root : MCTSNode.t) : run (list (list spec_float * spec_float)) :=
      match collect_loop fuel max_samples min_visits [root] [] with
      | Returned training_data =>
          if (Z.of_nat (length training_data) <? 10) && (min_visits >? 1)
          then collect_loop fuel max_samples 1 [root] []
          else Returned training_data
      | OutOfBounds => OutOfBounds
      | OutOfFuel => OutOfFuel
      end.
End MCTS.

(** ** Example snapshots *)

(** Scenario B of the specification: one empty jig of
    type A waits on the beluga trailer, and the beluga asks for a type A. *)
Definition typeA : JigType := mkJigType "typeA" 4 4.
Definition typeB : JigType := mkJigType "typeB" 8 11.
Definition typeE : JigType := mkJigType "typeE" 32 32.

Definition scenario_B : ProblemState :=
  new_ProblemState [mkJig typeA true] [Beluga.mk [] [typeA]] [0] [] [] [] [].

(** A beluga with no cargo and nothing outgoing. *)
Definition beluga_finished (b : Beluga.t) : bool :=
  vec_empty (Beluga.current_jigs b) && vec_empty (Beluga.outgoing b).

Definition no_finished_beluga (s : ProblemState) : Prop :=
  Forall (fun b => beluga_finished b = false) (belugas s).

(** A scenario with a single flight that carries nothing and asks for
    nothing, and the snapshot the loader makes of it. *)
Definition idle_flight_scenario : Scenario :=
  mkScenario [] [mkFlight [] []] [] [] 1 1 1.

Definition idle_flight_state : ProblemState :=
  new_ProblemState [] [Beluga.mk [] []] [-1] [-1] [] [] [-1].

(** One beluga that carries two jigs. *)
Definition cargo_state : ProblemState :=
  new_ProblemState [mkJig typeA false; mkJig typeA false]
    [Beluga.mk [0; 1] []] [-1] [-1] [] [] [].

(** ** Rack capacity, as the specification counts it *)

(** The sum of the sizes of the jigs of a rack, each jig looked up by its
    id in the registry. *)
Definition rack_load (all_jigs : list Jig) (r : Rack.t) : option Z :=
  sizes ← mapM (fun jig_id => jig_size <$> at_index all_jigs jig_id)
             (Rack.current_jigs r);
  Some (foldr Z.add 0 sizes).

Definition rack_within_capacity (all_jigs : list Jig) (r : Rack.t) : bool :=
  match rack_load all_jigs r with
  | Some used => used <=? Rack.size r
  | None => false
  end.

Definition racks_within_capacity (s : ProblemState) : bool :=
  forallb (rack_within_capacity (jigs s)) (racks s).

(** A scenario with three loaded jigs: [jig1] of type A, [jig2] and [jig3]
    of type E.  The only rack has capacity 36 and holds [jig2]; the only
    flight brings [jig3]. *)
Definition crowded_scenario : Scenario :=
  mkScenario
    [("jig1", mkJigEntry "typeA" false); ("jig2", mkJigEntry "typeE" false);
     ("jig3", mkJigEntry "typeE" false)]%string
    [mkFlight ["jig3"%string] []] [] [mkRackEntry 36 ["jig2"%string]] 1 1 1.

Definition crowded_jigs : list Jig :=
  [mkJig typeA false; mkJig typeE false; mkJig typeE false].

Definition crowded_state : ProblemState :=
  new_ProblemState crowded_jigs [Beluga.mk [2] []] [-1] [-1]
    [Rack.mk 36 [1]] [] [-1].

Definition crowded_unloaded : ProblemState :=
  {| jigs := crowded_jigs; belugas := []; trailers_beluga := [2];
     trailers_factory := [-1]; racks := [Rack.mk 36 [1]]; production_lines := [];
     hangars := [-1]; belugas_unloaded := 1; belugas_finished := 1;
     production_lines_finished := 0; total_lines := 0; total_belugas := 1;
     problem_solved := false |}.

Definition crowded_stacked : ProblemState :=
  {| jigs := crowded_jigs; belugas := []; trailers_beluga := [-1];
     trailers_factory := [-1]; racks := [Rack.mk 36 [2; 1]]; production_lines := [];
     hangars := [-1]; belugas_unloaded := 1; belugas_finished := 1;
     production_lines_finished := 0; total_lines := 0; total_belugas := 1;
     problem_solved := false |}.

(** Scenario C of the specification: a rack of capacity 5 that holds one
    loaded jig of type B, of size 11. *)
Definition scenario_C : Scenario :=
  mkScenario [("jig1"%string, mkJigEntry "typeB" false)] [] []
    [mkRackEntry 5 ["jig1"%string]] 1 1 1.

Definition scenario_C_state : ProblemState :=
  new_ProblemState [mkJig typeB false] [] [-1] [-1] [Rack.mk 5 [0]] [] [-1].

(** ** A small tree *)

(** The logarithm for the example below, whose root has one visit: the
    only logarithm taken is that of 1, which is 0. *)
Definition log_at_one (x : spec_float) : spec_float := S754_zero false.

Definition visited_child : MCTSNode.t :=
  MCTSNode.mk scenario_B ("load_beluga"%string, [0]) 1 [] 1 (F32.of_int 1).

Definition unvisited_child : MCTSNode.t :=
  MCTSNode.mk scenario_B ("unload_beluga"%string, []) 1 [] 0 F32.zero.

Definition uct_example : MCTSNode.t :=
  MCTSNode.mk scenario_B (""%string, []) 0 [visited_child; unvisited_child] 1
    (F32.of_int 1).

(** The same tree for the node class of [mcts_node.cpp], whose rewards are
    [double]. *)
Definition visited_child_double : MCTSNode.t :=
  MCTSNode.mk scenario_B ("load_beluga"%string, [0]) 1 [] 1 (F64.of_int 1).

Definition uct_example_double : MCTSNode.t :=
  MCTSNode.mk scenario_B (""%string, []) 0 [visited_child_double; unvisited_child] 1
    (F64.of_int 1).

(** ** Names in a scenario *)

Definition known_type (type_str : string) : bool :=
  existsb (String.eqb type_str) ["typeA"; "typeB"; "typeC"; "typeD"; "typeE"]%string.

Definition jig_reference (id_str : string) : bool := String.prefix "jig" id_str.

(** Every type is one of the five canonical ones and every reference to a
    jig starts with [jig]. *)
Definition names_ok (data : Scenario) : bool :=
  forallb (fun kv : string * JigEntry => known_type (entry_type (snd kv))) (sc_jigs data)
  && forallb (fun f => forallb jig_reference (flight_incoming f)
                       && forallb known_type (flight_outgoing f)) (sc_flights data)
  && forallb (forallb jig_reference) (sc_production_lines data)
  && forallb (fun r => forallb jig_reference (entry_jigs r)) (sc_racks data).

(** A scenario whose only jig has a type that does not exist. *)
Definition scenario_unknown_type : Scenario :=
  mkScenario [("jig1"%string, mkJigEntry "typeZ" false)] [] [] [] 1 1 1.

Definition with_problem_solved (s : ProblemState) (v : bool) : ProblemState :=
  {| jigs := jigs s; belugas := belugas s; trailers_beluga := trailers_beluga s;
     trailers_factory := trailers_factory s; racks := racks s;
     production_lines := production_lines s; hangars := hangars s;
     belugas_unloaded := belugas_unloaded s; belugas_finished := belugas_finished s;
     production_lines_finished := production_lines_finished s;
     total_lines := total_lines s; total_belugas := total_belugas s;
     problem_solved := v |}.

(** ** Playouts *)

Section Playout.
Variable RngState : Type.
Variable rng_next : RngState -> Z * RngState.

(** One step of a playout: the snapshot is not terminal, an action is
    drawn from [get_possible_actions] at the index the generator gives,
    and it is applied. *)
Inductive playout_step : ProblemState * RngState -> ProblemState * RngState -> Prop :=
| playout_step_intro (s : ProblemState) (rng : RngState)
    (possible_actions : list (string * list Z)) (drawn : Z) (rng' : RngState)
    (action : string * list Z) (b : bool) (s' : ProblemState) :
    is_terminal s = false ->
    get_possible_actions s = Some possible_actions ->
    possible_actions <> [] ->
    rng_next rng = (drawn, rng') ->
    possible_actions !! Z.to_nat (drawn mod Z.of_nat (length possible_actions))
      = Some action ->
    apply_action s (fst action) (snd action) = Some (b, s') ->
    playout_step (s, rng) (s', rng').

(** [n] steps in a row. *)
Inductive playout : nat -> ProblemState * RngState -> ProblemState * RngState -> Prop :=
| playout_done (x : ProblemState * RngState) : playout 0 x x
| playout_more (n : nat) (x y z : ProblemState * RngState) :
    playout_step x y -> playout n y z -> playout (S n) x z.

(** A playout that cannot go on because a read leaves a vector: in
    [get_possible_actions], or in the action that was drawn. *)
Definition playout_stuck (x : ProblemState * RngState) : Prop :=
  is_terminal (fst x) = false
  /\ (get_possible_actions (fst x) = None
      \/ exists possible_actions action,
           get_possible_actions (fst x) = Some possible_actions
           /\ possible_actions !!
                Z.to_nat (fst (rng_next (snd x)) mod Z.of_nat (length possible_actions))
              = Some action
           /\ apply_action (fst x) (fst action) (snd action) = None).
End Playout.

(** A generator for the examples: it counts. *)
Definition counter_next (n : Z) : Z * Z := (n, n + 1).

(** Scenario A of the specification, and a node of depth 1 over it. *)
Definition scenario_A : ProblemState :=
  new_ProblemState [mkJig typeA false] [Beluga.mk [0] []] [-1] [-1]
    [Rack.mk 10 []] [ProductionLine.mk [0]] [-1].

Definition scenario_A_node : MCTSNode.t :=
  MCTSNode.new scenario_A ("unload_beluga"%string, []) 1.

(** Scenario A after [unload_beluga]. *)
Definition scenario_A_unloaded : ProblemState :=
  {| jigs := [mkJig typeA false]; belugas := []; trailers_beluga := [0];
     trailers_factory := [-1]; racks := [Rack.mk 10 []];
     production_lines := [ProductionLine.mk [0]]; hangars := [-1];
     belugas_unloaded := 1; belugas_finished := 1; production_lines_finished := 0;
     total_lines := 1; total_belugas := 1; problem_solved := false |}.

(** Every jig id on a rack is one that [get_free_space] can look up. *)
Definition racks_readable (s : ProblemState) : Prop :=
  Forall (fun r => Forall (fun jig_id => 1 <= jig_id <= Z.of_nat (length (jigs s)))
                     (Rack.current_jigs r)) (racks s).

(** A beluga with one jig, followed by a flight that carries nothing and
    asks for nothing. *)
Definition idle_second_state : ProblemState :=
  new_ProblemState [mkJig typeA false] [Beluga.mk [0] []; Beluga.mk [] []]
    [-1] [-1] [] [] [-1].

(** Scenario A after the plan [unload_beluga], [left_stack_rack(0,0)],
    [right_unstack_rack(0,0)], [deliver_to_hangar(0,0)]. *)
Definition scenario_A_solved : ProblemState :=
  {| jigs := [mkJig typeA true]; belugas := []; trailers_beluga := [-1];
     trailers_factory := [-1]; racks := [Rack.mk 10 []];
     production_lines := []; hangars := [0];
     belugas_unloaded := 1; belugas_finished := 1; production_lines_finished := 1;
     total_lines := 1; total_belugas := 1; problem_solved := false |}.

(** ** The space [get_free_space] counts *)

(** The size [get_free_space] charges for a jig id: that of the jig one
    place before it in the registry. *)
Definition charged_size (all_jigs : list Jig) (jig_id : Z) : Z :=
  from_option jig_size 0 (all_jigs !! Z.to_nat (jig_id - 1)).

Definition charged_space (all_jigs : list Jig) (ids : list Z) : Z :=
  foldr Z.add 0 (map (charged_size all_jigs) ids).

(** A factory trailer with a jig, next to an empty rack, and the same
    snapshot after [right_stack_rack(0, 0)]. *)
Definition factory_side_state : ProblemState :=
  new_ProblemState [mkJig typeA false; mkJig typeA false] [] [-1] [1]
    [Rack.mk 10 []] [] [-1].

Definition factory_side_stacked : ProblemState :=
  new_ProblemState [mkJig typeA false; mkJig typeA false] [] [-1] [-1]
    [Rack.mk 10 [1]] [] [-1].

(** ** What a transition keeps *)

(** A jig keeps its type, and stays empty once it is. *)
Definition jig_kept (j j' : Jig) : Prop :=
  jig_type j' = jig_type j /\ (empty j = true -> empty j' = true).

(** The registry keeps its jigs, the three slot arrays keep their
    lengths, the racks keep their number and their sizes, and the totals
    do not move. *)
Definition same_frame (s s' : ProblemState) : Prop :=
  Forall2 jig_kept (jigs s) (jigs s')
  /\ length (trailers_beluga s') = length (trailers_beluga s)
  /\ length (trailers_factory s') = length (trailers_factory s)
  /\ length (hangars s') = length (hangars s)
  /\ Rack.size <$> racks s' = Rack.size <$> racks s
  /\ total_lines s' = total_lines s
  /\ total_belugas s' = total_belugas s
  /\ problem_solved s' = problem_solved s.

(** The counters move with the sequences they count. *)
Definition counters_step (s s' : ProblemState) : Prop :=
  belugas_finished s' + Z.of_nat (length (belugas s'))
    = belugas_finished s + Z.of_nat (length (belugas s))
  /\ production_lines_finished s' + Z.of_nat (length (production_lines s'))
     = production_lines_finished s + Z.of_nat (length (production_lines s))
  /\ belugas_finished s <= belugas_finished s'
  /\ production_lines_finished s <= production_lines_finished s'
  /\ belugas_unloaded s <= belugas_unloaded s' <= belugas_unloaded s + 1.

(** The snapshots that calls of [apply_action] lead to. *)
Inductive reachable (s0 : ProblemState) : ProblemState -> Prop :=
| reachable_start : reachable s0 s0
| reachable_step (s : ProblemState) (action_name : string) (params : list Z)
    (b : bool) (s' : ProblemState) :
    reachable s0 s ->
    apply_action s action_name params = Some (b, s') ->
    reachable s0 s'.

(** The eight names [apply_action] knows. *)
Definition action_names : list string :=
  ["left_stack_rack"; "left_unstack_rack"; "load_beluga"; "right_stack_rack";
   "right_unstack_rack"; "unload_beluga"; "get_from_hangar"; "deliver_to_hangar"]%string.

(** Scenario A solved, with the jig taken back out of the hangar. *)
Definition scenario_A_jig_out : ProblemState :=
  {| jigs := [mkJig typeA true]; belugas := []; trailers_beluga := [-1];
     trailers_factory := [0]; racks := [Rack.mk 10 []];
     production_lines := []; hangars := [-1];
     belugas_unloaded := 1; belugas_finished := 1; production_lines_finished := 1;
     total_lines := 1; total_belugas := 1; problem_solved := false |}.

(** Scenario A with the jig on the factory trailer, before it is
    delivered. *)
Definition scenario_A_at_factory : ProblemState :=
  {| jigs := [mkJig typeA false]; belugas := []; trailers_beluga := [-1];
     trailers_factory := [0]; racks := [Rack.mk 10 []];
     production_lines := [ProductionLine.mk [0]]; hangars := [-1];
     belugas_unloaded := 1; belugas_finished := 1; production_lines_finished := 0;
     total_lines := 1; total_belugas := 1; problem_solved := false |}.

(** The six actions with a rack or a hangar and a trailer that
    [enumerate_valid_params] has a branch for. *)
Definition enumerated_pair_actions : list string :=
  ["left_stack_rack"; "right_stack_rack"; "left_unstack_rack";
   "right_unstack_rack"; "get_from_hangar"; "deliver_to_hangar"]%string.

(** The parameter lists of one action, each with the name of the action. *)
Definition tagged (action : string) (found : list (list Z)) : list (string * list Z) :=
  map (fun param => (action, param)) found.

(** ** The nodes of a tree *)

(** The node and everything below it. *)
Fixpoint tree_nodes (n : MCTSNode.t) : list MCTSNode.t :=
  match n with
  | MCTSNode.mk _ _ _ kids _ _ => n :: flat_map tree_nodes kids
  end.

Definition forest_nodes (queue : list MCTSNode.t) : list MCTSNode.t :=
  flat_map tree_nodes queue.

(** The node of scenario A with its one child, after [unload_beluga]. *)
Definition scenario_A_tree : MCTSNode.t :=
  MCTSNode.add_child scenario_A_node
    (MCTSNode.new scenario_A_unloaded ("unload_beluga"%string, []) 2).

(** Scenario A after [unload_beluga] and [left_stack_rack(0, 0)]: the
    first jig is on the rack. *)
Definition scenario_A_stacked : ProblemState :=
  {| jigs := [mkJig typeA false]; belugas := []; trailers_beluga := [-1];
     trailers_factory := [-1]; racks := [Rack.mk 10 [0]];
     production_lines := [ProductionLine.mk [0]]; hangars := [-1];
     belugas_unloaded := 1; belugas_finished := 1; production_lines_finished := 0;
     total_lines := 1; total_belugas := 1; problem_solved := false |}.

(** ** Where the jigs are *)

(** One if [x] is the id [j], zero if not. *)
Definition hit (j x : Z) : Z := if j =? x then 1 else 0.

(** The number of times the id [j] occurs in a sequence of ids. *)
Definition copies (j : Z) (ids : list Z) : Z :=
  Z.of_nat (length (List.filter (Z.eqb j) ids)).

(** The number of places that hold the jig [j]: the belugas, the two rows
    of trailers, the racks and the hangars. *)
Definition located (j : Z) (s : ProblemState) : Z :=
  copies j (flat_map Beluga.current_jigs (belugas s))
  + copies j (trailers_beluga s)
  + copies j (trailers_factory s)
  + copies j (flat_map Rack.current_jigs (racks s))
  + copies j (hangars s).

(** A chain of nodes, each a child of the one before it, starting below
    [n]. *)
Fixpoint descending (n : MCTSNode.t) (chain : list MCTSNode.t) : Prop :=
  match chain with
  | [] => True
  | c :: rest => c ∈ MCTSNode.children n /\ descending c rest
  end.

(** The ids on the racks can be looked up by [get_free_space], and the
    first jig, of id 0, is in no beluga, on no trailer, on no rack and in
    no hangar. *)
Definition first_jig_unused (s : ProblemState) : Prop :=
  racks_readable s /\ located 0 s = 0.

(** Two jigs, of which the second arrives by beluga and is wanted by the
    production line; the first is nowhere. *)
Definition spare_jig_state : ProblemState :=
  new_ProblemState [mkJig typeA false; mkJig typeA false] [Beluga.mk [1] []]
    [-1] [-1] [Rack.mk 10 []] [ProductionLine.mk [1]] [-1].

(** ** Types by name, and the text of a snapshot *)

(** [get_type] of [Jig.cpp]: a name that is none of the five gives the
    type [unknown]. *)
Definition get_type (type_name : string) : JigType :=
  if String.eqb type_name "typeA" then mkJigType "typeA" 4 4
  else if String.eqb type_name "typeB" then mkJigType "typeB" 8 11
  else if String.eqb type_name "typeC" then mkJigType "typeC" 9 18
  else if String.eqb type_name "typeD" then mkJigType "typeD" 18 25
  else if String.eqb type_name "typeE" then mkJigType "typeE" 32 32
  else mkJigType "unknown" 0 0.

Definition newline : string := String "010"%char EmptyString.
Definition tab : string := String "009"%char EmptyString.

Definition Jig_to_string (jig : Jig) : string :=
  name (jig_type jig) ++ " | " ++ (if empty jig then "true" else "false").

(** [for (i ...) { if (i > 0) ss << ", "; ss << items[i]; }] *)
Fixpoint print_items (items : list string) (first : bool) : string :=
  match items with
  | [] => EmptyString
  | item :: rest =>
      (if first then EmptyString else ", ") ++ item ++ print_items rest false
  end.

Definition Beluga_to_string (b : Beluga.t) : string :=
  "current_jigs = [" ++ print_items (map pretty (Beluga.current_jigs b)) true
  ++ "] | outgoing = [" ++ print_items (map name (Beluga.outgoing b)) true ++ "]".

(** [for (i ...) ss << "\t" << i << ": " << items[i] << "\n";] *)
Fixpoint print_lines (i : nat) (items : list string) : string :=
  match items with
  | [] => EmptyString
  | item :: rest =>
      tab ++ pretty i ++ ": " ++ item ++ newline ++ print_lines (S i) rest
  end.

(** [ProblemState::to_string] prints the jigs and the belugas, and
    nothing else. *)
Definition to_string (s : ProblemState) : string :=
  "jigs:" ++ newline ++ print_lines 0 (map Jig_to_string (jigs s))
  ++ "belugas:" ++ newline ++ print_lines 0 (map Beluga_to_string (belugas s)).

(** [ProblemState::operator==] *)
Definition ProblemState_eqb (s other : ProblemState) : bool :=
  String.eqb (to_string s) (to_string other).

(** Scenario A with a second rack, a jig on the beluga trailer and the
    counters of a later snapshot. *)
Definition scenario_A_other : ProblemState :=
  {| jigs := [mkJig typeA false]; belugas := [Beluga.mk [0] []];
     trailers_beluga := [0]; trailers_factory := [-1];
     racks := [Rack.mk 10 []; Rack.mk 20 []];
     production_lines := []; hangars := [-1];
     belugas_unloaded := 1; belugas_finished := 1; production_lines_finished := 1;
     total_lines := 1; total_belugas := 2; problem_solved := true |}.

(** ** The rack of [rack.cpp]

    The second implementation of the rack, in [namespace mcts_fast]; its
    jig ids index the registry directly. *)

Module RackAlt.
Record t := mk {
    size_ : Z;
    current_jigs_ : list Z
  }.

  (** The loop of [Rack::getFreeSpace]: an id outside the registry is
      skipped. *)
Fixpoint total_used_space (all_jigs : list Jig) (ids : list Z) (total : Z) : option Z :=
    match ids with
    | [] => Some total
    | jig_id :: rest =>
        if (0 <=? jig_id) && (jig_id <? Z.of_nat (length all_jigs)) then
          jig ← at_index all_jigs jig_id;
          total_used_space all_jigs rest (total + jig_size jig)
        else total_used_space all_jigs rest total
    end.

Definition getFreeSpace (r : t) (all_jigs : list Jig) : option Z :=
    used ← total_used_space all_jigs (current_jigs_ r) 0;
    Some (size_ r - used).

Definition canFitJig (r : t) (jig : Jig) (all_jigs : list Jig) : option bool :=
    free ← getFreeSpace r all_jigs;
    Some (free >=? jig_size jig).

Definition addJig (r : t) (jig_id : Z) : t := mk (size_ r) (current_jigs_ r ++ [jig_id]).

Definition removeTopJig (r : t) : t :=
    if negb (vec_empty (current_jigs_ r)) then mk (size_ r) (pop_back (current_jigs_ r))
    else r.

Definition getTopJig (r : t) : result Z :=
    match last (current_jigs_ r) with
    | None => throw (runtime_error "Rack is empty, no top jig available")
    | Some jig_id => ret jig_id
    end.
End RackAlt.

(** The number of nodes of the tree that have at least [threshold]
    visits. *)
Definition visited_at_least (root : MCTSNode.t) (threshold : Z) : Z :=
  Z.of_nat (length (List.filter (fun k => MCTSNode.visits k >=? threshold)
                      (tree_nodes root))).

(** A root with three visits over scenario A and its child with one. *)
Definition visited_tree : MCTSNode.t :=
  MCTSNode.mk scenario_A (EmptyString, []) 0
    [MCTSNode.mk scenario_A_unloaded ("unload_beluga"%string, []) 1 [] 1 (F32.of_int 15)]
    3 (F32.of_int 45).

(** A sample taken from a node of the tree below [root] with at least
    [threshold] visits. *)
Definition sample_of (root : MCTSNode.t) (threshold : Z)
    (sample : list spec_float * spec_float) : Prop :=
  exists k,
    k ∈ tree_nodes root
    /\ threshold <= MCTSNode.visits k
    /\ get_observation_high_level (MCTSNode.state k) = Some (fst sample)
    /\ snd sample = MCTS.node_value k.

(** ** The precondition of stacking, as the specification words it *)

(** [left_stack_rack(rack, trailer)]: the beluga trailer holds a jig [j],
    and the free space of the rack, its capacity less the sizes of the
    jigs on it, each looked up by its id, is at least the size of [j]. *)
Definition left_stack_rack_allowed (s : ProblemState) (rack trailer_id : Z) : bool :=
  match at_index (trailers_beluga s) trailer_id, at_index (racks s) rack with
  | Some j, Some r =>
      match at_index (jigs s) j, rack_load (jigs s) r with
      | Some jig, Some used => jig_size jig <=? Rack.size r - used
      | _, _ => false
      end
  | _, _ => false
  end.

(** A rack of capacity 36 that holds the second jig, of size 4, while the
    beluga trailer holds the third, of size 11; the first jig has size
    32. *)
Definition roomy_state : ProblemState :=
  new_ProblemState [mkJig typeE false; mkJig typeA false; mkJig typeB false] []
    [2] [-1] [Rack.mk 36 [1]] [] [-1].

(** ** The preconditions of the other actions, as the specification words
    them *)

(** A slot holds a jig [j]: its value is the id of a jig of the
    registry. *)
Definition holds_jig (s : ProblemState) (slot : option Z) : option (Z * Jig) :=
  j ← slot;
  if j =? -1 then None else jig ← at_index (jigs s) j; Some (j, jig).

Definition slot_is_empty (slot : option Z) : bool :=
  match slot with
  | Some j => j =? -1
  | None => false
  end.

(** [B.current_jigs] non-empty; at least one beluga trailer is empty. *)
Definition unload_beluga_allowed (s : ProblemState) : bool :=
  match belugas s with
  | B :: _ =>
      negb (vec_empty (Beluga.current_jigs B))
      && existsb (fun v => v =? -1) (trailers_beluga s)
  | [] => false
  end.

(** The slot holds a jig [j]; [jigs[j].empty]; [B.outgoing] non-empty;
    [B.current_jigs] empty; [jigs[j].jig_type == B.outgoing[0]]. *)
Definition load_beluga_allowed (s : ProblemState) (trailer_beluga : Z) : bool :=
  match holds_jig s (at_index (trailers_beluga s) trailer_beluga), belugas s with
  | Some (_, jig), B :: _ =>
      empty jig && vec_empty (Beluga.current_jigs B)
      && match Beluga.outgoing B with
         | first :: _ => JigType_eqb (jig_type jig) first
         | [] => false
         end
  | _, _ => false
  end.

(** [hangars[hangar]] holds a jig [j]; the factory trailer is empty;
    [jigs[j].empty]. *)
Definition get_from_hangar_allowed (s : ProblemState) (hangar trailer_factory : Z)
  : bool :=
  slot_is_empty (at_index (trailers_factory s) trailer_factory)
  && match holds_jig s (at_index (hangars s) hangar) with
     | Some (_, jig) => empty jig
     | None => false
     end.

(** The hangar is empty; the factory trailer holds a jig [j] that is not
    empty; the first scheduled jig of some production line is [j]. *)
Definition deliver_to_hangar_allowed (s : ProblemState) (hangar trailer_factory : Z)
  : bool :=
  slot_is_empty (at_index (hangars s) hangar)
  && match holds_jig s (at_index (trailers_factory s) trailer_factory) with
     | Some (j, jig) =>
         negb (empty jig)
         && existsb (fun line => match ProductionLine.scheduled_jigs line with
                                 | first :: _ => first =? j
                                 | [] => false
                                 end) (production_lines s)
     | None => false
     end.

(** The trailer is empty; the rack is not. *)
Definition left_unstack_rack_allowed (s : ProblemState) (rack trailer_id : Z) : bool :=
  slot_is_empty (at_index (trailers_beluga s) trailer_id)
  && match at_index (racks s) rack with
     | Some r => negb (vec_empty (Rack.current_jigs r))
     | None => false
     end.

Definition right_unstack_rack_allowed (s : ProblemState) (rack trailer_id : Z) : bool :=
  slot_is_empty (at_index (trailers_factory s) trailer_id)
  && match at_index (racks s) rack with
     | Some r => negb (vec_empty (Rack.current_jigs r))
     | None => false
     end.

(** * Properties *)

(** ** Vectors *)

Lemma is_valid_index_spec {T} (index : Z) (vec : list T) :
  is_valid_index index vec = true <-> 0 <= index < Z.of_nat (length vec).
Proof. unfold is_valid_index. rewrite andb_true_iff, Z.leb_le, Z.ltb_lt. tauto. Qed.

Lemma at_index_is_Some {T} (index : Z) (vec : list T) :
  is_valid_index index vec = true -> is_Some (at_index vec index).
Proof.
  intros Hv. unfold at_index. rewrite Hv.
  apply lookup_lt_is_Some. apply is_valid_index_spec in Hv. lia.
Qed.

Lemma at_index_Some_valid {T} (index : Z) (vec : list T) (x : T) :
  at_index vec index = Some x ->
  is_valid_index index vec = true /\ vec !! Z.to_nat index = Some x.
Proof. unfold at_index. destruct (is_valid_index index vec); [auto | discriminate]. Qed.

Lemma at_index_zero {T} (vec : list T) : at_index vec 0 = head vec.
Proof. destruct vec; reflexivity. Qed.

Lemma vec_empty_true {T} (vec : list T) : vec_empty vec = true <-> vec = [].
Proof. destruct vec; simpl; split; congruence. Qed.

Lemma vec_empty_false {T} (vec : list T) : vec_empty vec = false <-> vec <> [].
Proof. destruct vec; simpl; split; congruence. Qed.

(** ** A refused action leaves the snapshot as it was *)

Ltac refused :=
  repeat match goal with
         | |- context [match ?x with _ => _ end] => destruct x eqn:?; simpl
         end;
  intros; simplify_eq; reflexivity.

Lemma load_beluga_refused s t n s' :
  Action.load_beluga s t n = Some (false, s') -> s' = s.
Proof. unfold Action.load_beluga, mbind, option_bind. refused. Qed.

Lemma unload_beluga_refused s s' :
  Action.unload_beluga s = Some (false, s') -> s' = s.
Proof. unfold Action.unload_beluga, mbind, option_bind. refused. Qed.

Lemma get_from_hangar_refused s h t s' :
  Action.get_from_hangar s h t = Some (false, s') -> s' = s.
Proof. unfold Action.get_from_hangar, mbind, option_bind. refused. Qed.

Lemma deliver_to_hangar_refused s h t s' :
  Action.deliver_to_hangar s h t = Some (false, s') -> s' = s.
Proof. unfold Action.deliver_to_hangar, mbind, option_bind. refused. Qed.

Lemma left_stack_rack_refused s r t s' :
  Action.left_stack_rack s r t = Some (false, s') -> s' = s.
Proof. unfold Action.left_stack_rack, mbind, option_bind. refused. Qed.

Lemma right_stack_rack_refused s r t s' :
  Action.right_stack_rack s r t = Some (false, s') -> s' = s.
Proof. unfold Action.right_stack_rack, mbind, option_bind. refused. Qed.

Lemma left_unstack_rack_refused s r t s' :
  Action.left_unstack_rack s r t = Some (false, s') -> s' = s.
Proof. unfold Action.left_unstack_rack, mbind, option_bind. refused. Qed.

Lemma right_unstack_rack_refused s r t s' :
  Action.right_unstack_rack s r t = Some (false, s') -> s' = s.
Proof. unfold Action.right_unstack_rack, mbind, option_bind. refused. Qed.

Lemma apply_action_refused s action_name params s' :
  apply_action s action_name params = Some (false, s') -> s' = s.
Proof.
  unfold apply_action, mbind, option_bind.
  repeat match goal with
         | |- context [match ?x with _ => _ end] => destruct x eqn:?; simpl
         end;
  intros; simplify_eq;
  eauto using load_beluga_refused, unload_beluga_refused, get_from_hangar_refused,
    deliver_to_hangar_refused, left_stack_rack_refused, right_stack_rack_refused,
    left_unstack_rack_refused, right_unstack_rack_refused.
Qed.

(** ** [unload_beluga] *)

Lemma find_first_spec {T} (p : T -> bool) (vec : list T) (i0 : Z) :
  0 <= i0 ->
  (find_first p vec i0 = -1 /\ Forall (fun x => p x = false) vec)
  \/ (exists (k : nat) (x : T),
        find_first p vec i0 = i0 + Z.of_nat k /\ vec !! k = Some x /\ p x = true
        /\ forall (k' : nat) (y : T), (k' < k)%nat -> vec !! k' = Some y -> p y = false).
Proof.
  revert i0. induction vec as [| a vec IH]; intros i0 Hi0; simpl.
  - left. split; [reflexivity | constructor].
  - destruct (p a) eqn:Hpa.
    + right. exists 0%nat, a. repeat split; [lia | assumption | intros; lia].
    + destruct (IH (i0 + 1)) as [[He Hall] | (k & x & He & Hk & Hpx & Hmin)]; [lia | |].
      * left. split; [assumption | constructor; assumption].
      * right. exists (S k), x. repeat split; [lia | assumption | assumption |].
        intros [| k'] y Hlt Hy; simpl in Hy; [congruence | eapply Hmin; [| eassumption]; lia].
Qed.

Lemma assign_nat {T} (vec : list T) (k : nat) (v : T) :
  (k < length vec)%nat -> assign vec (Z.of_nat k) v = <[k := v]> vec.
Proof.
  intros Hk. unfold assign.
  replace (is_valid_index (Z.of_nat k) vec) with true
    by (symmetry; apply is_valid_index_spec; lia).
  rewrite Nat2Z.id. reflexivity.
Qed.

(** C7. [unload_beluga] succeeds exactly when there is an active beluga
    with cargo and some beluga trailer is empty.  On success the last
    element of the cargo goes to the first empty trailer, counting from
    slot 0; [belugas_unloaded] grows by one exactly when the cargo is
    thereby used up; and the beluga leaves the sequence when, in
    addition, nothing is outgoing.  Nothing else moves. *)
Theorem unload_beluga_spec :
  forall s : ProblemState,
  exists (b : bool) (s' : ProblemState),
    Action.unload_beluga s = Some (b, s')
    /\ (b = true <->
        exists beluga rest, belugas s = beluga :: rest
          /\ Beluga.current_jigs beluga <> [] /\ -1 ∈ trailers_beluga s)
    /\ (b = true ->
        exists beluga rest front j (slot : nat),
          belugas s = beluga :: rest
          /\ Beluga.current_jigs beluga = front ++ [j]
          /\ trailers_beluga s !! slot = Some (-1)
          /\ (forall k : nat, (k < slot)%nat -> trailers_beluga s !! k <> Some (-1))
          /\ trailers_beluga s' = <[slot := j]> (trailers_beluga s)
          /\ belugas_unloaded s' =
               belugas_unloaded s + (if vec_empty front then 1 else 0)
          /\ belugas s' =
               (if vec_empty front && vec_empty (Beluga.outgoing beluga)
                then rest
                else Beluga.mk front (Beluga.outgoing beluga) :: rest)
          /\ jigs s' = jigs s /\ trailers_factory s' = trailers_factory s
          /\ racks s' = racks s /\ production_lines s' = production_lines s
          /\ hangars s' = hangars s).
Proof.
  intros s. unfold Action.unload_beluga.
  destruct (find_first_spec (fun v => v =? -1) (trailers_beluga s) 0 ltac:(lia))
    as [[He Hall] | (slot & x & He & Hslot & Hx & Hmin)].
  - (* no empty trailer *)
    rewrite He. simpl. exists false, s. split; [reflexivity |]. split.
    + split; [discriminate |]. intros (beluga & rest & _ & _ & Hin).
      rewrite Forall_forall in Hall. apply Hall in Hin. discriminate.
    + discriminate.
  - apply Z.eqb_eq in Hx. subst x.
    rewrite He. replace (0 + Z.of_nat slot =? -1) with false by (symmetry; apply Z.eqb_neq; lia).
    assert (Hin : -1 ∈ trailers_beluga s) by (eapply list_elem_of_lookup_2; eassumption).
    destruct (belugas s) as [| beluga rest] eqn:Hb; simpl.
    + exists false, s. split; [reflexivity |]. split; [| discriminate].
      split; [discriminate |]. intros (? & ? & ? & _). discriminate.
    + destruct (vec_empty (Beluga.current_jigs beluga)) eqn:Hemp.
      * exists false, s. split; [reflexivity |]. split; [| discriminate].
        split; [discriminate |]. intros (? & ? & Heq & Hne & _).
        injection Heq as <- <-. apply vec_empty_true in Hemp. congruence.
      * apply vec_empty_false in Hemp.
        destruct (exists_last Hemp) as (front & j & Hfj).
        rewrite Hfj, last_snoc. simpl. unfold pop_back. rewrite removelast_last.
        assert (Hlt : (slot < length (trailers_beluga s))%nat)
          by (eapply lookup_lt_Some; eassumption).
        assert (Hmin' : forall k : nat, (k < slot)%nat -> trailers_beluga s !! k <> Some (-1)).
        { intros k Hk Hl. specialize (Hmin k (-1) Hk Hl). discriminate. }
        assert (Hpre : exists beluga0 rest0, beluga :: rest = beluga0 :: rest0
                  /\ Beluga.current_jigs beluga0 <> [] /\ -1 ∈ trailers_beluga s).
        { exists beluga, rest. rewrite Hfj. repeat split; [| assumption]. intros Hn.
          apply app_eq_nil in Hn. destruct Hn; discriminate. }
        destruct (vec_empty front) eqn:Hfront;
          [destruct (vec_empty (Beluga.outgoing beluga)) eqn:Hout |];
          (eexists true, _; split; [reflexivity |]; split; [tauto |]);
          intros _; exists beluga, rest, front, j, slot;
          (split; [reflexivity |]); (split; [assumption |]);
          (split; [assumption |]); (split; [assumption |]);
          unfold beluga_complete, set_beluga, set_trailer_beluga; simpl;
          rewrite ?Hb; simpl; rewrite ?Hfront, ?Hout; simpl;
          rewrite Z.add_0_l, assign_nat by assumption;
          repeat split; try reflexivity; lia.
Qed.

(** ** Finished belugas *)

Ltac same_belugas :=
  repeat match goal with
         | |- context [match ?x with _ => _ end] => destruct x eqn:?; simpl
         end;
  intros; simplify_eq; reflexivity.

Lemma get_from_hangar_belugas s h t b s' :
  Action.get_from_hangar s h t = Some (b, s') -> belugas s' = belugas s.
Proof. unfold Action.get_from_hangar, mbind, option_bind. same_belugas. Qed.

Lemma deliver_to_hangar_belugas s h t b s' :
  Action.deliver_to_hangar s h t = Some (b, s') -> belugas s' = belugas s.
Proof. unfold Action.deliver_to_hangar, mbind, option_bind. same_belugas. Qed.

Lemma left_stack_rack_belugas s r t b s' :
  Action.left_stack_rack s r t = Some (b, s') -> belugas s' = belugas s.
Proof. unfold Action.left_stack_rack, mbind, option_bind. same_belugas. Qed.

Lemma right_stack_rack_belugas s r t b s' :
  Action.right_stack_rack s r t = Some (b, s') -> belugas s' = belugas s.
Proof. unfold Action.right_stack_rack, mbind, option_bind. same_belugas. Qed.

Lemma left_unstack_rack_belugas s r t b s' :
  Action.left_unstack_rack s r t = Some (b, s') -> belugas s' = belugas s.
Proof. unfold Action.left_unstack_rack, mbind, option_bind. same_belugas. Qed.

Lemma right_unstack_rack_belugas s r t b s' :
  Action.right_unstack_rack s r t = Some (b, s') -> belugas s' = belugas s.
Proof. unfold Action.right_unstack_rack, mbind, option_bind. same_belugas. Qed.

Lemma unload_beluga_no_finished s b s' :
  no_finished_beluga s -> Action.unload_beluga s = Some (b, s') ->
  no_finished_beluga s'.
Proof.
  unfold no_finished_beluga, Action.unload_beluga. intros Hinv.
  destruct (_ || _); [intros [= <- <-]; assumption |].
  rewrite at_index_zero.
  destruct (belugas s) as [| beluga rest] eqn:Hb; simpl; [discriminate |].
  destruct (vec_empty (Beluga.current_jigs beluga)); [intros [= <- <-]; congruence |].
  destruct (last (Beluga.current_jigs beluga)) as [j |]; simpl; [| discriminate].
  inversion Hinv as [| ? ? Hhead Hrest]; subst.
  destruct (vec_empty (pop_back (Beluga.current_jigs beluga))) eqn:Hp;
    [destruct (vec_empty (Beluga.outgoing beluga)) eqn:Ho |];
    intros [= <- <-];
    unfold beluga_complete, set_beluga, set_trailer_beluga; simpl;
    rewrite ?Hb; simpl; rewrite ?Hp, ?Ho; simpl;
    try assumption;
    constructor; try assumption; unfold beluga_finished; simpl;
    rewrite ?Hp, ?Ho; reflexivity.
Qed.

Lemma load_beluga_no_finished s t n b s' :
  no_finished_beluga s -> Action.load_beluga s t n = Some (b, s') ->
  no_finished_beluga s'.
Proof.
  unfold no_finished_beluga, Action.load_beluga, mbind, option_bind. intros Hinv.
  destruct (negb _); [intros [= <- <-]; assumption |].
  destruct (at_index (trailers_beluga s) t) as [jig_id |]; [| discriminate].
  destruct (jig_id =? -1); [intros [= <- <-]; assumption |].
  destruct (negb _); [intros [= <- <-]; assumption |].
  destruct (belugas s) as [| beluga rest] eqn:Hb; [intros [= <- <-]; congruence |].
  destruct (at_index (jigs s) jig_id) as [jig |]; [| discriminate].
  destruct (_ || vec_empty (Beluga.outgoing beluga) || _) eqn:Hc;
    [intros [= <- <-]; congruence |].
  apply orb_false_elim in Hc as [Hc _]. apply orb_false_elim in Hc as [_ Hout].
  destruct (at_index (Beluga.outgoing beluga) 0) as [o |]; [| discriminate].
  destruct (negb _); [intros [= <- <-]; congruence |].
  inversion Hinv as [| ? ? Hhead Hrest]; subst.
  destruct (Z.of_nat (length (Beluga.outgoing beluga)) =? 1) eqn:Hlen;
    intros [= <- <-];
    unfold beluga_complete, set_beluga, set_trailer_beluga; simpl;
    rewrite ?Hb; simpl.
  - destruct (vec_empty (tail (Beluga.outgoing beluga))) eqn:Ht;
      destruct (vec_empty (Beluga.current_jigs beluga)) eqn:Hcur; simpl;
      try assumption;
      (constructor; [| assumption]); unfold beluga_finished; simpl;
      rewrite Ht, Hcur; reflexivity.
  - constructor; [| assumption]. unfold beluga_finished. simpl.
    apply Z.eqb_neq in Hlen.
    destruct (Beluga.outgoing beluga) as [| o1 [| o2 os]];
      simpl in *; try discriminate; try lia; apply andb_false_r.
Qed.

Lemma apply_action_no_finished s action_name params b s' :
  no_finished_beluga s -> apply_action s action_name params = Some (b, s') ->
  no_finished_beluga s'.
Proof.
  intros Hinv. unfold apply_action, mbind, option_bind.
  repeat match goal with
         | |- context [match ?x with _ => _ end] => destruct x eqn:?; simpl
         end;
  intros H; simplify_eq; try assumption;
  first
    [ eapply load_beluga_no_finished; eassumption
    | eapply unload_beluga_no_finished; eassumption
    | unfold no_finished_beluga;
      erewrite
        ?get_from_hangar_belugas, ?deliver_to_hangar_belugas,
        ?left_stack_rack_belugas, ?right_stack_rack_belugas,
        ?left_unstack_rack_belugas, ?right_unstack_rack_belugas by eassumption;
      assumption ].
Qed.

Lemma load_beluga_finished_head s t n beluga rest :
  belugas s = beluga :: rest -> beluga_finished beluga = true ->
  Action.load_beluga s t n = Some (false, s).
Proof.
  intros Hb Hfin. unfold beluga_finished in Hfin.
  apply andb_true_iff in Hfin as [_ Hout].
  unfold Action.load_beluga, mbind, option_bind. rewrite Hb.
  destruct (is_valid_index t (trailers_beluga s)) eqn:Ht; [| reflexivity].
  destruct (at_index_is_Some _ _ Ht) as [jig_id ->]. simpl.
  destruct (jig_id =? -1); [reflexivity |].
  destruct (is_valid_index jig_id (jigs s)) eqn:Hj; [| reflexivity].
  destruct (at_index_is_Some _ _ Hj) as [jig ->]. simpl.
  rewrite Hout, orb_true_r. reflexivity.
Qed.

Lemma unload_beluga_finished_head s beluga rest :
  belugas s = beluga :: rest -> beluga_finished beluga = true ->
  Action.unload_beluga s = Some (false, s).
Proof.
  intros Hb Hfin. unfold beluga_finished in Hfin.
  apply andb_true_iff in Hfin as [Hcur _].
  unfold Action.unload_beluga, mbind, option_bind. rewrite Hb.
  destruct (_ || _); [reflexivity |].
  rewrite at_index_zero. simpl. rewrite Hcur. reflexivity.
Qed.

Lemma apply_action_finished_head s action_name params b s' beluga rest :
  belugas s = beluga :: rest -> beluga_finished beluga = true ->
  apply_action s action_name params = Some (b, s') -> belugas s' = belugas s.
Proof.
  intros Hb Hfin. unfold apply_action, mbind, option_bind.
  repeat match goal with
         | |- context [match ?x with _ => _ end] => destruct x eqn:?; simpl
         end;
  intros H; simplify_eq; try reflexivity;
  first
    [ erewrite load_beluga_finished_head in H by eassumption;
      injection H as <- <-; reflexivity
    | erewrite unload_beluga_finished_head in H by eassumption;
      injection H as <- <-; reflexivity
    | eauto using get_from_hangar_belugas, deliver_to_hangar_belugas,
        left_stack_rack_belugas, right_stack_rack_belugas,
        left_unstack_rack_belugas, right_unstack_rack_belugas ].
Qed.

Lemma apply_action_finished_head_refuses s params beluga rest :
  belugas s = beluga :: rest -> beluga_finished beluga = true ->
  apply_action s "load_beluga" params = Some (false, s)
  /\ apply_action s "unload_beluga" params = Some (false, s).
Proof.
  intros Hb Hfin. unfold apply_action, mbind, option_bind.
  cbn [first_char Ascii.eqb Bool.eqb String.eqb andb].
  split; [| eapply unload_beluga_finished_head; eassumption].
  destruct (1 <=? Z.of_nat (length params)) eqn:Hone; [| reflexivity].
  apply Z.leb_le in Hone.
  destruct (at_index_is_Some 0 params) as [p0 ->]; [apply is_valid_index_spec; lia |].
  destruct (1 <? Z.of_nat (length params)) eqn:Htwo.
  - apply Z.ltb_lt in Htwo.
    destruct (at_index_is_Some 1 params) as [p1 ->]; [apply is_valid_index_spec; lia |].
    eapply load_beluga_finished_head; eassumption.
  - eapply load_beluga_finished_head; eassumption.
Qed.

(** C5, as the code has it.  If no beluga of the snapshot is finished
    (empty cargo and nothing outgoing), then after every action that
    returns, whatever its name, its parameters and its flag, no beluga is
    finished; in particular a beluga at index 0 is not.  A finished beluga
    that is at index 0, as the loader can leave one, is never removed:
    every action that returns leaves the belugas as they are,
    [load_beluga] and [unload_beluga] are refused, and so the same
    belugas are there in every snapshot reached. *)
Theorem no_finished_beluga_preserved :
  (forall s action_name params b s',
     no_finished_beluga s ->
     apply_action s action_name params = Some (b, s') ->
     no_finished_beluga s'
     /\ forall beluga rest, belugas s' = beluga :: rest ->
          ~ (Beluga.current_jigs beluga = [] /\ Beluga.outgoing beluga = []))
  /\ (forall s beluga rest,
        belugas s = beluga :: rest ->
        Beluga.current_jigs beluga = [] ->
        Beluga.outgoing beluga = [] ->
        (forall action_name params b s',
           apply_action s action_name params = Some (b, s') ->
           belugas s' = belugas s)
        /\ (forall params, apply_action s "load_beluga" params = Some (false, s))
        /\ (forall params, apply_action s "unload_beluga" params = Some (false, s))
        /\ (forall s', reachable s s' -> belugas s' = belugas s)).
Proof.
  split.
  - intros s action_name params b s' Hinv Happly.
    assert (Hinv' : no_finished_beluga s')
      by (eapply apply_action_no_finished; eassumption).
    split; [exact Hinv' |].
    intros beluga rest Hb [Hc Ho]. unfold no_finished_beluga in Hinv'.
    rewrite Hb in Hinv'. inversion Hinv' as [| ? ? Hhead _]; subst.
    unfold beluga_finished in Hhead. rewrite Hc, Ho in Hhead. discriminate.
  - intros s beluga rest Hb Hc Ho.
    assert (Hfin : beluga_finished beluga = true)
      by (unfold beluga_finished; rewrite Hc, Ho; reflexivity).
    split; [| split; [| split]].
    + intros action_name params b s'. eapply apply_action_finished_head; eassumption.
    + intros params.
      apply (apply_action_finished_head_refuses s params beluga rest Hb Hfin).
    + intros params.
      apply (apply_action_finished_head_refuses s params beluga rest Hb Hfin).
    + intros s' Hreach.
      induction Hreach as [| s1 action_name params b s2 _ IH Hstep]; [reflexivity |].
      rewrite <- IH.
      eapply apply_action_finished_head; [rewrite IH; exact Hb | exact Hfin | exact Hstep].
Qed.

(** C5 fails as stated: the loader accepts a flight with no cargo and
    nothing outgoing, and an action that does not touch the belugas
    returns with that beluga still at index 0. *)
Lemma finished_beluga_stays_at_index_0 :
  load_from_json "idle.json" (Some idle_flight_scenario) = inr idle_flight_state
  /\ apply_action idle_flight_state "get_from_hangar" [0; 0]
     = Some (false, idle_flight_state)
  /\ belugas idle_flight_state = [Beluga.mk [] []].
Proof. repeat split. Qed.

(** The beluga at index 0 alone does not decide: behind a beluga with
    cargo, a finished one comes to index 0 when the first is unloaded. *)
Lemma finished_beluga_moves_to_index_0 :
  fmap (fun r => belugas (snd r)) (apply_action idle_second_state "unload_beluga" [])
  = Some [Beluga.mk [] []].
Proof. reflexivity. Qed.

Lemma no_finished_beluga_preserved_witness :
  no_finished_beluga cargo_state
  /\ (no_finished_beluga
         (with_belugas (with_trailers_beluga cargo_state [1]) [Beluga.mk [0] []])
      /\ forall beluga rest,
           belugas (with_belugas (with_trailers_beluga cargo_state [1]) [Beluga.mk [0] []])
             = beluga :: rest ->
           ~ (Beluga.current_jigs beluga = [] /\ Beluga.outgoing beluga = []))
  /\ (forall action_name params b s',
        apply_action idle_flight_state action_name params = Some (b, s') ->
        belugas s' = belugas idle_flight_state)
  /\ (forall params,
        apply_action idle_flight_state "load_beluga" params
        = Some (false, idle_flight_state))
  /\ (forall params,
        apply_action idle_flight_state "unload_beluga" params
        = Some (false, idle_flight_state))
  /\ (forall s', reachable idle_flight_state s' ->
                 belugas s' = belugas idle_flight_state).
Proof.
  assert (H0 : no_finished_beluga cargo_state) by (repeat constructor).
  split; [exact H0 |]. split.
  - apply (proj1 no_finished_beluga_preserved cargo_state "unload_beluga" [] true _ H0).
    reflexivity.
  - apply (proj2 no_finished_beluga_preserved idle_flight_state (Beluga.mk [] []) []);
      reflexivity.
Defined.

(** ** Enumeration of the legal actions *)

Lemma enumerate_valid_params_load_beluga s :
  enumerate_valid_params s "load_beluga" = Some [].
Proof. reflexivity. Qed.

Lemma tagged_other_name (action other : string) (params : list Z)
    (found : list (list Z)) :
  action <> other ->
  (other, params) ∉ map (fun param => (action, param)) found.
Proof.
  intros Hne Hin. apply list_elem_of_In, in_map_iff in Hin.
  destruct Hin as (param & Heq & _). congruence.
Qed.

(** On no snapshot does [get_possible_actions] list a [load_beluga]. *)
Lemma possible_actions_never_load_beluga s possible_actions params :
  get_possible_actions s = Some possible_actions ->
  ("load_beluga"%string, params) ∉ possible_actions.
Proof.
  unfold get_possible_actions, param_actions.
  cbn [for_each mbind option_bind].
  rewrite enumerate_valid_params_load_beluga. cbn [for_each mbind option_bind map].
  destruct (check_action_valid s "unload_beluga" []) as [valid |]; [| discriminate].
  repeat match goal with
         | |- context [enumerate_valid_params s ?a] =>
             destruct (enumerate_valid_params s a); [| discriminate]
         end.
  intros [= <-]. rewrite app_nil_r, !elem_of_app.
  intros Hin.
  repeat match goal with
         | H : _ \/ _ |- _ => destruct H as [H | H]
         end;
    try (revert Hin; apply tagged_other_name; discriminate).
  destruct valid; [| inversion Hin].
  apply list_elem_of_singleton in Hin. discriminate.
Qed.

(** C1, where the code departs from it.  At scenario B [load_beluga]
    with trailer 0 is valid and [get_possible_actions] returns no action
    at all; and on no snapshot does the list of [get_possible_actions]
    hold a [load_beluga], whatever its parameters. *)
Theorem possible_actions_miss_load_beluga :
  check_action_valid scenario_B "load_beluga" [0] = Some true
  /\ get_possible_actions scenario_B = Some []
  /\ (forall s possible_actions params,
        get_possible_actions s = Some possible_actions ->
        ("load_beluga"%string, params) ∉ possible_actions).
Proof.
  split; [reflexivity |]. split; [reflexivity |].
  apply possible_actions_never_load_beluga.
Qed.

(** ** Rack capacity *)

(** C2, on a loaded scenario: the racks start within their capacity; the
    beluga is unloaded and its jig, of size 32, is stacked on the rack of
    capacity 36 that holds a jig of size 32 already.  [get_free_space]
    looks [jig2] up at the index of [jig1], of size 4, and reports 32 free
    units. *)
Theorem stacking_exceeds_capacity :
  load_from_json "crowded.json" (Some crowded_scenario) = inr crowded_state
  /\ racks_within_capacity crowded_state = true
  /\ apply_action crowded_state "unload_beluga" [] = Some (true, crowded_unloaded)
  /\ Rack.get_free_space (Rack.mk 36 [1]) crowded_jigs = Some 32
  /\ apply_action crowded_unloaded "left_stack_rack" [0; 0]
     = Some (true, crowded_stacked)
  /\ rack_load crowded_jigs (Rack.mk 36 [2; 1]) = Some 64
  /\ racks_within_capacity crowded_stacked = false.
Proof. repeat split. Qed.

(** ** Selection of the best child *)

Lemma SFltb_infinity_l (y : spec_float) : SFltb (S754_infinity false) y = false.
Proof. destruct y as [[] | [] | | [] ? ?]; reflexivity. Qed.

Lemma SFltb_infinity_r (x : spec_float) :
  x <> S754_nan -> x <> S754_infinity false -> SFltb x (S754_infinity false) = true.
Proof. destruct x as [[] | [] | | [] ? ?]; intros; try reflexivity; congruence. Qed.

Lemma SFltb_true_not_nan (x y : spec_float) : SFltb x y = true -> y <> S754_nan.
Proof.
  intros H ->. unfold SFltb in H.
  destruct x as [[] | [] | | [] ? ?]; discriminate.
Qed.

Lemma best_child_loop_saturated score_of kids best :
  MCTSNode.best_child_loop score_of kids (S754_infinity false) best = best.
Proof.
  revert best. induction kids as [| k kids IH]; intros best; simpl; [reflexivity |].
  rewrite SFltb_infinity_l. apply IH.
Qed.

Lemma best_child_loop_first_infinite score_of before c after :
  score_of c = S754_infinity false ->
  Forall (fun k => score_of k <> S754_infinity false) before ->
  forall best_score best,
    best_score <> S754_nan -> best_score <> S754_infinity false ->
    MCTSNode.best_child_loop score_of (before ++ c :: after) best_score best = Some c.
Proof.
  intros Hc Hbefore. induction Hbefore as [| k before Hk _ IH];
    intros best_score best Hnan Hinf; simpl.
  - rewrite Hc, SFltb_infinity_r by assumption. apply best_child_loop_saturated.
  - destruct (SFltb best_score (score_of k)) eqn:Hlt.
    + apply IH; [eapply SFltb_true_not_nan; eassumption | assumption].
    + apply IH; assumption.
Qed.

(** C3, as the code has it.  Let [c] be a child with no visits, and let no
    child before [c] have the score plus infinity (so that every child
    before [c] has visits, and [c] is the first unvisited child).  Then
    [best_child] returns [c], for every exploration weight and zero in
    particular, whether or not visited children exist. *)
Theorem best_child_first_unvisited :
  forall (log : spec_float -> spec_float) (n : MCTSNode.t) (w : spec_float)
         (before : list MCTSNode.t) (c : MCTSNode.t) (after : list MCTSNode.t),
    MCTSNode.children n = before ++ c :: after ->
    MCTSNode.visits c = 0 ->
    Forall (fun k => MCTSNode.uct_score log n w k <> F32.infinity) before ->
    MCTSNode.best_child log n w = Some c.
Proof.
  intros log n w before c after Hkids Hc Hbefore.
  unfold MCTSNode.best_child.
  replace (vec_empty (MCTSNode.children n)) with false
    by (rewrite Hkids; destruct before; reflexivity).
  rewrite Hkids.
  apply best_child_loop_first_infinite; try assumption; try discriminate.
  unfold MCTSNode.uct_score. rewrite Hc. reflexivity.
Qed.

Lemma best_child_first_unvisited_witness :
  MCTSNode.best_child log_at_one uct_example F32.zero = Some unvisited_child.
Proof.
  apply (best_child_first_unvisited log_at_one uct_example F32.zero
           [visited_child] unvisited_child []); [reflexivity | reflexivity |].
  repeat constructor. vm_compute. discriminate.
Defined.

(** The same for [bestChild] of [mcts_node.cpp]. *)
Lemma bestChild_first_unvisited :
  forall (log : spec_float -> spec_float) (n : MCTSNode.t) (w : spec_float)
         (before : list MCTSNode.t) (c : MCTSNode.t) (after : list MCTSNode.t),
    MCTSNode.children n = before ++ c :: after ->
    MCTSNode.visits c = 0 ->
    Forall (fun k => MCTSNode.uct_score_double log n w k <> S754_infinity false)
      before ->
    MCTSNode.bestChild log n w = Some c.
Proof.
  intros log n w before c after Hkids Hc Hbefore.
  unfold MCTSNode.bestChild.
  replace (vec_empty (MCTSNode.children n)) with false
    by (rewrite Hkids; destruct before; reflexivity).
  rewrite Hkids.
  apply best_child_loop_first_infinite; try assumption; try discriminate.
  unfold MCTSNode.uct_score_double. rewrite Hc. reflexivity.
Qed.

(** C3 fails as stated: the root below has a child with one visit and a
    child with none, and with exploration weight 0 both selection
    functions return the child without visits. *)
Lemma best_child_zero_returns_unvisited :
  MCTSNode.children uct_example = [visited_child; unvisited_child]
  /\ MCTSNode.visits visited_child = 1
  /\ MCTSNode.visits unvisited_child = 0
  /\ MCTSNode.best_child log_at_one uct_example F32.zero = Some unvisited_child
  /\ MCTSNode.bestChild log_at_one uct_example_double (S754_zero false)
     = Some unvisited_child.
Proof. repeat split; vm_compute; reflexivity. Qed.

(** ** The loader *)

Lemma collect_inr {A B} (f : A -> result B) (items : list A) (ys : list B) :
  collect f items = inr ys -> Forall (fun x => exists y, f x = inr y) items.
Proof.
  revert ys. induction items as [| x items IH]; intros ys H; [constructor |].
  simpl in H. unfold bind in H.
  destruct (f x) as [e | y] eqn:Hfx; [discriminate |].
  destruct (collect f items) as [e | ys'] eqn:Hrest; [discriminate |].
  constructor; [eauto | eapply IH; reflexivity].
Qed.

Lemma collect_forallb {A B} (f : A -> result B) (ok : A -> bool) (items : list A)
    (ys : list B) :
  (forall x y, f x = inr y -> ok x = true) ->
  collect f items = inr ys -> forallb ok items = true.
Proof.
  intros Hok H. apply collect_inr in H.
  induction H as [| x items [y Hy] _ IH]; simpl; [reflexivity |].
  rewrite (Hok x y Hy), IH. reflexivity.
Qed.

Lemma get_type_from_string_inr type_str ty :
  get_type_from_string type_str = inr ty -> known_type type_str = true.
Proof.
  unfold get_type_from_string, known_type. simpl.
  repeat (destruct (String.eqb type_str _); [reflexivity |]).
  discriminate.
Qed.

(** A reference [jigN] gives the id [N - 1]; for the least [int] the
    subtraction wraps around. *)
Lemma extract_id_from_string_examples :
  extract_id_from_string "jig1" = inr 0
  /\ extract_id_from_string "jig12" = inr 11
  /\ extract_id_from_string "jig0" = inr (-1)
  /\ extract_id_from_string "jig-2147483648" = inr 2147483647
  /\ extract_id_from_string "jig2147483648" = inl (out_of_range "stoi").
Proof. repeat split. Qed.

Lemma extract_id_from_string_inr id_str n :
  extract_id_from_string id_str = inr n -> jig_reference id_str = true.
Proof.
  unfold extract_id_from_string, jig_reference.
  destruct (String.prefix "jig" id_str); [reflexivity | discriminate].
Qed.

Lemma load_from_json_names_ok path data s :
  load_from_json path (Some data) = inr s -> names_ok data = true.
Proof.
  unfold load_from_json, names_ok, bind. intros H.
  destruct (collect _ (sc_jigs data)) as [| js] eqn:Hj; [discriminate |].
  destruct (collect _ (sc_flights data)) as [| bs] eqn:Hf; [discriminate |].
  destruct (collect _ (sc_production_lines data)) as [| ls] eqn:Hl; [discriminate |].
  destruct (collect _ (sc_racks data)) as [| rs] eqn:Hr; [discriminate |].
  repeat (apply andb_true_iff; split).
  - eapply collect_forallb; [| exact Hj]. intros [key val] y Hy. simpl in *.
    unfold bind in Hy.
    destruct (get_type_from_string (entry_type val)) eqn:Ht; [discriminate |].
    eapply get_type_from_string_inr; eassumption.
  - eapply collect_forallb; [| exact Hf]. intros f y Hy. unfold bind in Hy.
    destruct (collect extract_id_from_string _) eqn:Hin; [discriminate |].
    destruct (collect get_type_from_string _) eqn:Hout; [discriminate |].
    apply andb_true_iff; split.
    + eapply collect_forallb; [| exact Hin]. apply extract_id_from_string_inr.
    + eapply collect_forallb; [| exact Hout]. apply get_type_from_string_inr.
  - eapply collect_forallb; [| exact Hl]. intros sch y Hy. unfold bind in Hy.
    destruct (collect extract_id_from_string _) eqn:Hin; [discriminate |].
    eapply collect_forallb; [| exact Hin]. apply extract_id_from_string_inr.
  - eapply collect_forallb; [| exact Hr]. intros r y Hy. unfold bind in Hy.
    destruct (collect extract_id_from_string _) eqn:Hin; [discriminate |].
    eapply collect_forallb; [| exact Hin]. apply extract_id_from_string_inr.
Qed.

(** C4, as the code has it.  Loading ends in an exception, and so returns
    no snapshot, when the file does not open, and whenever the type of a
    jig or an outgoing type is not one of the five canonical names or a
    reference to a jig does not start with [jig].  The capacity of the
    racks plays no part. *)
Theorem load_from_json_rejects_bad_names :
  forall (path : string) (data : Scenario),
    names_ok data = false ->
    (exists e, load_from_json path (Some data) = inl e)
    /\ load_from_json path None
       = inl (runtime_error ("Konnte Datei nicht öffnen: " ++ path)).
Proof.
  intros path data Hbad. split; [| reflexivity].
  destruct (load_from_json path (Some data)) as [e | s] eqn:Hload; [eauto |].
  apply load_from_json_names_ok in Hload. congruence.
Qed.

Lemma load_from_json_rejects_bad_names_witness :
  (exists e, load_from_json "z.json" (Some scenario_unknown_type) = inl e)
  /\ load_from_json "z.json" None
     = inl (runtime_error ("Konnte Datei nicht öffnen: " ++ "z.json")).
Proof.
  apply (load_from_json_rejects_bad_names "z.json" scenario_unknown_type).
  reflexivity.
Defined.

(** C4 fails as stated: scenario C, whose rack of capacity 5 holds a jig
    of size 11, is loaded, and the snapshot has the rack as the file has
    it. *)
Lemma load_from_json_accepts_overfull_rack :
  load_from_json "c.json" (Some scenario_C) = inr scenario_C_state
  /\ rack_load (jigs scenario_C_state) (Rack.mk 5 [0]) = Some 11
  /\ racks_within_capacity scenario_C_state = false.
Proof. repeat split. Qed.

(** ** The reward *)

(** C8. [evaluate] is the sum, in binary32 arithmetic and from left to
    right, of 15 times [belugas_unloaded], 60 times the number of belugas
    gone since the start, 100 times the number of production lines gone
    since the start and 1000 when both sequences are empty, less [mu]
    times the depth.  The two numbers of finished items come from the
    lengths of the sequences: the stored counters and the stored flag
    [problem_solved] are not read.  The default of [mu] is the binary32
    number nearest to 0.05. *)
Theorem evaluate_formula :
  forall (s : ProblemState) (depth : Z) (mu : spec_float),
    evaluate s depth mu =
      F32.sub
        (F32.add
           (F32.add
              (F32.add
                 (F32.add F32.zero
                    (F32.mul (F32.of_int (belugas_unloaded s)) (F32.of_int 15)))
                 (F32.mul (F32.of_int (total_belugas s - Z.of_nat (length (belugas s))))
                    (F32.of_int 60)))
              (F32.mul
                 (F32.of_int (total_lines s - Z.of_nat (length (production_lines s))))
                 (F32.of_int 100)))
           (if vec_empty (belugas s) && vec_empty (production_lines s)
            then F32.of_int 1000 else F32.zero))
        (F32.mul mu (F32.of_int depth))
    /\ (forall (finished lines_finished : Z) (solved : bool),
          evaluate
            (with_problem_solved
               (with_production_lines_finished
                  (with_belugas_finished s finished) lines_finished) solved)
            depth mu
          = evaluate s depth mu)
    /\ mu_default = F32.div (F32.of_int 5) (F32.of_int 100).
Proof.
  intros s depth mu. split; [reflexivity |]. split; [reflexivity |].
  vm_compute. reflexivity.
Qed.

(** The plan of scenario A: the four actions succeed, the problem is
    solved, and the reward at depth 4 is the binary32 number next to
    1174.8. *)
Lemma evaluate_scenario_A_solved :
  apply_action scenario_A "unload_beluga" [] = Some (true, scenario_A_unloaded)
  /\ (s1 ← snd <$> apply_action scenario_A_unloaded "left_stack_rack" [0; 0];
      s2 ← snd <$> apply_action s1 "right_unstack_rack" [0; 0];
      apply_action s2 "deliver_to_hangar" [0; 0]) = Some (true, scenario_A_solved)
  /\ is_terminal scenario_A_solved = true
  /\ evaluate scenario_A_solved 4 mu_default = S754_finite false 9623962 (-13).
Proof. repeat split; vm_compute; reflexivity. Qed.

(** ** The rollout *)

Section RolloutProperties.
Variable RngState : Type.
Variable rng_next : RngState -> Z * RngState.

Lemma playout_snoc n x y z :
  playout RngState rng_next n x y -> playout_step RngState rng_next y z ->
  playout RngState rng_next (S n) x z.
Proof.
  induction 1 as [x | n x y' y Hstep _ IH]; intros Hlast.
  - eapply playout_more; [eassumption | constructor].
  - eapply playout_more; [eassumption | apply IH; assumption].
Qed.

Lemma drawn_index_valid {T} (possible_actions : list T) (drawn : Z) :
  possible_actions <> [] ->
  is_valid_index (drawn mod Z.of_nat (length possible_actions)) possible_actions = true.
Proof.
  intros Hne. apply is_valid_index_spec.
  apply Z.mod_pos_bound. destruct possible_actions; [congruence | simpl; lia].
Qed.

Ltac stop_here :=
  split; [constructor |]; split; [lia |]; split; [lia |]; split; [lia |];
  first [ left; assumption | right; left; lia | right; right; left; lia
        | right; right; right; assumption ].

(** What the loop comes to, started anywhere: it never uses up a budget of
    at least [max_rollout_steps - actions_taken] steps. *)
Lemma rollout_loop_spec fuel depth max_rollout_steps :
  forall state current_depth actions_taken rng,
    max_rollout_steps - actions_taken <= Z.of_nat fuel ->
    match MCTS.rollout_loop RngState rng_next fuel depth max_rollout_steps
            state current_depth actions_taken rng with
    | Returned (state', depth', taken', rng') =>
        exists n : nat,
          playout RngState rng_next n (state, rng) (state', rng')
          /\ depth' = current_depth + Z.of_nat n
          /\ taken' = actions_taken + Z.of_nat n
          /\ taken' <= Z.max actions_taken max_rollout_steps
          /\ (is_terminal state' = true \/ depth <= depth'
              \/ max_rollout_steps <= taken'
              \/ get_possible_actions state' = Some [])
    | OutOfBounds =>
        exists (n : nat) x,
          playout RngState rng_next n (state, rng) x
          /\ playout_stuck RngState rng_next x
    | OutOfFuel => False
    end.
Proof.
  induction fuel as [| fuel IH]; intros state current_depth actions_taken rng Hfuel;
    simpl.
  - destruct (is_terminal state) eqn:Hterm; simpl.
    { exists 0%nat. stop_here. }
    destruct (current_depth <? depth) eqn:Hd; simpl.
    2:{ exists 0%nat. apply Z.ltb_ge in Hd.
        stop_here. }
    destruct (actions_taken <? max_rollout_steps) eqn:Hk; simpl.
    { apply Z.ltb_lt in Hk. lia. }
    exists 0%nat. apply Z.ltb_ge in Hk. stop_here.
  - destruct (is_terminal state) eqn:Hterm; simpl.
    { exists 0%nat. stop_here. }
    destruct (current_depth <? depth) eqn:Hd; simpl.
    2:{ exists 0%nat. apply Z.ltb_ge in Hd.
        stop_here. }
    destruct (actions_taken <? max_rollout_steps) eqn:Hk; simpl.
    2:{ exists 0%nat. apply Z.ltb_ge in Hk.
        stop_here. }
    apply Z.ltb_lt in Hk.
    destruct (get_possible_actions state) as [possible_actions |] eqn:Hposs.
    2:{ exists 0%nat, (state, rng). split; [constructor |].
        split; [assumption | left; assumption]. }
    destruct (vec_empty possible_actions) eqn:Hempty.
    { apply vec_empty_true in Hempty. subst possible_actions.
      exists 0%nat. stop_here. }
    apply vec_empty_false in Hempty.
    destruct (rng_next rng) as [drawn rng1] eqn:Hrng.
    pose proof (drawn_index_valid possible_actions drawn Hempty) as Hvalid.
    unfold at_index. rewrite Hvalid.
    destruct (possible_actions !! _) as [action |] eqn:Haction.
    2:{ apply lookup_ge_None in Haction. apply is_valid_index_spec in Hvalid. lia. }
    destruct (apply_action state (fst action) (snd action)) as [[b state1] |] eqn:Happly.
    2:{ exists 0%nat, (state, rng). split; [constructor |].
        split; [assumption | right]. exists possible_actions, action.
        simpl. rewrite Hrng. simpl. auto. }
    simpl.
    assert (Hstep : playout_step RngState rng_next (state, rng) (state1, rng1))
      by (econstructor; eassumption).
    specialize (IH state1 (current_depth + 1) (actions_taken + 1) rng1 ltac:(lia)).
    destruct (MCTS.rollout_loop _ _ _ _ _ _ _ _ _) as [[[[state' depth'] taken'] rng'] | |].
    + destruct IH as (n & Hplay & Hdepth & Htaken & Hbound & Hstop).
      exists (S n). split; [eapply playout_more; eassumption |].
      repeat split; try lia. assumption.
    + destruct IH as (n & x & Hplay & Hstuck).
      exists (S n), x. split; [eapply playout_more; eassumption | assumption].
    + assumption.
Qed.

(** C9. A rollout from a node at depth [d0] never runs out of steps.  When
    it returns, some number [n] of actions was applied to the copy of the
    node's snapshot, each one drawn from [get_possible_actions] at the
    index the generator gives, from a snapshot that is not terminal; [n]
    is at most [min(50, depth - d0)], or 0 when that is negative; the
    reward is [evaluate] of the last snapshot at depth [d0 + n] with the
    default [mu]; and at the end the snapshot is terminal, or the depth has
    reached [depth], or the step cap is used up, or no action is possible.
    A rollout has no result only when a read leaves a vector on the way.
    When [depth <= d0], and so for [depth = 1] at a node of depth 1, no
    action is applied and the reward is [evaluate] of the snapshot of the
    node. *)
Theorem rollout_single_spec :
  forall (depth : Z) (node : MCTSNode.t) (rng : RngState),
    let d0 := MCTSNode.depth node in
    MCTS.rollout_single RngState rng_next depth node rng <> OutOfFuel
    /\ (forall reward rng',
          MCTS.rollout_single RngState rng_next depth node rng
            = Returned (reward, rng') ->
          exists (n : nat) (final : ProblemState),
            playout RngState rng_next n (MCTSNode.state node, rng) (final, rng')
            /\ Z.of_nat n <= Z.max 0 (Z.min 50 (depth - d0))
            /\ reward = evaluate final (d0 + Z.of_nat n) mu_default
            /\ (is_terminal final = true \/ depth <= d0 + Z.of_nat n
                \/ Z.min 50 (depth - d0) <= Z.of_nat n
                \/ get_possible_actions final = Some []))
    /\ (MCTS.rollout_single RngState rng_next depth node rng = OutOfBounds ->
        exists (n : nat) x,
          playout RngState rng_next n (MCTSNode.state node, rng) x
          /\ playout_stuck RngState rng_next x)
    /\ (depth <= d0 ->
        MCTS.rollout_single RngState rng_next depth node rng
          = Returned (evaluate (MCTSNode.state node) d0 mu_default, rng)).
Proof.
  intros depth node rng d0. unfold MCTS.rollout_single, copy. fold d0.
  pose proof (rollout_loop_spec (Z.to_nat (Z.min 50 (depth - d0))) depth
                (Z.min 50 (depth - d0)) (MCTSNode.state node) d0 0 rng ltac:(lia))
    as Hloop.
  split; [| split; [| split]].
  - destruct (MCTS.rollout_loop _ _ _ _ _ _ _ _ _) as [[[[s' d'] k'] r'] | |];
      [discriminate | discriminate | contradiction].
  - intros reward rng' Hret.
    destruct (MCTS.rollout_loop _ _ _ _ _ _ _ _ _) as [[[[s' d'] k'] r'] | |];
      try discriminate.
    injection Hret as <- <-.
    destruct Hloop as (n & Hplay & -> & -> & Hbound & Hstop).
    exists n, s'. repeat split; try assumption; try lia.
  - intros Hoob.
    destruct (MCTS.rollout_loop _ _ _ _ _ _ _ _ _) as [[[[s' d'] k'] r'] | |];
      try discriminate. assumption.
  - intros Hle.
    replace (Z.to_nat (Z.min 50 (depth - d0))) with 0%nat by lia. simpl.
    replace (d0 <? depth) with false by (symmetry; apply Z.ltb_ge; lia).
    rewrite andb_false_r. reflexivity.
Qed.

End RolloutProperties.

(** The boundary case of scenario F: [depth = 1] at a node of depth 1. *)
Lemma rollout_single_depth_one :
  MCTS.rollout_single Z counter_next 1 scenario_A_node 7
  = Returned (evaluate scenario_A 1 mu_default, 7).
Proof. reflexivity. Qed.

(** One step of a rollout: [depth = 2] at the same node. *)
Lemma rollout_single_one_step :
  MCTS.rollout_single Z counter_next 2 scenario_A_node 7
  = Returned (evaluate scenario_A_unloaded 2 mu_default, 8).
Proof. reflexivity. Qed.

(** ** Where the transitions return

    The only reads that can leave a vector are those of
    [Rack::get_free_space]; every other read is behind a check of its
    index. *)

Ltac guarded_read :=
  match goal with
  | |- is_Some (Some _) => eexists; reflexivity
  | H : negb _ = false |- _ => apply negb_false_iff in H
  | H : _ || _ = false |- _ => apply orb_false_elim in H as [? ?]
  | H : is_valid_index ?i ?v = true
    |- is_Some (match at_index ?v ?i with _ => _ end) =>
      let x := fresh "x" in
      let Hx := fresh "Hx" in
      destruct (at_index_is_Some i v H) as [x Hx]; rewrite Hx; simpl
  | |- is_Some (if ?c then _ else _) => destruct c eqn:?; simpl
  end.

Lemma find_first_valid {T} (p : T -> bool) (vec : list T) :
  find_first p vec 0 <> -1 -> is_valid_index (find_first p vec 0) vec = true.
Proof.
  intros Hne.
  destruct (find_first_spec p vec 0 ltac:(lia)) as [[He _] | (k & x & He & Hk & _)];
    [congruence |].
  rewrite He. apply is_valid_index_spec. apply lookup_lt_Some in Hk. lia.
Qed.

Lemma load_beluga_returns s t n : is_Some (Action.load_beluga s t n).
Proof.
  unfold Action.load_beluga, mbind, option_bind. repeat guarded_read.
  destruct (belugas s) as [| beluga rest]; [eexists; reflexivity |].
  repeat guarded_read.
  rewrite at_index_zero.
  destruct (Beluga.outgoing beluga); [discriminate |]. simpl.
  repeat guarded_read.
Qed.

Lemma unload_beluga_returns s : is_Some (Action.unload_beluga s).
Proof.
  unfold Action.unload_beluga, mbind, option_bind. repeat guarded_read.
  rewrite at_index_zero.
  destruct (belugas s) as [| beluga rest]; [discriminate |]. simpl.
  repeat guarded_read.
  destruct (Beluga.current_jigs beluga) as [| j js] eqn:Hcur; [discriminate |].
  destruct (last_is_Some (j :: js)) as [_ Hl]. destruct Hl as [x Hx]; [discriminate |].
  rewrite Hx. repeat guarded_read.
Qed.

Lemma get_from_hangar_returns s h t : is_Some (Action.get_from_hangar s h t).
Proof. unfold Action.get_from_hangar, mbind, option_bind. repeat guarded_read. Qed.

Lemma deliver_to_hangar_returns s h t : is_Some (Action.deliver_to_hangar s h t).
Proof.
  unfold Action.deliver_to_hangar, mbind, option_bind. repeat guarded_read.
  match goal with
  | H : (find_first ?p ?v 0 =? -1) = false |- _ =>
      apply Z.eqb_neq in H; apply find_first_valid in H
  end.
  repeat guarded_read.
Qed.

Lemma left_unstack_rack_returns s r t : is_Some (Action.left_unstack_rack s r t).
Proof.
  unfold Action.left_unstack_rack, mbind, option_bind. repeat guarded_read.
  match goal with
  | |- context [head ?l] => destruct l; [discriminate |]; simpl
  end.
  repeat guarded_read.
Qed.

Lemma right_unstack_rack_returns s r t : is_Some (Action.right_unstack_rack s r t).
Proof.
  unfold Action.right_unstack_rack, mbind, option_bind. repeat guarded_read.
  match goal with
  | |- context [last ?l] =>
      let Hl := fresh in
      destruct l as [| j js] eqn:Hl; [discriminate |];
      destruct (last_is_Some (j :: js)) as [_ [lastj Hlastj]]; [discriminate |];
      rewrite Hlastj; simpl
  end.
  repeat guarded_read.
Qed.

Lemma used_space_returns all_jigs ids total :
  Forall (fun jig_id => 1 <= jig_id <= Z.of_nat (length all_jigs)) ids ->
  is_Some (Rack.used_space all_jigs ids total).
Proof.
  intros Hids. revert total.
  induction Hids as [| jig_id ids Hid _ IH]; intros total; simpl.
  - eexists; reflexivity.
  - destruct (at_index_is_Some (jig_id - 1) all_jigs) as [jig Hjig].
    { apply is_valid_index_spec. lia. }
    rewrite Hjig. simpl. apply IH.
Qed.

Lemma get_free_space_returns s rack the_rack :
  racks_readable s -> at_index (racks s) rack = Some the_rack ->
  is_Some (Rack.get_free_space the_rack (jigs s)).
Proof.
  intros Hs Hrack. apply at_index_Some_valid in Hrack as [_ Hrack].
  unfold racks_readable in Hs. rewrite Forall_lookup in Hs.
  specialize (Hs _ _ Hrack). unfold Rack.get_free_space.
  destruct (used_space_returns (jigs s) (Rack.current_jigs the_rack) 0 Hs) as [u Hu].
  rewrite Hu. eexists; reflexivity.
Qed.

Lemma left_stack_rack_returns s r t :
  racks_readable s -> is_Some (Action.left_stack_rack s r t).
Proof.
  intros Hs. unfold Action.left_stack_rack, mbind, option_bind. repeat guarded_read.
  match goal with
  | H : at_index (racks s) r = Some ?the_rack |- _ =>
      destruct (get_free_space_returns s r the_rack Hs H) as [free Hfree];
      rewrite Hfree; simpl
  end.
  repeat guarded_read.
Qed.

Lemma right_stack_rack_returns s r t :
  racks_readable s -> is_Some (Action.right_stack_rack s r t).
Proof.
  intros Hs. unfold Action.right_stack_rack, mbind, option_bind. repeat guarded_read.
  match goal with
  | H : at_index (racks s) r = Some ?the_rack |- _ =>
      destruct (get_free_space_returns s r the_rack Hs H) as [free Hfree];
      rewrite Hfree; simpl
  end.
  repeat guarded_read.
Qed.

Lemma two_params (params : list Z) :
  (2 <=? Z.of_nat (length params)) = true ->
  exists p0 p1, at_index params 0 = Some p0 /\ at_index params 1 = Some p1.
Proof.
  intros H. apply Z.leb_le in H.
  destruct params as [| p0 [| p1 ps]]; simpl in H; try lia.
  exists p0, p1. unfold at_index.
  replace (is_valid_index 0 (p0 :: p1 :: ps)) with true
    by (symmetry; apply is_valid_index_spec; simpl; lia).
  replace (is_valid_index 1 (p0 :: p1 :: ps)) with true
    by (symmetry; apply is_valid_index_spec; simpl; lia).
  split; reflexivity.
Qed.

Lemma apply_action_returns s action_name params :
  racks_readable s -> is_Some (apply_action s action_name params).
Proof.
  intros Hs. unfold apply_action, mbind, option_bind.
  repeat match goal with
         | |- is_Some (if ?c then _ else _) => destruct c eqn:?
         end;
  try (eexists; reflexivity);
  repeat match goal with
         | H : _ && _ = true |- _ => apply andb_true_iff in H as [? ?]
         end;
  try match goal with
      | H : (2 <=? _) = true |- _ =>
          destruct (two_params _ H) as (p0 & p1 & -> & ->)
      end;
  auto using left_stack_rack_returns, right_stack_rack_returns,
    left_unstack_rack_returns, right_unstack_rack_returns,
    get_from_hangar_returns, deliver_to_hangar_returns, unload_beluga_returns.
  (* load_beluga *)
  match goal with
  | H : (1 <=? _) = true |- _ => apply Z.leb_le in H
  end.
  destruct (at_index_is_Some 0 params) as [p0 ->];
    [apply is_valid_index_spec; lia |].
  destruct (1 <? Z.of_nat (length params)) eqn:Hmore.
  - apply Z.ltb_lt in Hmore.
    destruct (at_index_is_Some 1 params) as [p1 ->];
      [apply is_valid_index_spec; lia |].
    apply load_beluga_returns.
  - apply load_beluga_returns.
Qed.

(** ** [expand] *)

(** C10. For every node and every pair of a name and parameters, legal or
    not, on which [apply_action] returns, [expand] returns: the node gets
    one more child, at the end, and that child is the result; its depth is
    one more than the node's, it has no visits, no reward and no children,
    it records the pair, and its snapshot is the one [apply_action] left,
    which for a refused action is the snapshot of the node.  [expand] has
    no result only where [apply_action] has none, and that is never the
    case when the jig ids on the racks can be looked up by
    [get_free_space]. *)
Theorem expand_spec :
  forall (n : MCTSNode.t) (action_name : string) (params : list Z),
    (forall b s',
        apply_action (MCTSNode.state n) action_name params = Some (b, s') ->
        exists n' child,
          MCTSNode.expand n (action_name, params) = Some (n', child)
          /\ MCTSNode.children n' = MCTSNode.children n ++ [child]
          /\ MCTSNode.state n' = MCTSNode.state n
          /\ MCTSNode.action n' = MCTSNode.action n
          /\ MCTSNode.depth n' = MCTSNode.depth n
          /\ MCTSNode.visits n' = MCTSNode.visits n
          /\ MCTSNode.total_reward n' = MCTSNode.total_reward n
          /\ MCTSNode.depth child = MCTSNode.depth n + 1
          /\ MCTSNode.visits child = 0
          /\ MCTSNode.total_reward child = F32.zero
          /\ MCTSNode.children child = []
          /\ MCTSNode.action child = (action_name, params)
          /\ MCTSNode.state child = s'
          /\ (b = false -> MCTSNode.state child = MCTSNode.state n))
    /\ (MCTSNode.expand n (action_name, params) = None
        <-> apply_action (MCTSNode.state n) action_name params = None)
    /\ (racks_readable (MCTSNode.state n) ->
        is_Some (MCTSNode.expand n (action_name, params))).
Proof.
  intros n action_name params. unfold MCTSNode.expand, copy. simpl.
  split; [| split].
  - intros b s' Happly. rewrite Happly. simpl.
    eexists _, _. split; [reflexivity |]. repeat split.
    intros ->. eapply apply_action_refused; eassumption.
  - destruct (apply_action (MCTSNode.state n) action_name params); simpl;
      split; intros; congruence.
  - intros Hs.
    destruct (apply_action_returns (MCTSNode.state n) action_name params Hs)
      as [applied Happlied].
    rewrite Happlied. simpl. eexists; reflexivity.
Qed.

(** An illegal action at scenario B: the child holds the snapshot of the
    node. *)
Lemma expand_illegal_action :
  MCTSNode.expand unvisited_child ("right_stack_rack"%string, [3; 4])
  = Some (MCTSNode.add_child unvisited_child
            (MCTSNode.new scenario_B ("right_stack_rack"%string, [3; 4]) 2),
          MCTSNode.new scenario_B ("right_stack_rack"%string, [3; 4]) 2).
Proof. reflexivity. Qed.

(** * Further properties of the code *)

(** ** [Rack::get_free_space] *)

Lemma used_space_Some all_jigs ids total used :
  Rack.used_space all_jigs ids total = Some used ->
  Forall (fun jig_id => 1 <= jig_id <= Z.of_nat (length all_jigs)) ids
  /\ used = total + charged_space all_jigs ids.
Proof.
  revert total. induction ids as [| jig_id ids IH]; intros total H; simpl in H.
  - injection H as <-. split; [constructor | unfold charged_space; simpl; lia].
  - destruct (at_index all_jigs (jig_id - 1)) as [jig |] eqn:Hjig; [| discriminate].
    simpl in H. apply IH in H as [Hids ->].
    apply at_index_Some_valid in Hjig as [Hvalid Hlookup].
    apply is_valid_index_spec in Hvalid.
    split; [constructor; [lia | assumption] |].
    unfold charged_space, charged_size. simpl. rewrite Hlookup. simpl. lia.
Qed.

(** X1. [get_free_space] has a result exactly when every jig id of the
    rack lies in [1 .. |all_jigs|]; an id 0 on the rack, the id of the
    first jig, leaves it without one.  The result is the size of the
    rack less the sizes of the jigs one place before each id. *)
Theorem get_free_space_reads :
  forall (r : Rack.t) (all_jigs : list Jig),
    (is_Some (Rack.get_free_space r all_jigs)
     <-> Forall (fun jig_id => 1 <= jig_id <= Z.of_nat (length all_jigs))
           (Rack.current_jigs r))
    /\ (0 ∈ Rack.current_jigs r -> Rack.get_free_space r all_jigs = None)
    /\ (forall free, Rack.get_free_space r all_jigs = Some free ->
          free = Rack.size r - charged_space all_jigs (Rack.current_jigs r)).
Proof.
  intros r all_jigs. unfold Rack.get_free_space.
  assert (Hiff : is_Some (Rack.used_space all_jigs (Rack.current_jigs r) 0 ≫=
                          λ total_used_space, Some (Rack.size r - total_used_space))
                 <-> Forall (fun jig_id => 1 <= jig_id <= Z.of_nat (length all_jigs))
                       (Rack.current_jigs r)).
  { split.
    - intros [free Hfree].
      destruct (Rack.used_space _ _ _) as [used |] eqn:Hused; [| discriminate].
      apply used_space_Some in Hused as [Hids _]. exact Hids.
    - intros Hids. destruct (used_space_returns all_jigs _ 0 Hids) as [used ->].
      eexists; reflexivity. }
  split; [exact Hiff |]. split.
  - intros Hzero.
    assert (Hn : ~ Forall (fun jig_id => 1 <= jig_id <= Z.of_nat (length all_jigs))
                   (Rack.current_jigs r)).
    { rewrite Forall_forall. intros Hs. specialize (Hs 0 Hzero). lia. }
    rewrite <- Hiff in Hn.
    destruct (Rack.used_space _ _ _ ≫= _) as [free |]; [| reflexivity].
    exfalso. apply Hn. eexists; reflexivity.
  - intros free Hfree.
    destruct (Rack.used_space _ _ _) as [used |] eqn:Hused; [| discriminate].
    simpl in Hfree. injection Hfree as <-.
    apply used_space_Some in Hused as [_ ->]. lia.
Qed.

(** ** Guarded writes *)

Lemma length_assign {T} (vec : list T) (i : Z) (x : T) :
  length (assign vec i x) = length vec.
Proof. unfold assign. destruct (is_valid_index i vec); [apply length_insert | reflexivity]. Qed.

Lemma is_valid_index_assign {T} (vec : list T) (i j : Z) (x : T) :
  is_valid_index j (assign vec i x) = is_valid_index j vec.
Proof. unfold is_valid_index. rewrite length_assign. reflexivity. Qed.

Lemma at_index_assign_eq {T} (vec : list T) (i : Z) (x : T) :
  is_valid_index i vec = true -> at_index (assign vec i x) i = Some x.
Proof.
  intros Hv. unfold at_index. rewrite is_valid_index_assign, Hv.
  unfold assign. rewrite Hv. apply list_lookup_insert_eq.
  apply is_valid_index_spec in Hv. lia.
Qed.

Lemma at_index_assign_ne {T} (vec : list T) (i j : Z) (x : T) :
  i <> j -> at_index (assign vec i x) j = at_index vec j.
Proof.
  intros Hne. unfold at_index. rewrite is_valid_index_assign.
  destruct (is_valid_index j vec) eqn:Hj; [| reflexivity].
  unfold assign. destruct (is_valid_index i vec) eqn:Hi; [| reflexivity].
  apply list_lookup_insert_ne.
  apply is_valid_index_spec in Hi. apply is_valid_index_spec in Hj. lia.
Qed.

Lemma assign_assign {T} (vec : list T) (i : Z) (x y : T) :
  assign (assign vec i x) i y = assign vec i y.
Proof.
  unfold assign at 1. rewrite is_valid_index_assign. unfold assign.
  destruct (is_valid_index i vec); [apply list_insert_insert_eq | reflexivity].
Qed.

Lemma assign_same {T} (vec : list T) (i : Z) (x : T) :
  at_index vec i = Some x -> assign vec i x = vec.
Proof.
  intros H. apply at_index_Some_valid in H as [Hv Hl].
  unfold assign. rewrite Hv. apply list_insert_id. exact Hl.
Qed.

Lemma ProblemState_eta (s : ProblemState) :
  mkProblemState (jigs s) (belugas s) (trailers_beluga s) (trailers_factory s)
    (racks s) (production_lines s) (hangars s) (belugas_unloaded s)
    (belugas_finished s) (production_lines_finished s) (total_lines s)
    (total_belugas s) (problem_solved s) = s.
Proof. destruct s; reflexivity. Qed.

Lemma Rack_eta (r : Rack.t) : Rack.mk (Rack.size r) (Rack.current_jigs r) = r.
Proof. destruct r; reflexivity. Qed.

(** ** Stacking and unstacking *)

Lemma left_stack_rack_true s r t s' :
  Action.left_stack_rack s r t = Some (true, s') ->
  exists jig_id the_rack,
    is_valid_index r (racks s) = true
    /\ is_valid_index t (trailers_beluga s) = true
    /\ at_index (trailers_beluga s) t = Some jig_id
    /\ at_index (racks s) r = Some the_rack
    /\ s' = set_rack (set_trailer_beluga s t (-1)) r
              (Rack.mk (Rack.size the_rack) (jig_id :: Rack.current_jigs the_rack)).
Proof.
  unfold Action.left_stack_rack, mbind, option_bind. intros H.
  destruct (is_valid_index r (racks s)) eqn:Hr; [| discriminate].
  destruct (is_valid_index t (trailers_beluga s)) eqn:Ht; [| discriminate].
  simpl in H.
  destruct (at_index (trailers_beluga s) t) as [jig_id |] eqn:Hjig; [| discriminate].
  destruct (jig_id =? -1); [discriminate |].
  destruct (negb _); [discriminate |].
  destruct (at_index (jigs s) jig_id); [| discriminate].
  destruct (at_index (racks s) r) as [the_rack |] eqn:Hrack; [| discriminate].
  destruct (Rack.get_free_space _ _); [| discriminate].
  destruct (_ <? _); [discriminate |].
  simpl in H. injection H as <-.
  exists jig_id, the_rack. repeat split; assumption.
Qed.

Lemma right_stack_rack_true s r t s' :
  Action.right_stack_rack s r t = Some (true, s') ->
  exists jig_id the_rack,
    is_valid_index r (racks s) = true
    /\ is_valid_index t (trailers_factory s) = true
    /\ at_index (trailers_factory s) t = Some jig_id
    /\ at_index (racks s) r = Some the_rack
    /\ s' = set_rack (set_trailer_factory s t (-1)) r
              (Rack.mk (Rack.size the_rack) (Rack.current_jigs the_rack ++ [jig_id])).
Proof.
  unfold Action.right_stack_rack, mbind, option_bind. intros H.
  destruct (is_valid_index r (racks s)) eqn:Hr; [| discriminate].
  destruct (is_valid_index t (trailers_factory s)) eqn:Ht; [| discriminate].
  simpl in H.
  destruct (at_index (trailers_factory s) t) as [jig_id |] eqn:Hjig; [| discriminate].
  destruct (jig_id =? -1); [discriminate |].
  destruct (negb _); [discriminate |].
  destruct (at_index (jigs s) jig_id); [| discriminate].
  destruct (at_index (racks s) r) as [the_rack |] eqn:Hrack; [| discriminate].
  destruct (Rack.get_free_space _ _); [| discriminate].
  destruct (_ <? _); [discriminate |].
  injection H as <-.
  exists jig_id, the_rack. repeat split; assumption.
Qed.

(** X2. Unstacking to the left undoes stacking from the left: after a
    successful [left_stack_rack] on a rack and a trailer,
    [left_unstack_rack] on the same rack and trailer succeeds and gives
    back the snapshot from before. *)
Theorem left_stack_then_unstack :
  forall (s : ProblemState) (rack trailer_id : Z) (s' : ProblemState),
    Action.left_stack_rack s rack trailer_id = Some (true, s') ->
    Action.left_unstack_rack s' rack trailer_id = Some (true, s).
Proof.
  intros s r t s' H.
  apply left_stack_rack_true in H
    as (jig_id & the_rack & Hr & Ht & Hjig & Hrack & ->).
  unfold Action.left_unstack_rack, set_rack, set_trailer_beluga. simpl.
  rewrite !is_valid_index_assign, Hr, Ht. simpl.
  rewrite !at_index_assign_eq by assumption. simpl.
  rewrite !assign_assign, (assign_same _ _ _ Hjig), Rack_eta,
    (assign_same _ _ _ Hrack).
  unfold with_racks, with_trailers_beluga. simpl.
  rewrite ProblemState_eta. reflexivity.
Qed.

Lemma left_stack_then_unstack_witness :
  Action.left_unstack_rack crowded_stacked 0 0 = Some (true, crowded_unloaded).
Proof.
  apply (left_stack_then_unstack crowded_unloaded 0 0 crowded_stacked).
  reflexivity.
Defined.

(** X3. Unstacking to the right undoes stacking from the right. *)
Theorem right_stack_then_unstack :
  forall (s : ProblemState) (rack trailer_id : Z) (s' : ProblemState),
    Action.right_stack_rack s rack trailer_id = Some (true, s') ->
    Action.right_unstack_rack s' rack trailer_id = Some (true, s).
Proof.
  intros s r t s' H.
  apply right_stack_rack_true in H
    as (jig_id & the_rack & Hr & Ht & Hjig & Hrack & ->).
  unfold Action.right_unstack_rack, set_rack, set_trailer_factory. simpl.
  rewrite !is_valid_index_assign, Hr, Ht. simpl.
  rewrite !at_index_assign_eq by assumption. simpl.
  replace (vec_empty (Rack.current_jigs the_rack ++ [jig_id])) with false
    by (destruct (Rack.current_jigs the_rack); reflexivity).
  simpl. rewrite last_snoc. simpl.
  unfold pop_back. rewrite removelast_last.
  rewrite !assign_assign, (assign_same _ _ _ Hjig), Rack_eta,
    (assign_same _ _ _ Hrack).
  unfold with_racks, with_trailers_factory. simpl.
  rewrite ProblemState_eta. reflexivity.
Qed.

Lemma right_stack_then_unstack_witness :
  Action.right_unstack_rack factory_side_stacked 0 0 = Some (true, factory_side_state).
Proof.
  apply (right_stack_then_unstack factory_side_state 0 0 factory_side_stacked).
  reflexivity.
Defined.

(** ** What a successful transition does *)

Lemma left_unstack_rack_true s r t s' :
  Action.left_unstack_rack s r t = Some (true, s') ->
  exists the_rack j rest,
    at_index (trailers_beluga s) t = Some (-1)
    /\ at_index (racks s) r = Some the_rack
    /\ Rack.current_jigs the_rack = j :: rest
    /\ s' = set_rack (set_trailer_beluga s t j) r (Rack.mk (Rack.size the_rack) rest).
Proof.
  unfold Action.left_unstack_rack, mbind, option_bind. intros H.
  destruct (negb _ || negb _); [discriminate |].
  destruct (at_index (trailers_beluga s) t) as [on_trailer |] eqn:Ht; [| discriminate].
  destruct (at_index (racks s) r) as [the_rack |] eqn:Hr; [| discriminate].
  destruct (on_trailer =? -1) eqn:He; [| discriminate]. simpl in H.
  apply Z.eqb_eq in He. subst on_trailer.
  destruct (Rack.current_jigs the_rack) as [| j rest] eqn:Hc; [discriminate |].
  simpl in H. injection H as <-. exists the_rack, j, rest. repeat split; assumption.
Qed.

Lemma right_unstack_rack_true s r t s' :
  Action.right_unstack_rack s r t = Some (true, s') ->
  exists the_rack front j,
    at_index (trailers_factory s) t = Some (-1)
    /\ at_index (racks s) r = Some the_rack
    /\ Rack.current_jigs the_rack = front ++ [j]
    /\ s' = set_rack (set_trailer_factory s t j) r (Rack.mk (Rack.size the_rack) front).
Proof.
  unfold Action.right_unstack_rack, mbind, option_bind. intros H.
  destruct (negb _ || negb _); [discriminate |].
  destruct (at_index (trailers_factory s) t) as [on_trailer |] eqn:Ht; [| discriminate].
  destruct (at_index (racks s) r) as [the_rack |] eqn:Hr; [| discriminate].
  destruct (on_trailer =? -1) eqn:He; [| discriminate]. simpl in H.
  apply Z.eqb_eq in He. subst on_trailer.
  destruct (vec_empty (Rack.current_jigs the_rack)) eqn:Hc; [discriminate |].
  apply vec_empty_false in Hc. destruct (exists_last Hc) as (front & j & Hfj).
  rewrite Hfj, last_snoc in H. simpl in H. unfold pop_back in H.
  rewrite removelast_last in H. injection H as <-.
  exists the_rack, front, j. repeat split; assumption.
Qed.

Lemma get_from_hangar_true s h t s' :
  Action.get_from_hangar s h t = Some (true, s') ->
  exists jig_id jig,
    at_index (hangars s) h = Some jig_id
    /\ jig_id <> -1
    /\ at_index (trailers_factory s) t = Some (-1)
    /\ at_index (jigs s) jig_id = Some jig
    /\ empty jig = true
    /\ s' = set_hangar (set_trailer_factory s t jig_id) h (-1).
Proof.
  unfold Action.get_from_hangar, mbind, option_bind. intros H.
  destruct (negb _ || negb _); [discriminate |].
  destruct (at_index (hangars s) h) as [in_hangar |] eqn:Hh; [| discriminate].
  destruct (at_index (trailers_factory s) t) as [on_trailer |] eqn:Ht; [| discriminate].
  destruct (in_hangar =? -1) eqn:He1; [discriminate |].
  destruct (on_trailer =? -1) eqn:He2; [| discriminate]. simpl in H.
  apply Z.eqb_neq in He1. apply Z.eqb_eq in He2. subst on_trailer.
  destruct (negb (is_valid_index _ _)); [discriminate |].
  destruct (at_index (jigs s) in_hangar) as [jig |] eqn:Hj; [| discriminate].
  destruct (empty jig) eqn:Hempty; [| discriminate]. simpl in H.
  injection H as <-. exists in_hangar, jig. repeat split; assumption.
Qed.

(** The snapshot after a successful [deliver_to_hangar]. *)
Lemma deliver_to_hangar_true s h t s' :
  Action.deliver_to_hangar s h t = Some (true, s') ->
  exists jig_id jig idx line,
    at_index (hangars s) h = Some (-1)
    /\ at_index (trailers_factory s) t = Some jig_id
    /\ jig_id <> -1
    /\ at_index (jigs s) jig_id = Some jig
    /\ empty jig = false
    /\ idx = find_first (Action.line_starts_with jig_id) (production_lines s) 0
    /\ idx <> -1
    /\ at_index (production_lines s) idx = Some line
    /\ s' =
       let moved :=
         set_trailer_factory
           (set_jig
              (set_hangar
                 (set_production_line s idx
                    (ProductionLine.mk (tail (ProductionLine.scheduled_jigs line))))
                 h jig_id)
              jig_id (mkJig (jig_type jig) true))
           t (-1) in
       if vec_empty (tail (ProductionLine.scheduled_jigs line))
       then remove_production_line
              (with_production_lines_finished moved (production_lines_finished s + 1)) idx
       else moved.
Proof.
  unfold Action.deliver_to_hangar, mbind, option_bind. intros H.
  destruct (negb _ || negb _); [discriminate |].
  destruct (at_index (hangars s) h) as [in_hangar |] eqn:Hh; [| discriminate].
  destruct (at_index (trailers_factory s) t) as [on_trailer |] eqn:Ht; [| discriminate].
  destruct (in_hangar =? -1) eqn:He1; [| discriminate].
  destruct (on_trailer =? -1) eqn:He2; [discriminate |]. simpl in H.
  apply Z.eqb_eq in He1. apply Z.eqb_neq in He2. subst in_hangar.
  destruct (negb (is_valid_index _ _)); [discriminate |].
  destruct (at_index (jigs s) on_trailer) as [jig |] eqn:Hj; [| discriminate].
  destruct (empty jig) eqn:Hempty; [discriminate |].
  destruct (find_first _ _ 0 =? -1) eqn:Hidx; [discriminate |].
  apply Z.eqb_neq in Hidx.
  destruct (at_index (production_lines s) _) as [line |] eqn:Hline; [| discriminate].
  exists on_trailer, jig, (find_first (Action.line_starts_with on_trailer)
                             (production_lines s) 0), line.
  repeat (split; [first [assumption | reflexivity] |]).
  simpl in *.
  destruct (vec_empty (tail (ProductionLine.scheduled_jigs line)));
    injection H as <-; reflexivity.
Qed.

Lemma load_beluga_true s t n s' :
  Action.load_beluga s t n = Some (true, s') ->
  exists jig_id jig beluga rest o outs,
    at_index (trailers_beluga s) t = Some jig_id
    /\ jig_id <> -1
    /\ at_index (jigs s) jig_id = Some jig
    /\ empty jig = true
    /\ belugas s = beluga :: rest
    /\ Beluga.current_jigs beluga = []
    /\ Beluga.outgoing beluga = o :: outs
    /\ JigType_eqb (jig_type jig) o = true
    /\ s' =
       let loaded := set_trailer_beluga (set_beluga s 0 (Beluga.mk [] outs)) t (-1) in
       if vec_empty outs then snd (beluga_complete loaded) else loaded.
Proof.
  unfold Action.load_beluga, mbind, option_bind. intros H.
  destruct (negb _); [discriminate |].
  destruct (at_index (trailers_beluga s) t) as [jig_id |] eqn:Ht; [| discriminate].
  destruct (jig_id =? -1) eqn:He; [discriminate |]. apply Z.eqb_neq in He.
  destruct (negb _); [discriminate |].
  destruct (belugas s) as [| beluga rest] eqn:Hb; [discriminate |].
  destruct (at_index (jigs s) jig_id) as [jig |] eqn:Hj; [| discriminate].
  destruct (empty jig) eqn:Hempty; [| discriminate]. simpl in H.
  destruct (Beluga.outgoing beluga) as [| o outs] eqn:Ho; [discriminate |].
  destruct (Beluga.current_jigs beluga) as [| c cs] eqn:Hc; [| discriminate].
  simpl in H.
  destruct (JigType_eqb (jig_type jig) o) eqn:Hty; [| discriminate]. simpl in H.
  exists jig_id, jig, beluga, rest, o, outs.
  repeat (split; [first [assumption | reflexivity] |]).
  destruct outs as [| o2 outs].
  - simpl in H. injection H as <-. reflexivity.
  - simpl in H. destruct (Pos.of_succ_nat (length outs)); simpl in H;
      injection H as <-; reflexivity.
Qed.

Lemma unload_beluga_true s s' :
  Action.unload_beluga s = Some (true, s') ->
  exists beluga rest front j (slot : nat),
    belugas s = beluga :: rest
    /\ Beluga.current_jigs beluga = front ++ [j]
    /\ trailers_beluga s !! slot = Some (-1)
    /\ s' =
       let moved :=
         set_beluga (set_trailer_beluga s (Z.of_nat slot) j) 0
           (Beluga.mk front (Beluga.outgoing beluga)) in
       if vec_empty front then
         let counted := with_belugas_unloaded moved (belugas_unloaded s + 1) in
         if vec_empty (Beluga.outgoing beluga)
         then snd (beluga_complete counted) else counted
       else moved.
Proof.
  unfold Action.unload_beluga. intros H.
  destruct (find_first_spec (fun v => v =? -1) (trailers_beluga s) 0 ltac:(lia))
    as [[He _] | (slot & x & He & Hslot & Hx & _)].
  { rewrite He in H. discriminate. }
  apply Z.eqb_eq in Hx. subst x. rewrite He in H.
  replace (0 + Z.of_nat slot =? -1) with false in H by (symmetry; apply Z.eqb_neq; lia).
  destruct (belugas s) as [| beluga rest] eqn:Hb; [discriminate |].
  simpl in H.
  destruct (vec_empty (Beluga.current_jigs beluga)) eqn:Hc; [discriminate |].
  apply vec_empty_false in Hc. destruct (exists_last Hc) as (front & j & Hfj).
  rewrite Hfj, last_snoc in H. simpl in H. unfold pop_back in H.
  rewrite removelast_last, Z.add_0_l in H.
  exists beluga, rest, front, j, slot.
  repeat (split; [first [assumption | reflexivity] |]).
  simpl.
  destruct (vec_empty front); [destruct (vec_empty (Beluga.outgoing beluga)) |];
    injection H as <-; reflexivity.
Qed.

(** ** Frame and counters *)

Lemma jig_kept_refl (j : Jig) : jig_kept j j.
Proof. split; auto. Qed.

Lemma Forall2_jig_kept_refl (js : list Jig) : Forall2 jig_kept js js.
Proof. apply Forall_Forall2_diag, Forall_forall. intros; apply jig_kept_refl. Qed.

Lemma Forall2_jig_kept_assign (js : list Jig) (i : Z) (j j' : Jig) :
  at_index js i = Some j -> jig_kept j j' -> Forall2 jig_kept js (assign js i j').
Proof.
  intros Hj Hk. apply at_index_Some_valid in Hj as [Hv Hl].
  unfold assign. rewrite Hv.
  rewrite <- (list_insert_id js (Z.to_nat i) j Hl) at 1.
  apply Forall2_insert; [apply Forall2_jig_kept_refl | exact Hk].
Qed.

Lemma Forall2_jig_kept_trans (a b c : list Jig) :
  Forall2 jig_kept a b -> Forall2 jig_kept b c -> Forall2 jig_kept a c.
Proof.
  intros Hab. revert c. induction Hab as [| x y a b [Hxy1 Hxy2] _ IH]; intros c Hbc.
  - inversion Hbc. constructor.
  - inversion Hbc as [| ? z ? c' [Hyz1 Hyz2] Hrest]; subst.
    constructor; [| apply IH; assumption].
    split; [congruence | auto].
Qed.

Lemma sizes_assign (rs : list Rack.t) (i : Z) (r r' : Rack.t) :
  at_index rs i = Some r -> Rack.size r' = Rack.size r ->
  Rack.size <$> assign rs i r' = Rack.size <$> rs.
Proof.
  intros Hr Hs. apply at_index_Some_valid in Hr as [Hv Hl].
  unfold assign. rewrite Hv, list_fmap_insert, Hs.
  apply list_insert_id. rewrite list_lookup_fmap, Hl. reflexivity.
Qed.

Lemma length_erase_at {T} (vec : list T) (i : Z) :
  is_valid_index i vec = true ->
  Z.of_nat (length (erase_at vec i)) = Z.of_nat (length vec) - 1.
Proof.
  intros Hv. unfold erase_at. rewrite Hv. rewrite length_delete.
  - apply is_valid_index_spec in Hv. lia.
  - apply lookup_lt_is_Some. apply is_valid_index_spec in Hv. lia.
Qed.

Lemma same_frame_refl s : same_frame s s.
Proof. unfold same_frame. auto 10 using Forall2_jig_kept_refl. Qed.

Lemma counters_step_refl s : counters_step s s.
Proof. unfold counters_step. lia. Qed.

Lemma assign_head {T} (x y : T) (rest : list T) : assign (x :: rest) 0 y = y :: rest.
Proof.
  unfold assign.
  replace (is_valid_index 0 (x :: rest)) with true
    by (symmetry; apply is_valid_index_spec; simpl; lia).
  reflexivity.
Qed.

Ltac frame_goal :=
  unfold same_frame, counters_step, beluga_complete, set_rack, set_trailer_beluga,
    set_trailer_factory, set_hangar, set_jig, set_beluga, set_production_line,
    remove_production_line;
  cbn -[Z.of_nat Z.add assign erase_at]; rewrite ?length_assign.

Lemma left_stack_rack_step s r t b s' :
  Action.left_stack_rack s r t = Some (b, s') -> same_frame s s' /\ counters_step s s'.
Proof.
  destruct b; intros H.
  - apply left_stack_rack_true in H as (jig_id & the_rack & _ & _ & _ & Hrack & ->).
    frame_goal. rewrite (sizes_assign _ _ _ _ Hrack) by reflexivity.
    repeat split; auto using Forall2_jig_kept_refl; lia.
  - apply left_stack_rack_refused in H as ->.
    split; [apply same_frame_refl | apply counters_step_refl].
Qed.

Lemma right_stack_rack_step s r t b s' :
  Action.right_stack_rack s r t = Some (b, s') -> same_frame s s' /\ counters_step s s'.
Proof.
  destruct b; intros H.
  - apply right_stack_rack_true in H as (jig_id & the_rack & _ & _ & _ & Hrack & ->).
    frame_goal. rewrite (sizes_assign _ _ _ _ Hrack) by reflexivity.
    repeat split; auto using Forall2_jig_kept_refl; lia.
  - apply right_stack_rack_refused in H as ->.
    split; [apply same_frame_refl | apply counters_step_refl].
Qed.

Lemma left_unstack_rack_step s r t b s' :
  Action.left_unstack_rack s r t = Some (b, s') -> same_frame s s' /\ counters_step s s'.
Proof.
  destruct b; intros H.
  - apply left_unstack_rack_true in H as (the_rack & j & rest & _ & Hrack & _ & ->).
    frame_goal. rewrite (sizes_assign _ _ _ _ Hrack) by reflexivity.
    repeat split; auto using Forall2_jig_kept_refl; lia.
  - apply left_unstack_rack_refused in H as ->.
    split; [apply same_frame_refl | apply counters_step_refl].
Qed.

Lemma right_unstack_rack_step s r t b s' :
  Action.right_unstack_rack s r t = Some (b, s') -> same_frame s s' /\ counters_step s s'.
Proof.
  destruct b; intros H.
  - apply right_unstack_rack_true in H as (the_rack & front & j & _ & Hrack & _ & ->).
    frame_goal. rewrite (sizes_assign _ _ _ _ Hrack) by reflexivity.
    repeat split; auto using Forall2_jig_kept_refl; lia.
  - apply right_unstack_rack_refused in H as ->.
    split; [apply same_frame_refl | apply counters_step_refl].
Qed.

Lemma get_from_hangar_step s h t b s' :
  Action.get_from_hangar s h t = Some (b, s') -> same_frame s s' /\ counters_step s s'.
Proof.
  destruct b; intros H.
  - apply get_from_hangar_true in H as (jig_id & jig & _ & _ & _ & _ & _ & ->).
    frame_goal. repeat split; auto using Forall2_jig_kept_refl; lia.
  - apply get_from_hangar_refused in H as ->.
    split; [apply same_frame_refl | apply counters_step_refl].
Qed.

Lemma deliver_to_hangar_step s h t b s' :
  Action.deliver_to_hangar s h t = Some (b, s') -> same_frame s s' /\ counters_step s s'.
Proof.
  destruct b; intros H.
  - apply deliver_to_hangar_true in H
      as (jig_id & jig & idx & line & _ & _ & _ & Hjig & Hempty & _ & _ & Hline & ->).
    assert (Hkept : Forall2 jig_kept (jigs s)
                      (assign (jigs s) jig_id (mkJig (jig_type jig) true))).
    { eapply Forall2_jig_kept_assign; [eassumption |]. split; reflexivity. }
    pose proof (at_index_Some_valid _ _ _ Hline) as [Hvalid _].
    cbn zeta. destruct (vec_empty _); frame_goal.
    + rewrite length_erase_at by (rewrite is_valid_index_assign; assumption).
      rewrite length_assign. repeat split; auto; lia.
    + repeat split; auto; lia.
  - apply deliver_to_hangar_refused in H as ->.
    split; [apply same_frame_refl | apply counters_step_refl].
Qed.

Lemma load_beluga_step s t n b s' :
  Action.load_beluga s t n = Some (b, s') -> same_frame s s' /\ counters_step s s'.
Proof.
  destruct b; intros H.
  - apply load_beluga_true in H
      as (jig_id & jig & beluga & rest & o & outs & _ & _ & _ & _ & Hb & _ & _ & _ & ->).
    cbn zeta. destruct outs as [| o2 outs]; frame_goal; rewrite Hb, ?assign_head;
      cbn -[Z.of_nat Z.add assign erase_at]; rewrite ?length_cons, ?length_assign;
      repeat split; auto using Forall2_jig_kept_refl; lia.
  - apply load_beluga_refused in H as ->.
    split; [apply same_frame_refl | apply counters_step_refl].
Qed.

Lemma unload_beluga_step s b s' :
  Action.unload_beluga s = Some (b, s') -> same_frame s s' /\ counters_step s s'.
Proof.
  destruct b; intros H.
  - apply unload_beluga_true in H as (beluga & rest & front & j & slot & Hb & _ & _ & ->).
    cbn zeta.
    destruct front as [| f front];
      [destruct (Beluga.outgoing beluga) as [| o outs] eqn:Ho |];
      frame_goal; rewrite Hb, ?assign_head;
      cbn -[Z.of_nat Z.add assign erase_at]; rewrite ?Ho;
      cbn -[Z.of_nat Z.add assign erase_at]; rewrite ?length_cons, ?length_assign;
      repeat split; auto using Forall2_jig_kept_refl; lia.
  - apply unload_beluga_refused in H as ->.
    split; [apply same_frame_refl | apply counters_step_refl].
Qed.

Lemma apply_action_step s action_name params b s' :
  apply_action s action_name params = Some (b, s') ->
  same_frame s s' /\ counters_step s s'.
Proof.
  unfold apply_action, mbind, option_bind.
  repeat match goal with
         | |- context [match ?x with _ => _ end] => destruct x eqn:?; simpl
         end;
  intros H; simplify_eq;
  eauto using same_frame_refl, counters_step_refl, left_stack_rack_step,
    right_stack_rack_step, left_unstack_rack_step, right_unstack_rack_step,
    get_from_hangar_step, deliver_to_hangar_step, load_beluga_step,
    unload_beluga_step.
Qed.

(** X4. No action, accepted or refused, changes the number of jigs, of
    trailer slots, of hangars or of racks, the size of a rack, the type of
    a jig or the two totals; and a jig that is empty stays empty. *)
Theorem apply_action_keeps_frame :
  forall s action_name params b s',
    apply_action s action_name params = Some (b, s') ->
    same_frame s s'.
Proof. intros s action_name params b s' H. eapply apply_action_step; eassumption. Qed.

Lemma apply_action_keeps_frame_witness :
  same_frame crowded_unloaded crowded_stacked.
Proof.
  apply (apply_action_keeps_frame crowded_unloaded "left_stack_rack" [0; 0] true).
  reflexivity.
Defined.

Lemma reachable_counters s0 s :
  reachable s0 s ->
  belugas_finished s + Z.of_nat (length (belugas s))
    = belugas_finished s0 + Z.of_nat (length (belugas s0))
  /\ production_lines_finished s + Z.of_nat (length (production_lines s))
     = production_lines_finished s0 + Z.of_nat (length (production_lines s0))
  /\ total_belugas s = total_belugas s0
  /\ total_lines s = total_lines s0.
Proof.
  induction 1 as [| s action_name params b s' _ IH Hstep].
  - repeat split; reflexivity.
  - apply apply_action_step in Hstep as [Hframe Hcount].
    unfold same_frame in Hframe. unfold counters_step in Hcount.
    repeat split; lia.
Qed.

(** X5. In every snapshot reached by actions from a snapshot the
    constructor has made, the stored counters agree with the sequences:
    [belugas_finished] is [total_belugas] less the number of belugas left,
    and [production_lines_finished] is [total_lines] less the number of
    lines left, the totals being the numbers at the start. *)
Theorem stored_counters_match_sequences :
  forall js bs tb tf rs pls hs s,
    reachable (new_ProblemState js bs tb tf rs pls hs) s ->
    belugas_finished s = total_belugas s - Z.of_nat (length (belugas s))
    /\ production_lines_finished s
       = total_lines s - Z.of_nat (length (production_lines s))
    /\ total_belugas s = Z.of_nat (length bs)
    /\ total_lines s = Z.of_nat (length pls).
Proof.
  intros js bs tb tf rs pls hs s H.
  apply reachable_counters in H. simpl in H. lia.
Qed.

Lemma stored_counters_match_sequences_witness :
  belugas_finished scenario_A_unloaded
    = total_belugas scenario_A_unloaded
      - Z.of_nat (length (belugas scenario_A_unloaded))
  /\ production_lines_finished scenario_A_unloaded
     = total_lines scenario_A_unloaded
       - Z.of_nat (length (production_lines scenario_A_unloaded))
  /\ total_belugas scenario_A_unloaded = Z.of_nat (length [Beluga.mk [0] []])
  /\ total_lines scenario_A_unloaded = Z.of_nat (length [ProductionLine.mk [0]]).
Proof.
  apply (stored_counters_match_sequences [mkJig typeA false] [Beluga.mk [0] []]
           [-1] [-1] [Rack.mk 10 []] [ProductionLine.mk [0]] [-1]).
  apply (reachable_step _ scenario_A "unload_beluga" [] true);
    [apply reachable_start | reflexivity].
Defined.

(** X6. No action adds a beluga or a production line, and
    [belugas_unloaded] never goes down; so after any action on a terminal
    snapshot the snapshot is terminal. *)
Theorem terminal_stays_terminal :
  forall s action_name params b s',
    apply_action s action_name params = Some (b, s') ->
    (length (belugas s') <= length (belugas s))%nat
    /\ (length (production_lines s') <= length (production_lines s))%nat
    /\ belugas_unloaded s <= belugas_unloaded s'
    /\ (is_terminal s = true -> is_terminal s' = true).
Proof.
  intros s action_name params b s' H.
  apply apply_action_step in H as [_ Hcount]. unfold counters_step in Hcount.
  repeat split; try lia.
  unfold is_terminal. rewrite !andb_true_iff, !vec_empty_true.
  intros [Hb Hp]. rewrite Hb, Hp in Hcount. simpl in Hcount.
  split; apply length_zero_iff_nil; lia.
Qed.

Lemma terminal_stays_terminal_witness :
  (length (belugas scenario_A_jig_out) <= length (belugas scenario_A_solved))%nat
  /\ (length (production_lines scenario_A_jig_out)
      <= length (production_lines scenario_A_solved))%nat
  /\ belugas_unloaded scenario_A_solved <= belugas_unloaded scenario_A_jig_out
  /\ (is_terminal scenario_A_solved = true -> is_terminal scenario_A_jig_out = true).
Proof.
  apply (terminal_stays_terminal scenario_A_solved "get_from_hangar" [0; 0] true).
  reflexivity.
Defined.

(** ** Names and parameter lists *)

Lemma at_index_second {T} (x y : T) (rest : list T) :
  at_index (x :: y :: rest) 1 = Some y.
Proof.
  unfold at_index.
  replace (is_valid_index 1 (x :: y :: rest)) with true
    by (symmetry; apply is_valid_index_spec; simpl; lia).
  reflexivity.
Qed.

Lemma load_beluga_ignores_none s t n n' :
  Action.load_beluga s t n = Action.load_beluga s t n'.
Proof. reflexivity. Qed.

Lemma apply_action_unknown_name s action_name params :
  action_name ∉ action_names -> apply_action s action_name params = Some (false, s).
Proof.
  intros Hname. unfold apply_action.
  repeat match goal with
         | |- context [String.eqb action_name ?n] =>
             destruct (String.eqb_spec action_name n) as [-> | _];
             [exfalso; apply Hname; apply list_elem_of_In; simpl; tauto |]
         end.
  simpl. repeat (destruct (Ascii.eqb _ _); try reflexivity).
Qed.

Lemma apply_action_too_short s action_name params :
  action_name <> "unload_beluga"%string ->
  (params = [] \/ (action_name <> "load_beluga"%string /\ exists p, params = [p])) ->
  apply_action s action_name params = Some (false, s).
Proof.
  intros Hun Hshort. unfold apply_action.
  destruct (String.eqb_spec action_name "unload_beluga") as [? | _]; [contradiction |].
  destruct Hshort as [-> | [Hload [p ->]]]; simpl.
  - rewrite !andb_false_r. repeat (destruct (Ascii.eqb _ _); try reflexivity).
  - destruct (String.eqb_spec action_name "load_beluga") as [? | _]; [contradiction |].
    rewrite !andb_false_r. repeat (destruct (Ascii.eqb _ _); try reflexivity).
Qed.

Lemma apply_action_extra_params s action_name p0 p1 rest :
  apply_action s action_name (p0 :: p1 :: rest) = apply_action s action_name [p0; p1].
Proof.
  unfold apply_action.
  replace (2 <=? Z.of_nat (length (p0 :: p1 :: rest))) with true
    by (symmetry; apply Z.leb_le; simpl; lia).
  replace (1 <=? Z.of_nat (length (p0 :: p1 :: rest))) with true
    by (symmetry; apply Z.leb_le; simpl; lia).
  replace (1 <? Z.of_nat (length (p0 :: p1 :: rest))) with true
    by (symmetry; apply Z.ltb_lt; simpl; lia).
  rewrite !at_index_zero, !at_index_second. reflexivity.
Qed.

(** X7. [apply_action] refuses, and leaves the snapshot alone, a name
    that is none of the eight, an action other than [unload_beluga]
    without parameters, and a two-parameter action with one parameter.
    Parameters after the second are ignored, and [unload_beluga] ignores
    all of them. *)
Theorem apply_action_names_and_arity :
  forall (s : ProblemState) (action_name : string) (params : list Z),
    (action_name ∉ action_names -> apply_action s action_name params = Some (false, s))
    /\ (action_name <> "unload_beluga"%string ->
        apply_action s action_name [] = Some (false, s))
    /\ (action_name <> "unload_beluga"%string ->
        action_name <> "load_beluga"%string ->
        forall p, apply_action s action_name [p] = Some (false, s))
    /\ (forall p0 p1,
          apply_action s action_name (p0 :: p1 :: params)
          = apply_action s action_name [p0; p1])
    /\ apply_action s "unload_beluga" params = apply_action s "unload_beluga" [].
Proof.
  intros s action_name params. repeat split.
  - apply apply_action_unknown_name.
  - intros Hun. apply apply_action_too_short; auto.
  - intros Hun Hload p. apply apply_action_too_short; eauto.
  - intros p0 p1. apply apply_action_extra_params.
Qed.

(** ** [load_beluga] *)

Lemma at_index_Some_is_valid {T} (vec : list T) (i : Z) (x : T) :
  at_index vec i = Some x -> is_valid_index i vec = true.
Proof. intros H. apply at_index_Some_valid in H. tauto. Qed.

Lemma load_beluga_accepts s t n jig_id jig beluga rest o outs :
  at_index (trailers_beluga s) t = Some jig_id ->
  jig_id <> -1 ->
  at_index (jigs s) jig_id = Some jig ->
  empty jig = true ->
  belugas s = beluga :: rest ->
  Beluga.current_jigs beluga = [] ->
  Beluga.outgoing beluga = o :: outs ->
  name (jig_type jig) = name o ->
  exists s', Action.load_beluga s t n = Some (true, s').
Proof.
  intros Ht Hne Hjig Hempty Hb Hcur Hout Hname.
  unfold Action.load_beluga, mbind, option_bind.
  rewrite (at_index_Some_is_valid _ _ _ Ht), Ht. simpl.
  replace (jig_id =? -1) with false by (symmetry; apply Z.eqb_neq; assumption).
  rewrite (at_index_Some_is_valid _ _ _ Hjig), Hb, Hjig, Hempty, Hcur, Hout. simpl.
  unfold JigType_eqb. rewrite Hname, String.eqb_refl. simpl.
  match goal with
  | |- exists s', (if ?c then _ else _) = _ => destruct c
  end; eexists; reflexivity.
Qed.

(** X8. [load_beluga] always returns.  It succeeds exactly when the
    trailer holds a jig of the registry that is empty, there is an active
    beluga with no cargo left, and the name of the jig's type is that of
    the first outgoing type.  On success the trailer is emptied and the
    first outgoing type is dropped; when it was the last one the beluga
    leaves the sequence and [belugas_finished] grows by one.  Everything
    else stays as it is: the jig registry, the racks, the hangars, the
    factory trailers, the production lines, [belugas_unloaded],
    [production_lines_finished], the two totals and [problem_solved].  A
    refused call leaves the snapshot as it is.  The second argument is
    not read: the result is the same for every value of it. *)
Theorem load_beluga_spec :
  forall (s : ProblemState) (trailer_beluga none : Z),
  exists (b : bool) (s' : ProblemState),
    Action.load_beluga s trailer_beluga none = Some (b, s')
    /\ (b = true <->
        exists jig_id jig beluga rest o outs,
          at_index (trailers_beluga s) trailer_beluga = Some jig_id
          /\ jig_id <> -1
          /\ at_index (jigs s) jig_id = Some jig
          /\ empty jig = true
          /\ belugas s = beluga :: rest
          /\ Beluga.current_jigs beluga = []
          /\ Beluga.outgoing beluga = o :: outs
          /\ name (jig_type jig) = name o)
    /\ (b = true ->
        exists beluga rest o outs,
          belugas s = beluga :: rest
          /\ Beluga.outgoing beluga = o :: outs
          /\ trailers_beluga s' = assign (trailers_beluga s) trailer_beluga (-1)
          /\ belugas s' = (if vec_empty outs then rest else Beluga.mk [] outs :: rest)
          /\ belugas_finished s'
             = belugas_finished s + (if vec_empty outs then 1 else 0)
          /\ jigs s' = jigs s /\ racks s' = racks s /\ hangars s' = hangars s
          /\ trailers_factory s' = trailers_factory s
          /\ production_lines s' = production_lines s
          /\ belugas_unloaded s' = belugas_unloaded s
          /\ production_lines_finished s' = production_lines_finished s
          /\ total_lines s' = total_lines s
          /\ total_belugas s' = total_belugas s
          /\ problem_solved s' = problem_solved s)
    /\ (b = false -> s' = s)
    /\ (forall other : Z,
          Action.load_beluga s trailer_beluga other
          = Action.load_beluga s trailer_beluga none).
Proof.
  intros s t n.
  destruct (load_beluga_returns s t n) as [[b s'] H].
  exists b, s'. split; [exact H |]. split; [split |]; [| | split; [| split]].
  - intros ->. apply load_beluga_true in H
      as (jig_id & jig & beluga & rest & o & outs & Ht & Hne & Hjig & Hempty & Hb
          & Hcur & Hout & Hty & _).
    exists jig_id, jig, beluga, rest, o, outs.
    repeat (split; [assumption |]). apply String.eqb_eq. exact Hty.
  - intros (jig_id & jig & beluga & rest & o & outs & Ht & Hne & Hjig & Hempty & Hb
            & Hcur & Hout & Hname).
    destruct (load_beluga_accepts s t n _ _ _ _ _ _ Ht Hne Hjig Hempty Hb Hcur Hout Hname)
      as [s'' Hacc].
    congruence.
  - intros ->. apply load_beluga_true in H
      as (jig_id & jig & beluga & rest & o & outs & _ & _ & _ & _ & Hb & _ & Hout & _ & ->).
    exists beluga, rest, o, outs.
    split; [assumption |]. split; [assumption |]. cbn zeta.
    destruct outs as [| o2 outs];
      unfold beluga_complete, set_beluga, set_trailer_beluga;
      cbn -[Z.add assign]; rewrite Hb, assign_head; cbn -[Z.add assign];
      repeat split; lia.
  - intros ->. eapply load_beluga_refused; eassumption.
  - intros other. reflexivity.
Qed.

(** ** [deliver_to_hangar] and [get_from_hangar] *)

Lemma delete_insert_same {T} (l : list T) (k : nat) (x : T) :
  delete k (<[k := x]> l) = delete k l.
Proof.
  revert k. induction l as [| y l IH]; intros [| k]; simpl; try reflexivity.
  f_equal. apply IH.
Qed.

Lemma find_first_none {T} (p : T -> bool) (vec : list T) (x : T) :
  x ∈ vec -> p x = true -> find_first p vec 0 <> -1.
Proof.
  intros Hin Hp He.
  destruct (find_first_spec p vec 0 ltac:(lia)) as [[_ Hall] | (k & y & He' & _)].
  - rewrite Forall_forall in Hall. rewrite (Hall x Hin) in Hp. discriminate.
  - lia.
Qed.

Lemma line_starts_with_head jig_id line :
  Action.line_starts_with jig_id line = true
  <-> head (ProductionLine.scheduled_jigs line) = Some jig_id.
Proof.
  unfold Action.line_starts_with.
  destruct (ProductionLine.scheduled_jigs line) as [| first rest]; simpl.
  - split; discriminate.
  - rewrite Z.eqb_eq. split; [intros -> | intros [= ->]]; reflexivity.
Qed.

Lemma deliver_to_hangar_accepts s h t jig_id jig line :
  at_index (hangars s) h = Some (-1) ->
  at_index (trailers_factory s) t = Some jig_id ->
  jig_id <> -1 ->
  at_index (jigs s) jig_id = Some jig ->
  empty jig = false ->
  line ∈ production_lines s ->
  head (ProductionLine.scheduled_jigs line) = Some jig_id ->
  exists s', Action.deliver_to_hangar s h t = Some (true, s').
Proof.
  intros Hh Ht Hne Hjig Hempty Hin Hhead.
  unfold Action.deliver_to_hangar, mbind, option_bind.
  rewrite (at_index_Some_is_valid _ _ _ Hh), (at_index_Some_is_valid _ _ _ Ht),
    Hh, Ht. simpl.
  replace (jig_id =? -1) with false by (symmetry; apply Z.eqb_neq; assumption).
  rewrite (at_index_Some_is_valid _ _ _ Hjig), Hjig, Hempty. simpl.
  assert (Hidx : find_first (Action.line_starts_with jig_id) (production_lines s) 0 <> -1).
  { eapply find_first_none; [eassumption |]. apply line_starts_with_head. assumption. }
  replace (find_first _ _ 0 =? -1) with false by (symmetry; apply Z.eqb_neq; assumption).
  destruct (at_index_is_Some _ _ (find_first_valid _ _ Hidx)) as [l ->].
  match goal with
  | |- exists s', (if ?c then _ else _) = _ => destruct c
  end; eexists; reflexivity.
Qed.

(** X9. [deliver_to_hangar] always returns.  It succeeds exactly when the
    hangar is empty, the factory trailer holds a jig of the registry that
    is loaded, and some production line has that jig first in its
    schedule.  On success the first such line loses its head, and leaves
    the sequence when nothing else is scheduled, in which case
    [production_lines_finished] grows by one; the jig goes from the
    trailer to the hangar and is marked empty.  The belugas, the beluga
    trailers and the racks stay as they are. *)
Theorem deliver_to_hangar_spec :
  forall (s : ProblemState) (hangar trailer_factory : Z),
  exists (b : bool) (s' : ProblemState),
    Action.deliver_to_hangar s hangar trailer_factory = Some (b, s')
    /\ (b = true <->
        exists jig_id jig line,
          at_index (hangars s) hangar = Some (-1)
          /\ at_index (trailers_factory s) trailer_factory = Some jig_id
          /\ jig_id <> -1
          /\ at_index (jigs s) jig_id = Some jig
          /\ empty jig = false
          /\ line ∈ production_lines s
          /\ head (ProductionLine.scheduled_jigs line) = Some jig_id)
    /\ (b = true ->
        exists jig_id jig (k : nat) line later,
          at_index (trailers_factory s) trailer_factory = Some jig_id
          /\ at_index (jigs s) jig_id = Some jig
          /\ production_lines s !! k = Some line
          /\ ProductionLine.scheduled_jigs line = jig_id :: later
          /\ (forall (k' : nat) line',
                (k' < k)%nat -> production_lines s !! k' = Some line' ->
                head (ProductionLine.scheduled_jigs line') <> Some jig_id)
          /\ production_lines s' =
               (if vec_empty later then delete k (production_lines s)
                else <[k := ProductionLine.mk later]> (production_lines s))
          /\ production_lines_finished s'
             = production_lines_finished s + (if vec_empty later then 1 else 0)
          /\ hangars s' = assign (hangars s) hangar jig_id
          /\ trailers_factory s' = assign (trailers_factory s) trailer_factory (-1)
          /\ jigs s' = assign (jigs s) jig_id (mkJig (jig_type jig) true)
          /\ belugas s' = belugas s /\ trailers_beluga s' = trailers_beluga s
          /\ racks s' = racks s)
    /\ (b = false -> s' = s).
Proof.
  intros s h t.
  destruct (deliver_to_hangar_returns s h t) as [[b s'] H].
  exists b, s'. split; [exact H |]. split; [split |]; [| | split].
  - intros ->. apply deliver_to_hangar_true in H
      as (jig_id & jig & idx & line & Hh & Ht & Hne & Hjig & Hempty & Hidx & Hnone
          & Hline & _).
    exists jig_id, jig, line. repeat (split; [assumption |]).
    apply at_index_Some_valid in Hline as [_ Hline].
    split; [eapply list_elem_of_lookup_2; eassumption |].
    destruct (find_first_spec (Action.line_starts_with jig_id) (production_lines s) 0
                ltac:(lia)) as [[He _] | (k & x & He & Hk & Hx & _)]; [congruence |].
    rewrite Hidx, He, Z.add_0_l, Nat2Z.id, Hk in Hline. injection Hline as <-.
    apply line_starts_with_head. exact Hx.
  - intros (jig_id & jig & line & Hh & Ht & Hne & Hjig & Hempty & Hin & Hhead).
    destruct (deliver_to_hangar_accepts s h t _ _ _ Hh Ht Hne Hjig Hempty Hin Hhead)
      as [s'' Hacc].
    congruence.
  - intros ->. apply deliver_to_hangar_true in H
      as (jig_id & jig & idx & line & Hh & Ht & Hne & Hjig & Hempty & Hidx & Hnone
          & Hline & ->).
    destruct (find_first_spec (Action.line_starts_with jig_id) (production_lines s) 0
                ltac:(lia)) as [[He _] | (k & x & He & Hk & Hx & Hmin)]; [congruence |].
    pose proof (at_index_Some_valid _ _ _ Hline) as [Hvalid Hline'].
    rewrite Hidx, He, Z.add_0_l, Nat2Z.id, Hk in Hline'.
    injection Hline' as ->.
    apply line_starts_with_head in Hx.
    destruct (ProductionLine.scheduled_jigs line) as [| first later] eqn:Hsched;
      [discriminate |].
    simpl in Hx. injection Hx as ->.
    exists jig_id, jig, k, line, later.
    repeat (split; [first [assumption | reflexivity] |]).
    split.
    { intros k' line' Hlt Hl' Hhead'. apply line_starts_with_head in Hhead'.
      rewrite (Hmin k' line' Hlt Hl') in Hhead'. discriminate. }
    assert (Hk_lt : (k < length (production_lines s))%nat)
      by (eapply lookup_lt_Some; eassumption).
    rewrite Hidx, He. cbn zeta. cbn [tail].
    destruct (vec_empty later) eqn:Hlater;
      unfold remove_production_line, set_production_line, set_trailer_factory, set_jig,
        set_hangar; cbn -[Z.add assign erase_at Z.of_nat];
      rewrite ?Z.add_0_l, ?assign_nat by assumption.
    + unfold erase_at.
      replace (is_valid_index (Z.of_nat k) _) with true
        by (symmetry; apply is_valid_index_spec; rewrite length_insert; lia).
      rewrite Nat2Z.id, delete_insert_same. repeat split.
    + repeat split. lia.
  - intros ->. eapply deliver_to_hangar_refused; eassumption.
Qed.

(** X10. After a successful [deliver_to_hangar] on a hangar and a factory
    trailer, [get_from_hangar] on the same two succeeds: the jig, now
    empty, is back on the trailer, and hangars and factory trailers hold
    what they held before the delivery. *)
Theorem deliver_then_get_from_hangar :
  forall (s : ProblemState) (hangar trailer_factory : Z) (s' : ProblemState),
    Action.deliver_to_hangar s hangar trailer_factory = Some (true, s') ->
    exists jig_id s'',
      Action.get_from_hangar s' hangar trailer_factory = Some (true, s'')
      /\ at_index (trailers_factory s) trailer_factory = Some jig_id
      /\ (empty <$> at_index (jigs s'') jig_id) = Some true
      /\ trailers_factory s'' = trailers_factory s
      /\ hangars s'' = hangars s
      /\ production_lines s'' = production_lines s'.
Proof.
  intros s h t s' H.
  apply deliver_to_hangar_true in H
    as (jig_id & jig & idx & line & Hh & Ht & Hne & Hjig & Hempty & _ & _ & _ & ->).
  exists jig_id.
  assert (Hpl : forall base : ProblemState,
             hangars base = assign (hangars s) h jig_id ->
             trailers_factory base = assign (trailers_factory s) t (-1) ->
             jigs base = assign (jigs s) jig_id (mkJig (jig_type jig) true) ->
             exists s'',
               Action.get_from_hangar base h t = Some (true, s'')
               /\ at_index (trailers_factory s) t = Some jig_id
               /\ (empty <$> at_index (jigs s'') jig_id) = Some true
               /\ trailers_factory s'' = trailers_factory s
               /\ hangars s'' = hangars s
               /\ production_lines s'' = production_lines base).
  { intros base Hbh Hbt Hbj.
    unfold Action.get_from_hangar, mbind, option_bind.
    rewrite Hbh, Hbt, Hbj, !is_valid_index_assign.
    rewrite (at_index_Some_is_valid _ _ _ Hh), (at_index_Some_is_valid _ _ _ Ht).
    simpl.
    rewrite !at_index_assign_eq by (eapply at_index_Some_is_valid; eassumption).
    simpl.
    replace (jig_id =? -1) with false by (symmetry; apply Z.eqb_neq; assumption).
    rewrite ?is_valid_index_assign, (at_index_Some_is_valid _ _ _ Hjig). simpl.
    rewrite ?at_index_assign_eq by (eapply at_index_Some_is_valid; eassumption).
    simpl.
    eexists. split; [reflexivity |].
    unfold set_hangar, set_trailer_factory. simpl.
    rewrite Hbh, Hbt, Hbj, !assign_assign.
    rewrite (assign_same _ _ _ Ht), (assign_same _ _ _ Hh).
    rewrite at_index_assign_eq by (eapply at_index_Some_is_valid; eassumption).
    repeat split; assumption. }
  cbn zeta. destruct (vec_empty _); apply Hpl; reflexivity.
Qed.

Lemma deliver_then_get_from_hangar_witness :
  exists jig_id s'',
    Action.get_from_hangar scenario_A_solved 0 0 = Some (true, s'')
    /\ at_index (trailers_factory scenario_A_at_factory) 0 = Some jig_id
    /\ (empty <$> at_index (jigs s'') jig_id) = Some true
    /\ trailers_factory s'' = trailers_factory scenario_A_at_factory
    /\ hangars s'' = hangars scenario_A_at_factory
    /\ production_lines s'' = production_lines scenario_A_solved.
Proof.
  apply (deliver_then_get_from_hangar scenario_A_at_factory 0 0 scenario_A_solved).
  reflexivity.
Defined.

(** ** The enumeration against [check_action_valid] *)

Lemma for_each_invariant {A S} (P : S -> Prop) (items : list A)
    (body : A -> S -> option S) (init res : S) :
  P init ->
  (forall x acc acc', P acc -> body x acc = Some acc' -> P acc') ->
  for_each items body init = Some res -> P res.
Proof.
  intros Hinit Hbody. revert init Hinit.
  induction items as [| x items IH]; intros init Hinit H; simpl in H.
  - injection H as <-. exact Hinit.
  - destruct (body x init) as [acc' |] eqn:Hx; [| discriminate].
    simpl in H. eapply IH; [| exact H]. eapply Hbody; eassumption.
Qed.

Lemma for_each_reaches {A S} (Q : S -> Prop) (items : list A)
    (body : A -> S -> option S) (init res : S) (x0 : A) :
  x0 ∈ items ->
  (forall x acc acc', Q acc -> body x acc = Some acc' -> Q acc') ->
  (forall acc acc', body x0 acc = Some acc' -> Q acc') ->
  for_each items body init = Some res -> Q res.
Proof.
  intros Hin Hkeep Hhit. revert init.
  induction items as [| x items IH]; intros init H; [inversion Hin |].
  simpl in H. destruct (body x init) as [acc' |] eqn:Hx; [| discriminate].
  simpl in H. apply elem_of_cons in Hin as [-> | Hin].
  - eapply (for_each_invariant Q); [| | exact H]; [eapply Hhit; eassumption |].
    exact Hkeep.
  - eapply IH; eassumption.
Qed.

Lemma elem_of_indices {T} (vec : list T) (i : Z) :
  i ∈ indices vec <-> is_valid_index i vec = true.
Proof. unfold indices. rewrite elem_of_seqZ, is_valid_index_spec. lia. Qed.

Lemma check_pair s action_name x y :
  check_action_valid s action_name [x; y]
  = fst <$> apply_action s action_name [x; y].
Proof. reflexivity. Qed.

Lemma push_if_valid_sound s action candidate params params' :
  Forall (fun c => check_action_valid s action c = Some true) params ->
  push_if_valid s action candidate params = Some params' ->
  Forall (fun c => check_action_valid s action c = Some true) params'.
Proof.
  unfold push_if_valid. intros Hp H.
  destruct (check_action_valid s action candidate) as [[] |] eqn:Hc;
    simpl in H; try discriminate; injection H as <-; [| assumption].
  apply Forall_app. split; [assumption | repeat constructor; assumption].
Qed.

Lemma get_from_hangar_accepts s h t jig_id jig :
  at_index (hangars s) h = Some jig_id ->
  jig_id <> -1 ->
  at_index (trailers_factory s) t = Some (-1) ->
  at_index (jigs s) jig_id = Some jig ->
  empty jig = true ->
  exists s', Action.get_from_hangar s h t = Some (true, s').
Proof.
  intros Hh Hne Ht Hjig Hempty.
  unfold Action.get_from_hangar, mbind, option_bind.
  rewrite (at_index_Some_is_valid _ _ _ Hh), (at_index_Some_is_valid _ _ _ Ht),
    Hh, Ht. simpl.
  replace (jig_id =? -1) with false by (symmetry; apply Z.eqb_neq; assumption).
  rewrite (at_index_Some_is_valid _ _ _ Hjig), Hjig, Hempty. simpl.
  eexists; reflexivity.
Qed.

Lemma unload_beluga_accepts s beluga rest :
  belugas s = beluga :: rest ->
  vec_empty (Beluga.current_jigs beluga) = false ->
  existsb (fun v => v =? -1) (trailers_beluga s) = true ->
  exists s', Action.unload_beluga s = Some (true, s').
Proof.
  intros Hb Hcur Hslot. unfold Action.unload_beluga.
  apply existsb_exists in Hslot as (v & Hin & Hv).
  assert (Hidx : find_first (fun v => v =? -1) (trailers_beluga s) 0 <> -1).
  { eapply find_first_none; [apply list_elem_of_In; eassumption | exact Hv]. }
  replace (find_first _ _ 0 =? -1) with false by (symmetry; apply Z.eqb_neq; assumption).
  rewrite Hb. simpl. rewrite Hcur.
  apply vec_empty_false in Hcur. destruct (exists_last Hcur) as (front & j & ->).
  rewrite last_snoc. simpl.
  repeat match goal with
         | |- exists s', (if ?c then _ else _) = _ => destruct c
         end; eexists; reflexivity.
Qed.

Ltac split_body H :=
  unfold mbind, option_bind in H;
  repeat match type of H with
         | context [match ?x with _ => _ end] => destruct x eqn:?
         end;
  simplify_eq.

Ltac loops_sound :=
  let H := fresh "H" in
  intros H;
  eapply for_each_invariant in H; [exact H | constructor |];
  let Hacc := fresh "Hacc" in
  let Hbody := fresh "Hbody" in
  intros ? ? ? Hacc Hbody;
  eapply for_each_invariant in Hbody; [exact Hbody | exact Hacc |];
  clear Hacc Hbody;
  intros ? ? ? Hacc Hbody;
  split_body Hbody;
  eauto using push_if_valid_sound.

Lemma check_get_from_hangar s h t s' :
  Action.get_from_hangar s h t = Some (true, s') ->
  check_action_valid s "get_from_hangar" [h; t] = Some true.
Proof.
  intros H. unfold check_action_valid, copy, apply_action.
  cbn -[Action.get_from_hangar].
  change (2 <=? Z.of_nat 2) with true. cbv iota.
  rewrite at_index_zero, at_index_second. simpl. rewrite H. reflexivity.
Qed.

Lemma check_deliver_to_hangar s h t s' :
  Action.deliver_to_hangar s h t = Some (true, s') ->
  check_action_valid s "deliver_to_hangar" [h; t] = Some true.
Proof.
  intros H. unfold check_action_valid, copy, apply_action.
  cbn -[Action.deliver_to_hangar].
  change (2 <=? Z.of_nat 2) with true. cbv iota.
  rewrite at_index_zero, at_index_second. simpl. rewrite H. reflexivity.
Qed.

Lemma enumerate_valid_params_sound s action found :
  enumerate_valid_params s action = Some found ->
  Forall (fun c => check_action_valid s action c = Some true) found.
Proof.
  unfold enumerate_valid_params.
  destruct (String.eqb action "left_stack_rack"); [loops_sound |].
  destruct (String.eqb action "right_stack_rack"); [loops_sound |].
  destruct (String.eqb action "left_unstack_rack"); [loops_sound |].
  destruct (String.eqb action "right_unstack_rack"); [loops_sound |].
  destruct (String.eqb action "left_load"); [loops_sound |].
  destruct (String.eqb action "right_load"); [loops_sound |].
  destruct (String.eqb action "left_unload"); [loops_sound |].
  destruct (String.eqb action "right_unload"); [loops_sound |].
  destruct (String.eqb_spec action "deliver_to_hangar") as [-> | _].
  { intros H.
    eapply for_each_invariant in H; [exact H | constructor |].
    intros h acc acc' Hacc Hbody.
    eapply for_each_invariant in Hbody; [exact Hbody | exact Hacc |].
    clear Hacc Hbody. intros t acc0 acc1 Hacc Hbody.
    unfold mbind, option_bind in Hbody.
    destruct (at_index (hangars s) h) as [in_hangar |] eqn:Hh; [| discriminate].
    destruct (at_index (trailers_factory s) t) as [jig_id |] eqn:Ht; [| discriminate].
    destruct (in_hangar =? -1) eqn:He1; simpl in Hbody; [| congruence].
    destruct (jig_id =? -1) eqn:He2; simpl in Hbody; [congruence |].
    destruct (_ && _); [| congruence].
    destruct (at_index (jigs s) jig_id) as [jig |] eqn:Hjig; [| discriminate].
    destruct (empty jig) eqn:Hempty; simpl in Hbody; [congruence |].
    destruct (existsb _ _) eqn:Hneeded; injection Hbody as <-; [| assumption].
    apply Forall_app. split; [assumption |]. repeat constructor.
    apply Z.eqb_eq in He1. subst in_hangar. apply Z.eqb_neq in He2.
    apply existsb_exists in Hneeded as (line & Hin & Hline).
    apply list_elem_of_In in Hin. apply line_starts_with_head in Hline.
    destruct (deliver_to_hangar_accepts s h t _ _ _ Hh Ht He2 Hjig Hempty Hin Hline)
      as [s' Hs'].
    eapply check_deliver_to_hangar; eassumption. }
  destruct (String.eqb_spec action "get_from_hangar") as [-> | _].
  { intros H.
    eapply for_each_invariant in H; [exact H | constructor |].
    intros h acc acc' Hacc Hbody.
    eapply for_each_invariant in Hbody; [exact Hbody | exact Hacc |].
    clear Hacc Hbody. intros t acc0 acc1 Hacc Hbody.
    unfold mbind, option_bind in Hbody.
    destruct (at_index (hangars s) h) as [jig_id |] eqn:Hh; [| discriminate].
    destruct (at_index (trailers_factory s) t) as [on_trailer |] eqn:Ht; [| discriminate].
    destruct (jig_id =? -1) eqn:He1; simpl in Hbody; [congruence |].
    destruct (on_trailer =? -1) eqn:He2; simpl in Hbody; [| congruence].
    destruct (_ && _); [| congruence].
    destruct (at_index (jigs s) jig_id) as [jig |] eqn:Hjig; [| discriminate].
    destruct (empty jig) eqn:Hempty; injection Hbody as <-; [| assumption].
    apply Forall_app. split; [assumption |]. repeat constructor.
    apply Z.eqb_neq in He1. apply Z.eqb_eq in He2. subst on_trailer.
    destruct (get_from_hangar_accepts s h t _ _ Hh He1 Ht Hjig Hempty) as [s' Hs'].
    eapply check_get_from_hangar; eassumption. }
  destruct (String.eqb_spec action "unload_beluga") as [-> | _].
  { destruct (belugas s) as [| beluga rest] eqn:Hb; [intros [= <-]; constructor |].
    destruct (vec_empty (Beluga.current_jigs beluga)) eqn:Hcur; simpl;
      [intros [= <-]; constructor |].
    destruct (existsb _ _) eqn:Hslot; intros [= <-]; [| constructor].
    repeat constructor.
    destruct (unload_beluga_accepts s beluga rest Hb Hcur Hslot) as [s' Hs'].
    unfold check_action_valid, copy, apply_action.
    cbn -[Action.unload_beluga]. rewrite Hs'. reflexivity. }
  intros [= <-]. constructor.
Qed.

Lemma push_if_valid_keeps s action candidate params params' (c0 : list Z) :
  c0 ∈ params -> push_if_valid s action candidate params = Some params' ->
  c0 ∈ params'.
Proof.
  unfold push_if_valid. intros Hin H.
  destruct (check_action_valid s action candidate) as [[] |];
    simpl in H; try discriminate; injection H as <-; [| assumption].
  apply elem_of_app. left. assumption.
Qed.

Lemma push_if_valid_hits s action candidate params params' :
  check_action_valid s action candidate = Some true ->
  push_if_valid s action candidate params = Some params' ->
  candidate ∈ params'.
Proof.
  unfold push_if_valid. intros Hc H. rewrite Hc in H. simpl in H.
  injection H as <-. apply elem_of_app. right. constructor.
Qed.

Lemma left_stack_rack_checks s r t s' :
  Action.left_stack_rack s r t = Some (true, s') ->
  exists jig_id jig the_rack free,
    at_index (trailers_beluga s) t = Some jig_id
    /\ (jig_id =? -1) = false
    /\ is_valid_index jig_id (jigs s) = true
    /\ at_index (jigs s) jig_id = Some jig
    /\ at_index (racks s) r = Some the_rack
    /\ Rack.get_free_space the_rack (jigs s) = Some free
    /\ (free <? jig_size jig) = false.
Proof.
  unfold Action.left_stack_rack, mbind, option_bind. intros H.
  destruct (negb _ || negb _); [discriminate |].
  destruct (at_index (trailers_beluga s) t) as [jig_id |] eqn:Hjig; [| discriminate].
  destruct (jig_id =? -1) eqn:Hne; [discriminate |].
  destruct (is_valid_index jig_id (jigs s)) eqn:Hv; [| discriminate]. simpl in H.
  destruct (at_index (jigs s) jig_id) as [jig |] eqn:Hj; [| discriminate].
  destruct (at_index (racks s) r) as [the_rack |] eqn:Hrack; [| discriminate].
  destruct (Rack.get_free_space _ _) as [free |] eqn:Hfree; [| discriminate].
  destruct (free <? jig_size jig) eqn:Hfit; [discriminate |].
  exists jig_id, jig, the_rack, free. repeat split; assumption.
Qed.

Lemma right_stack_rack_checks s r t s' :
  Action.right_stack_rack s r t = Some (true, s') ->
  exists jig_id jig the_rack free,
    at_index (trailers_factory s) t = Some jig_id
    /\ (jig_id =? -1) = false
    /\ is_valid_index jig_id (jigs s) = true
    /\ at_index (jigs s) jig_id = Some jig
    /\ at_index (racks s) r = Some the_rack
    /\ Rack.get_free_space the_rack (jigs s) = Some free
    /\ (free <? jig_size jig) = false.
Proof.
  unfold Action.right_stack_rack, mbind, option_bind. intros H.
  destruct (negb _ || negb _); [discriminate |].
  destruct (at_index (trailers_factory s) t) as [jig_id |] eqn:Hjig; [| discriminate].
  destruct (jig_id =? -1) eqn:Hne; [discriminate |].
  destruct (is_valid_index jig_id (jigs s)) eqn:Hv; [| discriminate]. simpl in H.
  destruct (at_index (jigs s) jig_id) as [jig |] eqn:Hj; [| discriminate].
  destruct (at_index (racks s) r) as [the_rack |] eqn:Hrack; [| discriminate].
  destruct (Rack.get_free_space _ _) as [free |] eqn:Hfree; [| discriminate].
  destruct (free <? jig_size jig) eqn:Hfit; [discriminate |].
  exists jig_id, jig, the_rack, free. repeat split; assumption.
Qed.

Lemma check_pair_true s action_name x y :
  check_action_valid s action_name [x; y] = Some true ->
  exists s', apply_action s action_name [x; y] = Some (true, s').
Proof.
  rewrite check_pair.
  destruct (apply_action s action_name [x; y]) as [[[] s'] |]; simpl;
    intros; try discriminate. eexists; reflexivity.
Qed.

Lemma apply_pair s action_name x y f :
  (forall params, apply_action s action_name params =
     if 2 <=? Z.of_nat (length params)
     then p0 ← at_index params 0; p1 ← at_index params 1; f p0 p1
     else Some (false, s)) ->
  apply_action s action_name [x; y] = f x y.
Proof.
  intros ->. change (2 <=? Z.of_nat (length [x; y])) with true. cbv iota.
  rewrite at_index_zero, at_index_second. reflexivity.
Qed.

Ltac body_keeps :=
  let Hacc := fresh "Hacc" in
  let Hbody := fresh "Hbody" in
  intros ? ? ? Hacc Hbody; split_body Hbody;
  first [ assumption
        | apply elem_of_app; left; assumption
        | eapply push_if_valid_keeps; eassumption ].

Ltac loops_keep :=
  let Hacc := fresh "Hacc" in
  let Hbody := fresh "Hbody" in
  intros ? ? ? Hacc Hbody;
  eapply (for_each_invariant (fun ps : list (list Z) => _ ∈ ps)) in Hbody;
  [exact Hbody | exact Hacc | body_keeps].

Ltac reduce_names H :=
  unfold enumerate_valid_params in H;
  cbn [String.eqb Ascii.eqb Bool.eqb andb] in H.

Lemma geb_of_ltb_false (free n : Z) : (free <? n) = false -> (free >=? n) = true.
Proof. intros H. apply Z.ltb_ge in H. rewrite Z.geb_leb. apply Z.leb_le. lia. Qed.

Lemma enumerate_left_stack_rack_complete s x y found :
  check_action_valid s "left_stack_rack" [x; y] = Some true ->
  enumerate_valid_params s "left_stack_rack" = Some found -> [x; y] ∈ found.
Proof.
  intros Hvalid H.
  destruct (check_pair_true _ _ _ _ Hvalid) as [s' Happly].
  rewrite (apply_pair s _ x y (Action.left_stack_rack s)) in Happly by reflexivity.
  apply left_stack_rack_checks in Happly
    as (jig_id & jig & the_rack & free & Ht & Hne & Hv & Hj & Hr & Hfree & Hfit).
  reduce_names H.
  eapply (for_each_reaches (fun ps : list (list Z) => [x; y] ∈ ps)) in H;
    [exact H | | loops_keep |].
  - apply elem_of_indices. eapply at_index_Some_is_valid; eassumption.
  - intros acc acc' Hinner.
    eapply (for_each_reaches (fun ps : list (list Z) => [x; y] ∈ ps)) in Hinner;
      [exact Hinner | | body_keeps |].
    + apply elem_of_indices. eapply at_index_Some_is_valid; eassumption.
    + intros acc0 acc1 Hbody. unfold mbind, option_bind in Hbody.
      rewrite Ht, Hne in Hbody. cbn [negb] in Hbody.
      change ((0 <=? jig_id) && (jig_id <? Z.of_nat (length (jigs s))))
        with (is_valid_index jig_id (jigs s)) in Hbody.
      rewrite Hv, Hj, Hr, Hfree, (geb_of_ltb_false _ _ Hfit) in Hbody.
      eapply push_if_valid_hits; eassumption.
Qed.

Lemma enumerate_right_stack_rack_complete s x y found :
  check_action_valid s "right_stack_rack" [x; y] = Some true ->
  enumerate_valid_params s "right_stack_rack" = Some found -> [x; y] ∈ found.
Proof.
  intros Hvalid H.
  destruct (check_pair_true _ _ _ _ Hvalid) as [s' Happly].
  rewrite (apply_pair s _ x y (Action.right_stack_rack s)) in Happly by reflexivity.
  apply right_stack_rack_checks in Happly
    as (jig_id & jig & the_rack & free & Ht & Hne & Hv & Hj & Hr & Hfree & Hfit).
  reduce_names H.
  eapply (for_each_reaches (fun ps : list (list Z) => [x; y] ∈ ps)) in H;
    [exact H | | loops_keep |].
  - apply elem_of_indices. eapply at_index_Some_is_valid; eassumption.
  - intros acc acc' Hinner.
    eapply (for_each_reaches (fun ps : list (list Z) => [x; y] ∈ ps)) in Hinner;
      [exact Hinner | | body_keeps |].
    + apply elem_of_indices. eapply at_index_Some_is_valid; eassumption.
    + intros acc0 acc1 Hbody. unfold mbind, option_bind in Hbody.
      rewrite Ht, Hne in Hbody. cbn [negb] in Hbody.
      change ((0 <=? jig_id) && (jig_id <? Z.of_nat (length (jigs s))))
        with (is_valid_index jig_id (jigs s)) in Hbody.
      rewrite Hv, Hj, Hr, Hfree, (geb_of_ltb_false _ _ Hfit) in Hbody.
      eapply push_if_valid_hits; eassumption.
Qed.

Lemma enumerate_left_unstack_rack_complete s x y found :
  check_action_valid s "left_unstack_rack" [x; y] = Some true ->
  enumerate_valid_params s "left_unstack_rack" = Some found -> [x; y] ∈ found.
Proof.
  intros Hvalid H.
  destruct (check_pair_true _ _ _ _ Hvalid) as [s' Happly].
  rewrite (apply_pair s _ x y (Action.left_unstack_rack s)) in Happly by reflexivity.
  apply left_unstack_rack_true in Happly as (the_rack & j & rest & Ht & Hr & Hc & _).
  reduce_names H.
  eapply (for_each_reaches (fun ps : list (list Z) => [x; y] ∈ ps)) in H;
    [exact H | | loops_keep |].
  - apply elem_of_indices. eapply at_index_Some_is_valid; eassumption.
  - intros acc acc' Hinner.
    eapply (for_each_reaches (fun ps : list (list Z) => [x; y] ∈ ps)) in Hinner;
      [exact Hinner | | body_keeps |].
    + apply elem_of_indices. eapply at_index_Some_is_valid; eassumption.
    + intros acc0 acc1 Hbody. unfold mbind, option_bind in Hbody.
      rewrite Ht, Hr, Hc in Hbody. cbn in Hbody.
      eapply push_if_valid_hits; eassumption.
Qed.

Lemma enumerate_right_unstack_rack_complete s x y found :
  check_action_valid s "right_unstack_rack" [x; y] = Some true ->
  enumerate_valid_params s "right_unstack_rack" = Some found -> [x; y] ∈ found.
Proof.
  intros Hvalid H.
  destruct (check_pair_true _ _ _ _ Hvalid) as [s' Happly].
  rewrite (apply_pair s _ x y (Action.right_unstack_rack s)) in Happly by reflexivity.
  apply right_unstack_rack_true in Happly as (the_rack & front & j & Ht & Hr & Hc & _).
  reduce_names H.
  eapply (for_each_reaches (fun ps : list (list Z) => [x; y] ∈ ps)) in H;
    [exact H | | loops_keep |].
  - apply elem_of_indices. eapply at_index_Some_is_valid; eassumption.
  - intros acc acc' Hinner.
    eapply (for_each_reaches (fun ps : list (list Z) => [x; y] ∈ ps)) in Hinner;
      [exact Hinner | | body_keeps |].
    + apply elem_of_indices. eapply at_index_Some_is_valid; eassumption.
    + intros acc0 acc1 Hbody. unfold mbind, option_bind in Hbody.
      rewrite Ht, Hr, Hc in Hbody.
      replace (vec_empty (front ++ [j])) with false in Hbody
        by (destruct front; reflexivity).
      cbn in Hbody. eapply push_if_valid_hits; eassumption.
Qed.

Lemma enumerate_get_from_hangar_complete s x y found :
  check_action_valid s "get_from_hangar" [x; y] = Some true ->
  enumerate_valid_params s "get_from_hangar" = Some found -> [x; y] ∈ found.
Proof.
  intros Hvalid H.
  destruct (check_pair_true _ _ _ _ Hvalid) as [s' Happly].
  rewrite (apply_pair s _ x y (Action.get_from_hangar s)) in Happly by reflexivity.
  apply get_from_hangar_true in Happly
    as (jig_id & jig & Hh & Hne & Ht & Hj & Hempty & _).
  reduce_names H.
  eapply (for_each_reaches (fun ps : list (list Z) => [x; y] ∈ ps)) in H;
    [exact H | | loops_keep |].
  - apply elem_of_indices. eapply at_index_Some_is_valid; eassumption.
  - intros acc acc' Hinner.
    eapply (for_each_reaches (fun ps : list (list Z) => [x; y] ∈ ps)) in Hinner;
      [exact Hinner | | body_keeps |].
    + apply elem_of_indices. eapply at_index_Some_is_valid; eassumption.
    + intros acc0 acc1 Hbody. unfold mbind, option_bind in Hbody.
      rewrite Hh, Ht in Hbody.
      replace (jig_id =? -1) with false in Hbody
        by (symmetry; apply Z.eqb_neq; assumption).
      cbn [negb andb Z.eqb Pos.eqb] in Hbody.
      change ((0 <=? jig_id) && (jig_id <? Z.of_nat (length (jigs s))))
        with (is_valid_index jig_id (jigs s)) in Hbody.
      rewrite (at_index_Some_is_valid _ _ _ Hj), Hj, Hempty in Hbody.
      injection Hbody as <-. apply elem_of_app. right. constructor.
Qed.

Lemma enumerate_deliver_to_hangar_complete s x y found :
  check_action_valid s "deliver_to_hangar" [x; y] = Some true ->
  enumerate_valid_params s "deliver_to_hangar" = Some found -> [x; y] ∈ found.
Proof.
  intros Hvalid H.
  destruct (check_pair_true _ _ _ _ Hvalid) as [s' Happly].
  rewrite (apply_pair s _ x y (Action.deliver_to_hangar s)) in Happly by reflexivity.
  apply deliver_to_hangar_true in Happly
    as (jig_id & jig & idx & line & Hh & Ht & Hne & Hj & Hempty & Hidx & Hnone
        & Hline & _).
  assert (Hneeded : existsb (Action.line_starts_with jig_id) (production_lines s) = true).
  { destruct (find_first_spec (Action.line_starts_with jig_id) (production_lines s) 0
                ltac:(lia)) as [[He _] | (k & l & _ & Hk & Hl & _)]; [congruence |].
    apply existsb_exists. exists l. split; [| exact Hl].
    apply list_elem_of_In. eapply list_elem_of_lookup_2; eassumption. }
  reduce_names H.
  eapply (for_each_reaches (fun ps : list (list Z) => [x; y] ∈ ps)) in H;
    [exact H | | loops_keep |].
  - apply elem_of_indices. eapply at_index_Some_is_valid; eassumption.
  - intros acc acc' Hinner.
    eapply (for_each_reaches (fun ps : list (list Z) => [x; y] ∈ ps)) in Hinner;
      [exact Hinner | | body_keeps |].
    + apply elem_of_indices. eapply at_index_Some_is_valid; eassumption.
    + intros acc0 acc1 Hbody. unfold mbind, option_bind in Hbody.
      rewrite Hh, Ht in Hbody.
      replace (jig_id =? -1) with false in Hbody
        by (symmetry; apply Z.eqb_neq; assumption).
      cbn [negb andb Z.eqb Pos.eqb] in Hbody.
      change ((0 <=? jig_id) && (jig_id <? Z.of_nat (length (jigs s))))
        with (is_valid_index jig_id (jigs s)) in Hbody.
      rewrite (at_index_Some_is_valid _ _ _ Hj), Hj, Hempty in Hbody.
      cbn [negb] in Hbody. rewrite Hneeded in Hbody.
      injection Hbody as <-. apply elem_of_app. right. constructor.
Qed.

Lemma enumerate_valid_params_complete s action x y found :
  action ∈ enumerated_pair_actions ->
  check_action_valid s action [x; y] = Some true ->
  enumerate_valid_params s action = Some found -> [x; y] ∈ found.
Proof.
  unfold enumerated_pair_actions. intros Hin.
  repeat (apply elem_of_cons in Hin as [-> | Hin]);
    eauto using enumerate_left_stack_rack_complete, enumerate_right_stack_rack_complete,
      enumerate_left_unstack_rack_complete, enumerate_right_unstack_rack_complete,
      enumerate_get_from_hangar_complete, enumerate_deliver_to_hangar_complete.
  inversion Hin.
Qed.

Lemma elem_of_tagged action found a p :
  (a, p) ∈ tagged action found <-> a = action /\ p ∈ found.
Proof.
  unfold tagged. rewrite list_elem_of_In, in_map_iff. split.
  - intros (param & [= <- <-] & Hin). split; [reflexivity | apply list_elem_of_In; assumption].
  - intros [-> Hin]. exists p. split; [reflexivity | apply list_elem_of_In; assumption].
Qed.

(** The list of [get_possible_actions], part by part. *)
Lemma possible_actions_parts s possible_actions :
  get_possible_actions s = Some possible_actions ->
  exists valid l1 l2 l3 l4 l6 l7,
    check_action_valid s "unload_beluga" [] = Some valid
    /\ enumerate_valid_params s "left_stack_rack" = Some l1
    /\ enumerate_valid_params s "right_stack_rack" = Some l2
    /\ enumerate_valid_params s "left_unstack_rack" = Some l3
    /\ enumerate_valid_params s "right_unstack_rack" = Some l4
    /\ enumerate_valid_params s "get_from_hangar" = Some l6
    /\ enumerate_valid_params s "deliver_to_hangar" = Some l7
    /\ possible_actions =
       (if valid then [("unload_beluga"%string, [])] else [])
       ++ tagged "left_stack_rack" l1 ++ tagged "right_stack_rack" l2
       ++ tagged "left_unstack_rack" l3 ++ tagged "right_unstack_rack" l4
       ++ tagged "get_from_hangar" l6 ++ tagged "deliver_to_hangar" l7.
Proof.
  unfold get_possible_actions, param_actions.
  cbn [for_each mbind option_bind].
  rewrite enumerate_valid_params_load_beluga. cbn [for_each mbind option_bind map].
  destruct (check_action_valid s "unload_beluga" []) as [valid |]; [| discriminate].
  destruct (enumerate_valid_params s "left_stack_rack") as [l1 |]; [| discriminate].
  destruct (enumerate_valid_params s "right_stack_rack") as [l2 |]; [| discriminate].
  destruct (enumerate_valid_params s "left_unstack_rack") as [l3 |]; [| discriminate].
  destruct (enumerate_valid_params s "right_unstack_rack") as [l4 |]; [| discriminate].
  destruct (enumerate_valid_params s "get_from_hangar") as [l6 |]; [| discriminate].
  destruct (enumerate_valid_params s "deliver_to_hangar") as [l7 |]; [| discriminate].
  intros [= <-]. exists valid, l1, l2, l3, l4, l6, l7.
  repeat (split; [reflexivity |]).
  unfold tagged. rewrite app_nil_r, <- !app_assoc. reflexivity.
Qed.

(** X11. When [get_possible_actions] returns, every action it lists is
    accepted by [check_action_valid]; and it lists [unload_beluga] when
    that is valid, and every valid pair of parameters of
    [left_stack_rack], [right_stack_rack], [left_unstack_rack],
    [right_unstack_rack], [get_from_hangar] and [deliver_to_hangar]. *)
Theorem possible_actions_sound_and_complete :
  forall (s : ProblemState) (possible_actions : list (string * list Z)),
    get_possible_actions s = Some possible_actions ->
    (forall a p, (a, p) ∈ possible_actions -> check_action_valid s a p = Some true)
    /\ (check_action_valid s "unload_beluga" [] = Some true ->
        ("unload_beluga"%string, []) ∈ possible_actions)
    /\ (forall a x y,
          a ∈ enumerated_pair_actions ->
          check_action_valid s a [x; y] = Some true ->
          (a, [x; y]) ∈ possible_actions).
Proof.
  intros s acts H.
  apply possible_actions_parts in H
    as (valid & l1 & l2 & l3 & l4 & l6 & l7 & Hu & H1 & H2 & H3 & H4 & H6 & H7 & ->).
  split; [| split].
  - intros a p Hin. rewrite !elem_of_app in Hin.
    repeat match goal with
           | H : _ \/ _ |- _ => destruct H as [H | H]
           end;
    try (apply elem_of_tagged in Hin as [-> Hin];
         match goal with
         | He : enumerate_valid_params s ?n = Some ?l, Hp : p ∈ ?l |- _ =>
             apply enumerate_valid_params_sound in He;
             rewrite Forall_forall in He; apply He; assumption
         end).
    destruct valid; [| inversion Hin].
    apply list_elem_of_singleton in Hin. injection Hin as -> ->. assumption.
  - intros Hvalid. rewrite Hu in Hvalid. injection Hvalid as ->.
    apply elem_of_app. left. constructor.
  - intros a x y Ha Hvalid. rewrite !elem_of_app, !elem_of_tagged.
    pose proof (fun found => enumerate_valid_params_complete s a x y found Ha Hvalid)
      as Hcomplete.
    unfold enumerated_pair_actions in Ha.
    repeat (apply elem_of_cons in Ha as [-> | Ha]); [.. | inversion Ha];
      auto 10.
Qed.

Lemma possible_actions_sound_and_complete_witness :
  (forall a p, (a, p) ∈ [("left_stack_rack"%string, [0; 0])] ->
               check_action_valid scenario_A_unloaded a p = Some true)
  /\ (check_action_valid scenario_A_unloaded "unload_beluga" [] = Some true ->
      ("unload_beluga"%string, []) ∈ [("left_stack_rack"%string, [0; 0])])
  /\ (forall a x y,
        a ∈ enumerated_pair_actions ->
        check_action_valid scenario_A_unloaded a [x; y] = Some true ->
        (a, [x; y]) ∈ [("left_stack_rack"%string, [0; 0])]).
Proof.
  apply (possible_actions_sound_and_complete scenario_A_unloaded).
  reflexivity.
Defined.

(** ** The order of scores *)

Lemma SFltb_trans (a b c : spec_float) :
  SFltb a b = true -> SFltb b c = true -> SFltb a c = true.
Proof.
  unfold SFltb, SFcompare.
  destruct a as [[] | [] | | [] ma ea], b as [[] | [] | | [] mb eb],
    c as [[] | [] | | [] mc ec]; try discriminate; try reflexivity;
    change (Pos.compare_cont Eq) with Pos.compare;
    destruct (Z.compare_spec ea eb), (Z.compare_spec eb ec), (Z.compare_spec ea ec);
    try discriminate; try reflexivity; try lia; subst;
    destruct (Pos.compare_spec ma mb), (Pos.compare_spec mb mc),
      (Pos.compare_spec ma mc);
    simpl; try discriminate; try reflexivity; try lia.
Qed.

Lemma SFltb_leb_trans (a b c : spec_float) :
  SFltb a b = true -> SFleb b c = true -> SFltb a c = true.
Proof.
  unfold SFltb, SFleb, SFcompare.
  destruct a as [[] | [] | | [] ma ea], b as [[] | [] | | [] mb eb],
    c as [[] | [] | | [] mc ec]; try discriminate; try reflexivity;
    change (Pos.compare_cont Eq) with Pos.compare;
    destruct (Z.compare_spec ea eb), (Z.compare_spec eb ec), (Z.compare_spec ea ec);
    try discriminate; try reflexivity; try lia; subst;
    destruct (Pos.compare_spec ma mb), (Pos.compare_spec mb mc),
      (Pos.compare_spec ma mc);
    simpl; try discriminate; try reflexivity; try lia.
Qed.

(** What the selection loop returns, given what it has seen so far. *)
Lemma best_child_loop_spec (score_of : MCTSNode.t -> spec_float) (kids : list MCTSNode.t) :
  forall (seen : list MCTSNode.t) (best_score : spec_float) (best : option MCTSNode.t),
    (forall k, k ∈ seen -> SFltb best_score (score_of k) = false) ->
    match best with
    | Some c =>
        score_of c = best_score
        /\ exists before after,
            seen = before ++ c :: after
            /\ forall k, k ∈ before -> SFleb (score_of c) (score_of k) = false
    | None => True
    end ->
    match MCTSNode.best_child_loop score_of kids best_score best with
    | Some c =>
        exists before after,
          seen ++ kids = before ++ c :: after
          /\ (forall k, k ∈ before -> SFleb (score_of c) (score_of k) = false)
          /\ (forall k, k ∈ seen ++ kids -> SFltb (score_of c) (score_of k) = false)
    | None =>
        best = None
        /\ forall k, k ∈ seen ++ kids -> SFltb best_score (score_of k) = false
    end.
Proof.
  induction kids as [| child rest IH]; intros seen best_score best Hseen Hbest; simpl.
  - rewrite app_nil_r. destruct best as [c |].
    + destruct Hbest as [Hscore (before & after & -> & Hbefore)].
      subst best_score. exists before, after. repeat split; auto.
    + auto.
  - replace (seen ++ child :: rest) with ((seen ++ [child]) ++ rest)
      by (rewrite <- app_assoc; reflexivity).
    destruct (SFltb best_score (score_of child)) eqn:Hlt.
    + assert (Hall : forall k, k ∈ seen ++ [child] ->
                       SFltb (score_of child) (score_of k) = false).
      { intros k Hk. apply elem_of_app in Hk as [Hk | Hk].
        - destruct (SFltb (score_of child) (score_of k)) eqn:Hck; [| reflexivity].
          specialize (Hseen k Hk).
          rewrite (SFltb_trans _ _ _ Hlt Hck) in Hseen. discriminate.
        - apply list_elem_of_singleton in Hk. subst k.
          destruct (SFltb (score_of child) (score_of child)) eqn:Hcc; [| reflexivity].
          unfold SFltb, SFcompare in Hcc.
          destruct (score_of child) as [[] | [] | | [] m e]; try discriminate;
            rewrite Z.compare_refl, Pos.compare_cont_refl in Hcc; discriminate. }
      assert (Hfirst : forall k, k ∈ seen ->
                         SFleb (score_of child) (score_of k) = false).
      { intros k Hk. destruct (SFleb (score_of child) (score_of k)) eqn:Hck; [| reflexivity].
        pose proof (SFltb_leb_trans _ _ _ Hlt Hck) as Hbad.
        rewrite (Hseen k Hk) in Hbad. discriminate. }
      pose proof (IH (seen ++ [child]) (score_of child) (Some child) Hall) as Hrest.
      destruct (MCTSNode.best_child_loop score_of rest (score_of child) (Some child)).
      * apply Hrest. split; [reflexivity |]. exists seen, []. auto.
      * destruct Hrest as [Hbad _]; [| discriminate].
        split; [reflexivity |]. exists seen, []. auto.
    + apply IH.
      * intros k Hk. apply elem_of_app in Hk as [Hk | Hk]; [auto |].
        apply list_elem_of_singleton in Hk. subst k. exact Hlt.
      * destruct best as [c |]; [| exact I].
        destruct Hbest as [Hscore (before & after & -> & Hbefore)].
        split; [exact Hscore |]. exists before, (after ++ [child]).
        split; [rewrite <- app_assoc; reflexivity | exact Hbefore].
Qed.

(** X12. [best_child] returns one of the children, and no child has a
    greater score than the one it returns; of the children with that
    score it returns the first: no child before it has a score greater
    than or equal to its own.  It returns the null pointer when there are
    no children, and otherwise only when no child has a score greater
    than the lowest [float], as when every score is not a number. *)
Theorem best_child_is_first_maximum :
  forall (log : spec_float -> spec_float) (n : MCTSNode.t) (w : spec_float),
    match MCTSNode.best_child log n w with
    | Some c =>
        exists before after,
          MCTSNode.children n = before ++ c :: after
          /\ (forall k, k ∈ before ->
                SFleb (MCTSNode.uct_score log n w c) (MCTSNode.uct_score log n w k) = false)
          /\ (forall k, k ∈ MCTSNode.children n ->
                SFltb (MCTSNode.uct_score log n w c) (MCTSNode.uct_score log n w k) = false)
    | None =>
        forall k, k ∈ MCTSNode.children n ->
          SFltb F32.lowest (MCTSNode.uct_score log n w k) = false
    end.
Proof.
  intros log n w. unfold MCTSNode.best_child.
  destruct (vec_empty (MCTSNode.children n)) eqn:Hempty.
  - apply vec_empty_true in Hempty. rewrite Hempty. intros k Hk. inversion Hk.
  - pose proof (best_child_loop_spec (MCTSNode.uct_score log n w) (MCTSNode.children n)
                  [] F32.lowest None) as Hloop.
    simpl in Hloop.
    destruct (MCTSNode.best_child_loop _ _ _ _) as [c |].
    + apply Hloop; [intros k Hk; inversion Hk | exact I].
    + apply Hloop; [intros k Hk; inversion Hk | exact I].
Qed.

(** ** Names [enumerate_valid_params] finds nothing for *)

Lemma for_each_fixed {A S} (items : list A) (body : A -> S -> option S) (acc : S) :
  (forall x, x ∈ items -> body x acc = Some acc) ->
  for_each items body acc = Some acc.
Proof.
  induction items as [| x items IH]; intros Hbody; [reflexivity |].
  simpl. rewrite (Hbody x) by constructor. simpl.
  apply IH. intros y Hy. apply Hbody. constructor. exact Hy.
Qed.

Lemma push_if_valid_unknown_name s action candidate :
  action ∉ action_names -> push_if_valid s action candidate [] = Some [].
Proof.
  intros Hname. unfold push_if_valid, check_action_valid, copy.
  rewrite apply_action_unknown_name by exact Hname. reflexivity.
Qed.

Lemma at_index_index {T} (vec : list T) (i : Z) :
  i ∈ indices vec -> exists x, at_index vec i = Some x.
Proof. intros Hi. apply elem_of_indices in Hi. apply at_index_is_Some in Hi. exact Hi. Qed.

Ltac dead_branch :=
  apply for_each_fixed; intros ? ?; apply for_each_fixed; intros ? ?;
  unfold mbind, option_bind;
  repeat match goal with
         | Hi : ?i ∈ indices ?vec |- context [at_index ?vec ?i] =>
             let x := fresh "x" in
             let Hx := fresh "Hx" in
             destruct (at_index_index vec i Hi) as [x Hx]; rewrite Hx
         end;
  repeat match goal with
         | |- context [push_if_valid ?s ?a ?c []] =>
             rewrite (push_if_valid_unknown_name s a c)
               by (intros Hin; apply list_elem_of_In in Hin; simpl in Hin;
                   intuition discriminate)
         end;
  repeat match goal with
         | |- context [if ?c then _ else _] => destruct c eqn:?
         | |- context [match at_index ?v ?i with _ => _ end] =>
             let Hv := fresh "Hv" in
             assert (Hv : is_valid_index i v = true)
               by (unfold is_valid_index; assumption);
             destruct (at_index_is_Some i v Hv) as [? ->]
         end;
  try reflexivity.

(** X13. [enumerate_valid_params] returns the empty list, on every
    snapshot, for every name other than [unload_beluga] and the six
    actions with a rack or a hangar: for [left_load], [right_load],
    [left_unload] and [right_unload], which have loops of their own, every
    candidate is refused by [check_action_valid], as [apply_action] knows
    no such action; for [load_beluga] and any other name there is no
    loop. *)
Theorem enumerate_valid_params_other_names :
  forall (s : ProblemState) (action : string),
    action ∉ "unload_beluga"%string :: enumerated_pair_actions ->
    enumerate_valid_params s action = Some [].
Proof.
  intros s action Hname. unfold enumerate_valid_params.
  repeat match goal with
         | |- context [String.eqb action ?n] =>
             destruct (String.eqb_spec action n) as [-> | _];
             [first [ exfalso; apply Hname; apply list_elem_of_In; simpl; tauto
                    | dead_branch ] |]
         end.
  reflexivity.
Qed.

Lemma enumerate_valid_params_other_names_witness :
  enumerate_valid_params scenario_A "left_unload" = Some [].
Proof.
  apply (enumerate_valid_params_other_names scenario_A "left_unload").
  intros Hin. apply list_elem_of_In in Hin. simpl in Hin. intuition discriminate.
Defined.

(** ** Counting the tree *)

Lemma tree_nodes_unfold (n : MCTSNode.t) :
  tree_nodes n = n :: forest_nodes (MCTSNode.children n).
Proof. destruct n. reflexivity. Qed.

Lemma forest_nodes_pop_length (n : MCTSNode.t) (rest : list MCTSNode.t) :
  length (forest_nodes (n :: rest))
  = S (length (forest_nodes (rest ++ MCTSNode.children n))).
Proof.
  unfold forest_nodes. simpl. rewrite tree_nodes_unfold, flat_map_app.
  unfold forest_nodes. simpl. rewrite !length_app. lia.
Qed.

Lemma forest_nodes_pop_elem (n k : MCTSNode.t) (rest : list MCTSNode.t) :
  k ∈ forest_nodes (n :: rest)
  <-> k = n \/ k ∈ forest_nodes (rest ++ MCTSNode.children n).
Proof.
  unfold forest_nodes.
  change (flat_map tree_nodes (n :: rest))
    with (tree_nodes n ++ flat_map tree_nodes rest).
  rewrite tree_nodes_unfold, flat_map_app. unfold forest_nodes.
  rewrite !elem_of_app, elem_of_cons. tauto.
Qed.

Lemma length_forest_nodes (queue : list MCTSNode.t) :
  (length queue <= length (forest_nodes queue))%nat.
Proof.
  induction queue as [| n rest IH]; [reflexivity |].
  unfold forest_nodes in *. simpl. rewrite tree_nodes_unfold, length_app. simpl. lia.
Qed.

Lemma count_nodes_loop_spec (fuel : nat) :
  forall (queue : list MCTSNode.t) (count : Z),
    0 <= count <= 1000000 ->
    Z.min (Z.of_nat (length (forest_nodes queue))) (1000001 - count) <= Z.of_nat fuel ->
    MCTS.count_nodes_loop fuel queue count
    = Returned (Z.min (count + Z.of_nat (length (forest_nodes queue))) 1000001).
Proof.
  induction fuel as [| fuel IH]; intros queue count Hcount Hfuel.
  - destruct queue as [| n rest].
    + simpl. f_equal. lia.
    + rewrite forest_nodes_pop_length in Hfuel. lia.
  - destruct queue as [| n rest].
    + simpl. f_equal. lia.
    + rewrite forest_nodes_pop_length in *.
      cbn -[Z.of_nat Z.add Z.gtb]. rewrite Z.gtb_ltb.
      destruct (1000000 <? count + 1) eqn:Hcap.
      * apply Z.ltb_lt in Hcap. f_equal. lia.
      * apply Z.ltb_ge in Hcap. rewrite IH by lia. f_equal. lia.
Qed.

(** X14. [count_nodes] returns the number of nodes of the tree, or
    1,000,001 when the tree has more nodes than that: the loop ends after
    as many rounds as the value it returns. *)
Theorem count_nodes_spec :
  forall (fuel : nat) (node : MCTSNode.t),
    Z.min (Z.of_nat (length (tree_nodes node))) 1000001 <= Z.of_nat fuel ->
    MCTS.count_nodes fuel node
    = Returned (Z.min (Z.of_nat (length (tree_nodes node))) 1000001).
Proof.
  intros fuel node Hfuel. unfold MCTS.count_nodes.
  assert (Hq : forest_nodes [node] = tree_nodes node)
    by (unfold forest_nodes; simpl; apply app_nil_r).
  rewrite count_nodes_loop_spec; rewrite ?Hq; [reflexivity | lia | lia].
Qed.

Lemma count_nodes_spec_witness :
  MCTS.count_nodes 2 scenario_A_tree
  = Returned (Z.min (Z.of_nat (length (tree_nodes scenario_A_tree))) 1000001).
Proof. apply (count_nodes_spec 2 scenario_A_tree). vm_compute. discriminate. Defined.

Lemma get_max_depth_loop_spec (fuel : nat) :
  forall (queue : list MCTSNode.t) (max_depth : Z),
    (length (forest_nodes queue) <= fuel)%nat ->
    Z.of_nat (length (forest_nodes queue)) <= 100001 ->
    exists r,
      MCTS.get_max_depth_loop fuel queue max_depth = Returned r
      /\ max_depth <= r
      /\ (forall k, k ∈ forest_nodes queue -> MCTSNode.depth k <= r)
      /\ (r = max_depth \/ exists k, k ∈ forest_nodes queue /\ MCTSNode.depth k = r).
Proof.
  induction fuel as [| fuel IH]; intros queue max_depth Hfuel Hsize.
  - destruct queue as [| n rest].
    + exists max_depth. simpl. repeat split; [lia | | auto].
      intros k Hk. inversion Hk.
    + rewrite forest_nodes_pop_length in Hfuel. lia.
  - destruct queue as [| n rest].
    + exists max_depth. simpl. repeat split; [lia | | auto].
      intros k Hk. inversion Hk.
    + rewrite forest_nodes_pop_length in Hfuel, Hsize.
      pose proof (length_forest_nodes (rest ++ MCTSNode.children n)) as Hlen.
      cbn -[Z.of_nat Z.gtb Z.max]. rewrite Z.gtb_ltb.
      replace (100000 <? Z.of_nat (length (rest ++ MCTSNode.children n))) with false
        by (symmetry; apply Z.ltb_ge; lia).
      destruct (IH (rest ++ MCTSNode.children n)
                  (Z.max max_depth (MCTSNode.depth n))) as (r & -> & Hge & Hall & Hhit);
        [lia | lia |].
      exists r. split; [reflexivity |]. split; [lia |]. split.
      * intros k Hk. apply forest_nodes_pop_elem in Hk as [-> | Hk]; [lia | auto].
      * destruct Hhit as [-> | (k & Hk & Hdepth)].
        -- destruct (Z.max_spec max_depth (MCTSNode.depth n)) as [[_ ->] | [_ ->]].
           ++ right. exists n. split; [| reflexivity].
              apply forest_nodes_pop_elem. left. reflexivity.
           ++ left. reflexivity.
        -- right. exists k. split; [| exact Hdepth].
           apply forest_nodes_pop_elem. right. exact Hk.
Qed.

(** X15. On a tree of at most 100,001 nodes [get_max_depth] returns the
    greatest [depth] field of the nodes of the tree, or 0 when every one
    of them is negative: the queue never exceeds 100,000 nodes there, and
    the loop ends after one round for each node. *)
Theorem get_max_depth_spec :
  forall (fuel : nat) (node : MCTSNode.t),
    (length (tree_nodes node) <= fuel)%nat ->
    Z.of_nat (length (tree_nodes node)) <= 100001 ->
    exists r,
      MCTS.get_max_depth fuel node = Returned r
      /\ 0 <= r
      /\ (forall k, k ∈ tree_nodes node -> MCTSNode.depth k <= r)
      /\ (r = 0 \/ exists k, k ∈ tree_nodes node /\ MCTSNode.depth k = r).
Proof.
  intros fuel node Hfuel Hsize. unfold MCTS.get_max_depth.
  assert (Hq : forest_nodes [node] = tree_nodes node)
    by (unfold forest_nodes; simpl; apply app_nil_r).
  rewrite <- Hq in *. apply get_max_depth_loop_spec; assumption.
Qed.

Lemma get_max_depth_spec_witness :
  exists r,
    MCTS.get_max_depth 2 scenario_A_tree = Returned r
    /\ 0 <= r
    /\ (forall k, k ∈ tree_nodes scenario_A_tree -> MCTSNode.depth k <= r)
    /\ (r = 0 \/ exists k, k ∈ tree_nodes scenario_A_tree /\ MCTSNode.depth k = r).
Proof.
  apply (get_max_depth_spec 2 scenario_A_tree); [simpl; lia | vm_compute; discriminate].
Defined.

(** ** Untried actions and expansion *)

Lemma same_action_spec (x y : string * list Z) :
  MCTSNode.same_action x y = true <-> x = y.
Proof.
  unfold MCTSNode.same_action. rewrite andb_true_iff, String.eqb_eq, bool_decide_eq_true.
  destruct x, y. simpl. split; [intros [-> ->]; reflexivity | intros [= -> ->]; auto].
Qed.

Lemma possible_actions_valid s possible_actions a p :
  get_possible_actions s = Some possible_actions ->
  (a, p) ∈ possible_actions -> check_action_valid s a p = Some true.
Proof.
  intros H Hin.
  apply possible_actions_parts in H
    as (valid & l1 & l2 & l3 & l4 & l6 & l7 & Hu & H1 & H2 & H3 & H4 & H6 & H7 & ->).
  rewrite !elem_of_app in Hin.
  repeat match goal with
         | H : _ \/ _ |- _ => destruct H as [H | H]
         end;
  try (apply elem_of_tagged in Hin as [-> Hin];
       match goal with
       | He : enumerate_valid_params s ?n = Some ?l, Hp : p ∈ ?l |- _ =>
           apply enumerate_valid_params_sound in He;
           rewrite Forall_forall in He; apply He; assumption
       end).
  destruct valid; [| inversion Hin].
  apply list_elem_of_singleton in Hin. injection Hin as -> ->. assumption.
Qed.

Lemma elem_of_filter_bool {A} (f : A -> bool) (l : list A) (x : A) :
  x ∈ List.filter f l <-> x ∈ l /\ f x = true.
Proof. rewrite !list_elem_of_In. rewrite filter_In. tauto. Qed.

(** X16. Every action that [get_untried_actions] returns, for the root
    as for any other node, is accepted by [check_action_valid] on the
    snapshot of the node and is the action of no child; so [expand] on it
    returns, and the child holds the snapshot after the accepted
    action. *)
Theorem untried_actions_are_valid :
  forall (is_root : bool) (n : MCTSNode.t) (untried : list (string * list Z))
         (a : string) (p : list Z),
    MCTSNode.get_untried_actions is_root n = Some untried ->
    (a, p) ∈ untried ->
    check_action_valid (MCTSNode.state n) a p = Some true
    /\ (forall child, child ∈ MCTSNode.children n -> MCTSNode.action child <> (a, p))
    /\ exists n' child,
         MCTSNode.expand n (a, p) = Some (n', child)
         /\ apply_action (MCTSNode.state n) a p = Some (true, MCTSNode.state child).
Proof.
  intros is_root n untried a p Hget Hin.
  assert (Hboth : check_action_valid (MCTSNode.state n) a p = Some true
                  /\ MCTSNode.action_tried n (a, p) = false).
  { unfold MCTSNode.get_untried_actions in Hget.
    destruct (_ && _ && _).
    - destruct (enumerate_valid_params _ _) as [all_params |] eqn:He; [| discriminate].
      injection Hget as <-. apply elem_of_filter_bool in Hin as [Hin Htried].
      apply elem_of_tagged in Hin as [-> Hin].
      apply enumerate_valid_params_sound in He. rewrite Forall_forall in He.
      split; [apply He; exact Hin | apply negb_true_iff; exact Htried].
    - destruct (get_possible_actions _) as [all |] eqn:Hall; [| discriminate].
      injection Hget as <-. apply elem_of_filter_bool in Hin as [Hin Htried].
      split; [eapply possible_actions_valid; eassumption
             | apply negb_true_iff; exact Htried]. }
  destruct Hboth as [Hvalid Htried]. split; [exact Hvalid |]. split.
  - intros child Hchild Heq. unfold MCTSNode.action_tried in Htried.
    assert (Hex : existsb (fun child => MCTSNode.same_action (MCTSNode.action child) (a, p))
                    (MCTSNode.children n) = true).
    { apply existsb_exists. exists child.
      split; [apply list_elem_of_In; exact Hchild | apply same_action_spec; exact Heq]. }
    congruence.
  - unfold check_action_valid, copy in Hvalid. unfold MCTSNode.expand, copy. simpl.
    destruct (apply_action (MCTSNode.state n) a p) as [[flag s'] |]; [| discriminate].
    injection Hvalid as ->. simpl. eexists _, _. split; reflexivity.
Qed.

Lemma untried_actions_are_valid_witness :
  check_action_valid (MCTSNode.state scenario_A_node) "unload_beluga" [] = Some true
  /\ (forall child, child ∈ MCTSNode.children scenario_A_node ->
        MCTSNode.action child <> ("unload_beluga"%string, []))
  /\ exists n' child,
       MCTSNode.expand scenario_A_node ("unload_beluga"%string, []) = Some (n', child)
       /\ apply_action (MCTSNode.state scenario_A_node) "unload_beluga" []
          = Some (true, MCTSNode.state child).
Proof.
  apply (untried_actions_are_valid true scenario_A_node [("unload_beluga"%string, [])]).
  - reflexivity.
  - constructor.
Defined.

Lemma filter_filter_bool {A} (f g : A -> bool) (l : list A) :
  List.filter (fun x => f x && g x) l = List.filter g (List.filter f l).
Proof.
  induction l as [| x l IH]; [reflexivity |]. simpl.
  destruct (f x); simpl; [destruct (g x); simpl; congruence | exact IH].
Qed.

Lemma filter_ext_bool {A} (f g : A -> bool) (l : list A) :
  (forall x, f x = g x) -> List.filter f l = List.filter g l.
Proof. intros H. induction l as [| x l IH]; simpl; [| rewrite H, IH]; reflexivity. Qed.

(** X17. [expand] takes the action it is given, and nothing else, off the
    untried actions of the node: afterwards [get_untried_actions] returns
    the list it returned before without the occurrences of that action,
    in the same order. *)
Theorem expand_removes_from_untried :
  forall (is_root : bool) (n n' child : MCTSNode.t) (candidate : string * list Z)
         (untried : list (string * list Z)),
    MCTSNode.expand n candidate = Some (n', child) ->
    MCTSNode.get_untried_actions is_root n = Some untried ->
    MCTSNode.get_untried_actions is_root n'
    = Some (List.filter (fun a => negb (MCTSNode.same_action candidate a)) untried)
    /\ MCTSNode.action_tried n' candidate = true.
Proof.
  intros is_root n n' child candidate untried Hexpand Hget.
  unfold MCTSNode.expand in Hexpand.
  destruct (apply_action _ _ _) as [applied |]; [| discriminate].
  simpl in Hexpand. injection Hexpand as <- <-.
  assert (Htried : forall a,
             MCTSNode.action_tried
               (MCTSNode.add_child n
                  (MCTSNode.new (snd applied) candidate (MCTSNode.depth n + 1))) a
             = MCTSNode.action_tried n a || MCTSNode.same_action candidate a).
  { intros a. unfold MCTSNode.action_tried, MCTSNode.add_child. simpl.
    rewrite existsb_app. simpl. rewrite orb_false_r. reflexivity. }
  split.
  - unfold MCTSNode.get_untried_actions in *. simpl.
    destruct (_ && _ && _).
    + destruct (enumerate_valid_params _ _) as [all_params |]; [| discriminate].
      injection Hget as <-. simpl. f_equal.
      rewrite <- filter_filter_bool. apply filter_ext_bool.
      intros a. rewrite Htried. apply negb_orb.
    + destruct (get_possible_actions _) as [all |]; [| discriminate].
      injection Hget as <-. simpl. f_equal.
      rewrite <- filter_filter_bool. apply filter_ext_bool.
      intros a. rewrite Htried. apply negb_orb.
  - rewrite Htried. apply orb_true_iff. right. apply same_action_spec. reflexivity.
Qed.

Lemma expand_removes_from_untried_witness :
  MCTSNode.get_untried_actions false scenario_A_tree
  = Some (List.filter
            (fun a => negb (MCTSNode.same_action ("unload_beluga"%string, []) a))
            [("unload_beluga"%string, [])])
  /\ MCTSNode.action_tried scenario_A_tree ("unload_beluga"%string, []) = true.
Proof.
  apply (expand_removes_from_untried false scenario_A_node scenario_A_tree
           (MCTSNode.new scenario_A_unloaded ("unload_beluga"%string, []) 2)
           ("unload_beluga"%string, []) [("unload_beluga"%string, [])]);
    reflexivity.
Defined.

(** ** What a loaded snapshot looks like *)

Lemma collect_Forall2 {A B} (f : A -> result B) (items : list A) (ys : list B) :
  collect f items = inr ys -> Forall2 (fun x y => f x = inr y) items ys.
Proof.
  revert ys. induction items as [| x items IH]; intros ys H; simpl in H.
  - injection H as <-. constructor.
  - unfold bind in H.
    destruct (f x) as [e | y] eqn:Hfx; [discriminate |].
    destruct (collect f items) as [e | ys'] eqn:Hrest; [discriminate |].
    injection H as <-. constructor; [exact Hfx | apply IH; reflexivity].
Qed.

Lemma collect_length {A B} (f : A -> result B) (items : list A) (ys : list B) :
  collect f items = inr ys -> length ys = length items.
Proof. intros H. apply collect_Forall2 in H. symmetry. eapply Forall2_length, H. Qed.

(** X18. A snapshot that [load_from_json] returns has one jig for each
    entry of the file in the order of the entries, one beluga for each
    flight with as many jigs and outgoing types as the flight lists, one
    production line for each schedule and one rack for each rack of the
    file with its size; every trailer and every hangar is empty, the
    counters are zero and the totals are the numbers of flights and of
    schedules.  So in every snapshot reached from it by actions,
    [belugas_finished] is the number of flights less the belugas left and
    [production_lines_finished] the number of schedules less the lines
    left. *)
Theorem load_from_json_shape :
  forall (path : string) (data : Scenario) (s0 : ProblemState),
    load_from_json path (Some data) = inr s0 ->
    Forall2 (fun (kv : string * JigEntry) jig =>
               get_type_from_string (entry_type (snd kv)) = inr (jig_type jig)
               /\ empty jig = entry_empty (snd kv))
      (sc_jigs data) (jigs s0)
    /\ Forall2 (fun f b =>
                  length (Beluga.current_jigs b) = length (flight_incoming f)
                  /\ length (Beluga.outgoing b) = length (flight_outgoing f))
         (sc_flights data) (belugas s0)
    /\ Forall2 (fun schedule line =>
                  length (ProductionLine.scheduled_jigs line) = length schedule)
         (sc_production_lines data) (production_lines s0)
    /\ Forall2 (fun r rack =>
                  Rack.size rack = entry_size r
                  /\ length (Rack.current_jigs rack) = length (entry_jigs r))
         (sc_racks data) (racks s0)
    /\ trailers_beluga s0 = replicate (sc_trailers_beluga data) (-1)
    /\ trailers_factory s0 = replicate (sc_trailers_factory data) (-1)
    /\ hangars s0 = replicate (sc_hangars data) (-1)
    /\ belugas_unloaded s0 = 0
    /\ forall s,
         reachable s0 s ->
         belugas_finished s
         = Z.of_nat (length (sc_flights data)) - Z.of_nat (length (belugas s))
         /\ production_lines_finished s
            = Z.of_nat (length (sc_production_lines data))
              - Z.of_nat (length (production_lines s)).
Proof.
  intros path data s0 H. unfold load_from_json, bind in H.
  destruct (collect _ (sc_jigs data)) as [| js] eqn:Hj; [discriminate |].
  destruct (collect _ (sc_flights data)) as [| bs] eqn:Hf; [discriminate |].
  destruct (collect _ (sc_production_lines data)) as [| ls] eqn:Hl; [discriminate |].
  destruct (collect _ (sc_racks data)) as [| rs] eqn:Hr; [discriminate |].
  injection H as <-. simpl.
  pose proof (collect_length _ _ _ Hf) as Hnf.
  pose proof (collect_length _ _ _ Hl) as Hnl.
  apply collect_Forall2 in Hj, Hf, Hl, Hr.
  repeat split; try reflexivity.
  - eapply Forall2_impl; [exact Hj |]. intros [key val] jig Hjig. simpl in *.
    unfold bind in Hjig.
    destruct (get_type_from_string (entry_type val)) as [| ty]; [discriminate |].
    injection Hjig as <-. auto.
  - eapply Forall2_impl; [exact Hf |]. intros f b Hb. simpl in Hb. unfold bind in Hb.
    destruct (collect extract_id_from_string _) as [| incoming] eqn:Hin; [discriminate |].
    destruct (collect get_type_from_string _) as [| outgoing] eqn:Hout; [discriminate |].
    injection Hb as <-. simpl.
    split; eapply collect_length; eassumption.
  - eapply Forall2_impl; [exact Hl |]. intros schedule line Hline. simpl in Hline.
    unfold bind in Hline.
    destruct (collect extract_id_from_string _) as [| ids] eqn:Hids; [discriminate |].
    injection Hline as <-. simpl. eapply collect_length; eassumption.
  - eapply Forall2_impl; [exact Hr |]. intros r rack Hrack. simpl in Hrack.
    unfold bind in Hrack.
    destruct (collect extract_id_from_string _) as [| storage] eqn:Hst; [discriminate |].
    injection Hrack as <-. simpl. split; [reflexivity |].
    eapply collect_length; eassumption.
  - apply reachable_counters in H. simpl in H. lia.
  - apply reachable_counters in H. simpl in H. lia.
Qed.

Lemma load_from_json_shape_witness :
  Forall2 (fun (kv : string * JigEntry) jig =>
             get_type_from_string (entry_type (snd kv)) = inr (jig_type jig)
             /\ empty jig = entry_empty (snd kv))
    (sc_jigs scenario_C) (jigs scenario_C_state)
  /\ Forall2 (fun f b =>
                length (Beluga.current_jigs b) = length (flight_incoming f)
                /\ length (Beluga.outgoing b) = length (flight_outgoing f))
       (sc_flights scenario_C) (belugas scenario_C_state)
  /\ Forall2 (fun schedule line =>
                length (ProductionLine.scheduled_jigs line) = length schedule)
       (sc_production_lines scenario_C) (production_lines scenario_C_state)
  /\ Forall2 (fun r rack =>
                Rack.size rack = entry_size r
                /\ length (Rack.current_jigs rack) = length (entry_jigs r))
       (sc_racks scenario_C) (racks scenario_C_state)
  /\ trailers_beluga scenario_C_state = replicate (sc_trailers_beluga scenario_C) (-1)
  /\ trailers_factory scenario_C_state = replicate (sc_trailers_factory scenario_C) (-1)
  /\ hangars scenario_C_state = replicate (sc_hangars scenario_C) (-1)
  /\ belugas_unloaded scenario_C_state = 0
  /\ forall s,
       reachable scenario_C_state s ->
       belugas_finished s
       = Z.of_nat (length (sc_flights scenario_C)) - Z.of_nat (length (belugas s))
       /\ production_lines_finished s
          = Z.of_nat (length (sc_production_lines scenario_C))
            - Z.of_nat (length (production_lines s)).
Proof. apply (load_from_json_shape "c.json" scenario_C scenario_C_state). reflexivity. Defined.

(** ** The observation *)

Lemma observe_trailer_Some s needed i out out' :
  0 <= i ->
  observe_trailer s needed i out = Some out' ->
  exists v, out' = assign out (1 + i) v /\ slot_reading s i v.
Proof.
  intros Hi H. unfold observe_trailer in H. unfold slot_reading.
  destruct (i <? Z.of_nat (length (trailers_beluga s))) eqn:Hlen.
  - unfold mbind, option_bind in H.
    destruct (at_index (trailers_beluga s) i) as [on_trailer |]; [| discriminate].
    destruct (on_trailer =? -1); [injection H as <-; eauto |].
    destruct (at_index (jigs s) on_trailer) as [jig |]; [| discriminate].
    destruct (empty jig); [| injection H as <-; eauto].
    destruct (at_index out 0) as [out0 |]; [| discriminate].
    destruct (SFeqb out0 F32.zero); [| injection H as <-; eauto].
    destruct (existsb _ needed); injection H as <-; eauto.
  - injection H as <-. exists float_minus_one. split; [reflexivity |].
    unfold at_index, is_valid_index. rewrite Hlen, andb_false_r. reflexivity.
Qed.

Lemma observe_trailer_is_Some s needed i out :
  0 <= i ->
  is_Some (at_index out 0) ->
  is_Some (observe_trailer s needed i out)
  <-> (forall on_trailer,
         at_index (trailers_beluga s) i = Some on_trailer ->
         on_trailer <> -1 ->
         is_valid_index on_trailer (jigs s) = true).
Proof.
  intros Hi [out0 Hout0]. unfold observe_trailer.
  destruct (i <? Z.of_nat (length (trailers_beluga s))) eqn:Hlen.
  - assert (Hv : is_valid_index i (trailers_beluga s) = true)
      by (apply is_valid_index_spec; apply Z.ltb_lt in Hlen; lia).
    destruct (at_index_is_Some _ _ Hv) as [on_trailer Ht]. rewrite Ht. simpl.
    destruct (on_trailer =? -1) eqn:He.
    + apply Z.eqb_eq in He. split; [intros _ t [= <-] Hne; contradiction | eauto].
    + apply Z.eqb_neq in He.
      destruct (at_index (jigs s) on_trailer) as [jig |] eqn:Hjig; simpl.
      * split; [intros _ t [= <-] _; eapply at_index_Some_is_valid; eassumption |].
        intros _. destruct (empty jig); [| eauto]. rewrite Hout0. simpl.
        destruct (SFeqb out0 F32.zero); eauto.
      * split; [intros [x Hx]; discriminate |].
        intros Hknown. specialize (Hknown on_trailer eq_refl He).
        apply at_index_is_Some in Hknown. rewrite Hjig in Hknown.
        destruct Hknown as [x Hx]. discriminate.
  - split; [| eauto]. intros _ t Ht.
    apply at_index_Some_is_valid, is_valid_index_spec in Ht.
    apply Z.ltb_ge in Hlen. lia.
Qed.

Lemma float_max_zero_not_minus_one (x : spec_float) :
  float_max F32.zero x <> float_minus_one.
Proof.
  unfold float_max. destruct (SFltb F32.zero x) eqn:Hlt; [| discriminate].
  intros ->. discriminate.
Qed.

(** X19. [get_observation_high_level] has a result exactly when every
    jig on one of the first three beluga trailers is in the registry; the
    result depends on the registry, the belugas and the beluga trailers
    only.  It has forty entries.  Entry 0 is -1 exactly when there is no
    beluga; entry [1 + i], for [i] below three, is -1 when there is no
    beluga trailer [i], 0.5 when the trailer is empty, and 0, 0.25 or 1
    otherwise; the thirty-six entries from 4 on are 0. *)
Theorem get_observation_high_level_spec :
  forall s : ProblemState,
    (is_Some (get_observation_high_level s) <-> observed_trailers_known s)
    /\ (forall s',
          jigs s' = jigs s -> belugas s' = belugas s ->
          trailers_beluga s' = trailers_beluga s ->
          get_observation_high_level s' = get_observation_high_level s)
    /\ forall out,
         get_observation_high_level s = Some out ->
         length out = 40%nat
         /\ (at_index out 0 = Some float_minus_one <-> belugas s = [])
         /\ (forall i, 0 <= i < 3 ->
               exists v, at_index out (1 + i) = Some v /\ slot_reading s i v)
         /\ (forall i, 4 <= i < 40 -> at_index out i = Some F32.zero).
Proof.
  intros s. split; [| split].
  - unfold get_observation_high_level.
    destruct (match belugas s with [] => _ | _ => _ end) as [out needed] eqn:Hstart.
    assert (Hlen : length out = 40%nat).
    { destruct (belugas s); injection Hstart as <- _; rewrite length_assign; reflexivity. }
    clear Hstart. unfold observed_trailers_known. simpl. unfold mbind, option_bind.
    assert (Hzero : forall o : list spec_float, length o = 40%nat -> is_Some (at_index o 0)).
    { intros o Ho. apply at_index_is_Some, is_valid_index_spec. lia. }
    split.
    + intros Hsome i t Hi.
      destruct (observe_trailer s needed 0 out) as [out1 |] eqn:H0;
        [| destruct Hsome; discriminate].
      destruct (observe_trailer s needed 1 out1) as [out2 |] eqn:H1;
        [| destruct Hsome; discriminate].
      destruct (observe_trailer s needed 2 out2) as [out3 |] eqn:H2;
        [| destruct Hsome; discriminate].
      pose proof H0 as H0'. pose proof H1 as H1'.
      apply observe_trailer_Some in H0' as (v0 & -> & _); [| lia].
      apply observe_trailer_Some in H1' as (v1 & -> & _); [| lia].
      assert (i = 0 \/ i = 1 \/ i = 2) as [-> | [-> | ->]] by lia.
      * apply (observe_trailer_is_Some s needed 0 out); [lia | auto | rewrite H0; eauto].
      * apply (observe_trailer_is_Some s needed 1 (assign out (1 + 0) v0));
          [lia | apply Hzero; rewrite length_assign; exact Hlen | rewrite H1; eauto].
      * apply (observe_trailer_is_Some s needed 2
                 (assign (assign out (1 + 0) v0) (1 + 1) v1));
          [lia | apply Hzero; rewrite !length_assign; exact Hlen | rewrite H2; eauto].
    + intros Hknown.
      destruct (proj2 (observe_trailer_is_Some s needed 0 out ltac:(lia) (Hzero _ Hlen)))
        as [out1 H0]; [intros t; apply Hknown; lia |].
      rewrite H0. apply observe_trailer_Some in H0 as (v0 & -> & _); [| lia].
      destruct (proj2 (observe_trailer_is_Some s needed 1 (assign out (1 + 0) v0)
                         ltac:(lia) ltac:(apply Hzero; rewrite length_assign; exact Hlen)))
        as [out2 H1]; [intros t; apply Hknown; lia |].
      rewrite H1. apply observe_trailer_Some in H1 as (v1 & -> & _); [| lia].
      destruct (proj2 (observe_trailer_is_Some s needed 2
                         (assign (assign out (1 + 0) v0) (1 + 1) v1)
                         ltac:(lia)
                         ltac:(apply Hzero; rewrite !length_assign; exact Hlen)))
        as [out3 H2]; [intros t; apply Hknown; lia |].
      rewrite H2. eauto.
  - intros s' Hj Hb Ht. unfold get_observation_high_level, observe_trailer.
    rewrite Hj, Hb, Ht. reflexivity.
  - intros out H. unfold get_observation_high_level in H.
    destruct (match belugas s with [] => _ | _ => _ end) as [start needed] eqn:Hstart.
    assert (Hfirst : exists v0,
               start = assign (replicate 40 F32.zero) 0 v0
               /\ (v0 = float_minus_one <-> belugas s = [])).
    { destruct (belugas s) as [| beluga rest]; injection Hstart as <- _.
      - exists float_minus_one. split; [reflexivity | tauto].
      - eexists. split; [reflexivity |]. split; [| discriminate].
        intros Hbad. apply float_max_zero_not_minus_one in Hbad. contradiction. }
    destruct Hfirst as (v & -> & Hv). clear Hstart.
    simpl in H. unfold mbind, option_bind in H.
    destruct (observe_trailer s needed 0 _) as [out1 |] eqn:H0; [| discriminate].
    destruct (observe_trailer s needed 1 out1) as [out2 |] eqn:H1; [| discriminate].
    destruct (observe_trailer s needed 2 out2) as [out3 |] eqn:H2; [| discriminate].
    injection H as <-.
    apply observe_trailer_Some in H0 as (v0 & -> & Hs0); [| lia].
    apply observe_trailer_Some in H1 as (v1 & -> & Hs1); [| lia].
    apply observe_trailer_Some in H2 as (v2 & -> & Hs2); [| lia].
    assert (Hvalid : forall i, 0 <= i < 40 ->
              is_valid_index i (replicate 40 F32.zero) = true)
      by (intros i Hi; apply is_valid_index_spec; simpl; lia).
    split; [rewrite !length_assign; reflexivity |]. split; [| split].
    + rewrite !at_index_assign_ne by lia.
      rewrite at_index_assign_eq by (apply Hvalid; lia).
      rewrite <- Hv. split; congruence.
    + intros i Hi. assert (i = 0 \/ i = 1 \/ i = 2) as [-> | [-> | ->]] by lia.
      * exists v0. split; [| exact Hs0].
        rewrite !at_index_assign_ne by lia.
        apply at_index_assign_eq. rewrite is_valid_index_assign. apply Hvalid. lia.
      * exists v1. split; [| exact Hs1].
        rewrite !at_index_assign_ne by lia.
        apply at_index_assign_eq. rewrite !is_valid_index_assign. apply Hvalid. lia.
      * exists v2. split; [| exact Hs2].
        apply at_index_assign_eq. rewrite !is_valid_index_assign. apply Hvalid. lia.
    + intros i Hi. rewrite !at_index_assign_ne by lia.
      unfold at_index. rewrite Hvalid by lia.
      apply (lookup_replicate_2 40%nat F32.zero (Z.to_nat i)). lia.
Qed.

(** ** The first jig on a rack *)

Lemma get_free_space_first_jig (r : Rack.t) (all_jigs : list Jig) :
  0 ∈ Rack.current_jigs r -> Rack.get_free_space r all_jigs = None.
Proof.
  intros Hin. unfold Rack.get_free_space.
  destruct (Rack.used_space all_jigs (Rack.current_jigs r) 0) as [used |] eqn:Hused;
    [| reflexivity].
  apply used_space_Some in Hused as [Hids _].
  rewrite Forall_forall in Hids. specialize (Hids 0 Hin). lia.
Qed.

Lemma left_stack_rack_unreadable s rack r t jig_id :
  at_index (racks s) rack = Some r ->
  Rack.get_free_space r (jigs s) = None ->
  at_index (trailers_beluga s) t = Some jig_id ->
  jig_id <> -1 ->
  is_valid_index jig_id (jigs s) = true ->
  Action.left_stack_rack s rack t = None.
Proof.
  intros Hr Hfree Ht Hne Hvalid. unfold Action.left_stack_rack.
  rewrite (at_index_Some_is_valid _ _ _ Hr), (at_index_Some_is_valid _ _ _ Ht).
  simpl. rewrite Ht. simpl.
  replace (jig_id =? -1) with false by (symmetry; apply Z.eqb_neq; exact Hne).
  rewrite Hvalid. simpl.
  destruct (at_index_is_Some _ _ Hvalid) as [jig ->]. simpl.
  rewrite Hr. simpl. rewrite Hfree. reflexivity.
Qed.

Lemma right_stack_rack_unreadable s rack r t jig_id :
  at_index (racks s) rack = Some r ->
  Rack.get_free_space r (jigs s) = None ->
  at_index (trailers_factory s) t = Some jig_id ->
  jig_id <> -1 ->
  is_valid_index jig_id (jigs s) = true ->
  Action.right_stack_rack s rack t = None.
Proof.
  intros Hr Hfree Ht Hne Hvalid. unfold Action.right_stack_rack.
  rewrite (at_index_Some_is_valid _ _ _ Hr), (at_index_Some_is_valid _ _ _ Ht).
  simpl. rewrite Ht. simpl.
  replace (jig_id =? -1) with false by (symmetry; apply Z.eqb_neq; exact Hne).
  rewrite Hvalid. simpl.
  destruct (at_index_is_Some _ _ Hvalid) as [jig ->]. simpl.
  rewrite Hr. simpl. rewrite Hfree. reflexivity.
Qed.

(** X20. Jig ids start at 0, and [get_free_space] reads one place before
    the id.  So once the first jig, of id 0, has been stacked on a rack,
    from either side, [get_free_space] of that rack reads outside the
    registry, and so does every later [left_stack_rack] or
    [right_stack_rack] of a jig of the registry onto that rack. *)
Theorem stacking_first_jig_breaks_rack :
  forall (s s' : ProblemState) (rack trailer_id : Z),
    (Action.left_stack_rack s rack trailer_id = Some (true, s')
     /\ at_index (trailers_beluga s) trailer_id = Some 0)
    \/ (Action.right_stack_rack s rack trailer_id = Some (true, s')
        /\ at_index (trailers_factory s) trailer_id = Some 0) ->
    (exists r, at_index (racks s') rack = Some r
               /\ Rack.get_free_space r (jigs s') = None)
    /\ (forall t jig_id,
          at_index (trailers_beluga s') t = Some jig_id ->
          jig_id <> -1 ->
          is_valid_index jig_id (jigs s') = true ->
          Action.left_stack_rack s' rack t = None)
    /\ (forall t jig_id,
          at_index (trailers_factory s') t = Some jig_id ->
          jig_id <> -1 ->
          is_valid_index jig_id (jigs s') = true ->
          Action.right_stack_rack s' rack t = None).
Proof.
  intros s s' rack trailer_id H.
  assert (Hrack : exists r, at_index (racks s') rack = Some r
                            /\ Rack.get_free_space r (jigs s') = None).
  { destruct H as [[H Hzero] | [H Hzero]].
    - apply left_stack_rack_true in H
        as (jig_id & the_rack & Hr & _ & Ht & _ & ->).
      rewrite Hzero in Ht. injection Ht as <-.
      eexists. split.
      + simpl. apply at_index_assign_eq. exact Hr.
      + apply get_free_space_first_jig. simpl. constructor.
    - apply right_stack_rack_true in H
        as (jig_id & the_rack & Hr & _ & Ht & _ & ->).
      rewrite Hzero in Ht. injection Ht as <-.
      eexists. split.
      + simpl. apply at_index_assign_eq. exact Hr.
      + apply get_free_space_first_jig. simpl.
        apply elem_of_app. right. constructor. }
  destruct Hrack as (r & Hr & Hfree).
  split; [eauto |]. split; intros t jig_id Ht Hne Hvalid.
  - eapply left_stack_rack_unreadable; eassumption.
  - eapply right_stack_rack_unreadable; eassumption.
Qed.

Lemma stacking_first_jig_breaks_rack_witness :
  (exists r, at_index (racks scenario_A_stacked) 0 = Some r
             /\ Rack.get_free_space r (jigs scenario_A_stacked) = None)
  /\ (forall t jig_id,
        at_index (trailers_beluga scenario_A_stacked) t = Some jig_id ->
        jig_id <> -1 ->
        is_valid_index jig_id (jigs scenario_A_stacked) = true ->
        Action.left_stack_rack scenario_A_stacked 0 t = None)
  /\ (forall t jig_id,
        at_index (trailers_factory scenario_A_stacked) t = Some jig_id ->
        jig_id <> -1 ->
        is_valid_index jig_id (jigs scenario_A_stacked) = true ->
        Action.right_stack_rack scenario_A_stacked 0 t = None).
Proof.
  apply (stacking_first_jig_breaks_rack scenario_A_unloaded scenario_A_stacked 0 0).
  left. split; reflexivity.
Defined.

(** ** Jigs are moved, never copied *)

Lemma hit_other (j x : Z) : j <> x -> hit j x = 0.
Proof. intros H. unfold hit. destruct (Z.eqb_spec j x); [contradiction | reflexivity]. Qed.

Lemma hit_range (j x : Z) : 0 <= hit j x <= 1.
Proof. unfold hit. destruct (j =? x); lia. Qed.

Lemma copies_nil (j : Z) : copies j [] = 0.
Proof. reflexivity. Qed.

Lemma copies_cons (j x : Z) (ids : list Z) : copies j (x :: ids) = hit j x + copies j ids.
Proof.
  unfold copies, hit. simpl. destruct (j =? x); simpl length; lia.
Qed.

Lemma copies_app (j : Z) (a b : list Z) : copies j (a ++ b) = copies j a + copies j b.
Proof. unfold copies. rewrite List.filter_app, length_app. lia. Qed.

Lemma at_index_split {T} (vec : list T) (i : Z) (x y : T) :
  at_index vec i = Some x ->
  exists front back, vec = front ++ x :: back /\ assign vec i y = front ++ y :: back.
Proof.
  intros H. apply at_index_Some_valid in H as [Hv Hl].
  exists (take (Z.to_nat i) vec), (drop (S (Z.to_nat i)) vec).
  split; [symmetry; apply take_drop_middle; exact Hl |].
  unfold assign. rewrite Hv. apply insert_take_drop.
  apply is_valid_index_spec in Hv. lia.
Qed.

Lemma copies_assign (j : Z) (ids : list Z) (i old new : Z) :
  at_index ids i = Some old ->
  copies j (assign ids i new) = copies j ids - hit j old + hit j new.
Proof.
  intros H. destruct (at_index_split ids i old new H) as (front & back & Hids & ->).
  rewrite Hids, !copies_app, !copies_cons. lia.
Qed.

Lemma copies_flat_assign {T} (f : T -> list Z) (j : Z) (vec : list T) (i : Z)
    (old new : T) :
  at_index vec i = Some old ->
  copies j (flat_map f (assign vec i new))
  = copies j (flat_map f vec) - copies j (f old) + copies j (f new).
Proof.
  intros H. destruct (at_index_split vec i old new H) as (front & back & Hvec & ->).
  rewrite Hvec, !flat_map_app. simpl. rewrite !copies_app. lia.
Qed.

Ltac located_goal :=
  unfold located, beluga_complete, set_rack, set_trailer_beluga, set_trailer_factory,
    set_hangar, set_jig, set_beluga, set_production_line, remove_production_line;
  cbn -[Z.of_nat Z.add Z.sub assign erase_at copies flat_map].

Lemma left_stack_rack_moves s r t b s' j :
  j <> -1 -> Action.left_stack_rack s r t = Some (b, s') -> located j s' = located j s.
Proof.
  intros Hj H. destruct b; [| apply left_stack_rack_refused in H as ->; reflexivity].
  apply left_stack_rack_true in H as (jig_id & the_rack & _ & _ & Ht & Hr & ->).
  located_goal.
  rewrite (copies_assign _ _ _ _ _ Ht), (copies_flat_assign _ _ _ _ _ _ Hr).
  simpl. rewrite copies_cons, (hit_other j (-1)) by exact Hj. lia.
Qed.

Lemma right_stack_rack_moves s r t b s' j :
  j <> -1 -> Action.right_stack_rack s r t = Some (b, s') -> located j s' = located j s.
Proof.
  intros Hj H. destruct b; [| apply right_stack_rack_refused in H as ->; reflexivity].
  apply right_stack_rack_true in H as (jig_id & the_rack & _ & _ & Ht & Hr & ->).
  located_goal.
  rewrite (copies_assign _ _ _ _ _ Ht), (copies_flat_assign _ _ _ _ _ _ Hr).
  simpl. rewrite copies_app, copies_cons, copies_nil, (hit_other j (-1)) by exact Hj. lia.
Qed.

Lemma left_unstack_rack_moves s r t b s' j :
  j <> -1 -> Action.left_unstack_rack s r t = Some (b, s') -> located j s' = located j s.
Proof.
  intros Hj H. destruct b; [| apply left_unstack_rack_refused in H as ->; reflexivity].
  apply left_unstack_rack_true in H as (the_rack & j0 & rest & Ht & Hr & Hjigs & ->).
  located_goal.
  rewrite (copies_assign _ _ _ _ _ Ht), (copies_flat_assign _ _ _ _ _ _ Hr).
  simpl. rewrite Hjigs, copies_cons, (hit_other j (-1)) by exact Hj. lia.
Qed.

Lemma right_unstack_rack_moves s r t b s' j :
  j <> -1 -> Action.right_unstack_rack s r t = Some (b, s') -> located j s' = located j s.
Proof.
  intros Hj H. destruct b; [| apply right_unstack_rack_refused in H as ->; reflexivity].
  apply right_unstack_rack_true in H as (the_rack & front & j0 & Ht & Hr & Hjigs & ->).
  located_goal.
  rewrite (copies_assign _ _ _ _ _ Ht), (copies_flat_assign _ _ _ _ _ _ Hr).
  simpl. rewrite Hjigs, copies_app, copies_cons, copies_nil, (hit_other j (-1))
    by exact Hj.
  lia.
Qed.

Lemma get_from_hangar_moves s h t b s' j :
  j <> -1 -> Action.get_from_hangar s h t = Some (b, s') -> located j s' = located j s.
Proof.
  intros Hj H. destruct b; [| apply get_from_hangar_refused in H as ->; reflexivity].
  apply get_from_hangar_true in H as (jig_id & jig & Hh & _ & Ht & _ & _ & ->).
  located_goal.
  rewrite (copies_assign _ _ _ _ _ Ht), (copies_assign _ _ _ _ _ Hh).
  rewrite (hit_other j (-1)) by exact Hj. lia.
Qed.

Lemma deliver_to_hangar_moves s h t b s' j :
  j <> -1 -> Action.deliver_to_hangar s h t = Some (b, s') -> located j s' = located j s.
Proof.
  intros Hj H. destruct b; [| apply deliver_to_hangar_refused in H as ->; reflexivity].
  apply deliver_to_hangar_true in H
    as (jig_id & jig & idx & line & Hh & Ht & _ & _ & _ & _ & _ & _ & ->).
  cbn zeta. destruct (vec_empty _); located_goal;
    rewrite (copies_assign _ _ _ _ _ Ht), (copies_assign _ _ _ _ _ Hh);
    rewrite (hit_other j (-1)) by exact Hj; lia.
Qed.

Lemma unload_beluga_moves s b s' j :
  j <> -1 -> Action.unload_beluga s = Some (b, s') -> located j s' = located j s.
Proof.
  intros Hj H. destruct b; [| apply unload_beluga_refused in H as ->; reflexivity].
  apply unload_beluga_true in H as (beluga & rest & front & j0 & slot & Hb & Hcur & Hslot & ->).
  assert (Ht : at_index (trailers_beluga s) (Z.of_nat slot) = Some (-1)).
  { unfold at_index. rewrite Nat2Z.id, Hslot.
    replace (is_valid_index _ _) with true; [reflexivity |].
    symmetry. apply is_valid_index_spec. apply lookup_lt_Some in Hslot. lia. }
  cbn zeta.
  destruct front as [| f front];
    [destruct (Beluga.outgoing beluga) as [| o outs] eqn:Ho |];
    located_goal; rewrite Hb, ?assign_head;
    cbn -[Z.of_nat Z.add Z.sub assign erase_at copies flat_map]; rewrite ?Ho;
    cbn -[Z.of_nat Z.add Z.sub assign erase_at copies flat_map];
    rewrite (copies_assign _ _ _ _ _ Ht);
    cbn [flat_map Beluga.current_jigs]; rewrite ?Hcur, ?copies_app, ?copies_cons,
      ?copies_nil, (hit_other j (-1)) by exact Hj; lia.
Qed.

Lemma load_beluga_moves s t n b s' j :
  j <> -1 ->
  Action.load_beluga s t n = Some (b, s') ->
  located j s - 1 <= located j s' <= located j s.
Proof.
  intros Hj H. destruct b; [| apply load_beluga_refused in H as ->; lia].
  apply load_beluga_true in H
    as (jig_id & jig & beluga & rest & o & outs & Ht & _ & _ & _ & Hb & Hcur & _ & _ & ->).
  pose proof (hit_range j jig_id) as Hhit.
  cbn zeta.
  destruct outs as [| o' outs];
    located_goal; rewrite Hb, ?assign_head;
    cbn -[Z.of_nat Z.add Z.sub assign erase_at copies flat_map];
    rewrite (copies_assign _ _ _ _ _ Ht);
    cbn [flat_map Beluga.current_jigs]; rewrite ?Hcur, ?copies_app, ?copies_cons,
      ?copies_nil, (hit_other j (-1)) by exact Hj; lia.
Qed.

Lemma apply_action_moves s action_name params b s' j :
  j <> -1 ->
  apply_action s action_name params = Some (b, s') ->
  located j s - 1 <= located j s' <= located j s
  /\ (action_name <> "load_beluga"%string -> located j s' = located j s).
Proof.
  intros Hj. unfold apply_action, mbind, option_bind.
  repeat match goal with
         | |- context [match ?x with _ => _ end] => destruct x eqn:?; simpl
         end;
  intros H; simplify_eq;
  try (assert (located j s' = located j s)
         by eauto using left_stack_rack_moves, right_stack_rack_moves,
              left_unstack_rack_moves, right_unstack_rack_moves,
              get_from_hangar_moves, deliver_to_hangar_moves, unload_beluga_moves;
       split; [lia | auto]);
  try (split; [lia | reflexivity]).
  all: split; [eapply load_beluga_moves; eassumption |].
  all: intros Hname; exfalso; apply Hname.
  all: match goal with
       | H : String.eqb _ "load_beluga" && _ = true |- _ =>
           apply andb_true_iff in H as [H _]; apply String.eqb_eq in H; exact H
       end.
Qed.

(** X21. An action moves jigs and never copies one: for every jig id
    ([-1] marks an empty slot and is none), the number of places that
    hold it (belugas, trailers, racks, hangars) is the same after any
    action as before, except that [load_beluga] may take one away, the
    jig it loads.  So along any run a jig is never in more places than at
    the start. *)
Theorem jigs_are_moved_not_copied :
  forall j : Z,
    j <> -1 ->
    (forall s action_name params b s',
       apply_action s action_name params = Some (b, s') ->
       located j s - 1 <= located j s' <= located j s
       /\ (action_name <> "load_beluga"%string -> located j s' = located j s))
    /\ (forall s0 s, reachable s0 s -> located j s <= located j s0).
Proof.
  intros j Hj. split.
  - intros s action_name params b s'. apply apply_action_moves. exact Hj.
  - intros s0 s H. induction H as [| s action_name params b s' _ IH Hstep]; [lia |].
    apply (apply_action_moves _ _ _ _ _ j Hj) in Hstep. lia.
Qed.

Lemma jigs_are_moved_not_copied_witness :
  (forall s action_name params b s',
     apply_action s action_name params = Some (b, s') ->
     located 0 s - 1 <= located 0 s' <= located 0 s
     /\ (action_name <> "load_beluga"%string -> located 0 s' = located 0 s))
  /\ (forall s0 s, reachable s0 s -> located 0 s <= located 0 s0).
Proof. apply (jigs_are_moved_not_copied 0). discriminate. Defined.

(** ** The best path *)

Lemma best_child_is_child (log : spec_float -> spec_float) (n c : MCTSNode.t)
    (w : spec_float) :
  MCTSNode.best_child log n w = Some c -> c ∈ MCTSNode.children n.
Proof.
  unfold MCTSNode.best_child. destruct (vec_empty (MCTSNode.children n)); [discriminate |].
  intros H.
  pose proof (best_child_loop_spec (MCTSNode.uct_score log n w) (MCTSNode.children n)
                [] F32.lowest None) as Hloop.
  rewrite H in Hloop. simpl in Hloop.
  destruct Hloop as (before & after & -> & _); [intros k Hk; inversion Hk | exact I |].
  apply elem_of_app. right. constructor.
Qed.

Lemma tree_nodes_child (n c : MCTSNode.t) :
  c ∈ MCTSNode.children n ->
  (length (tree_nodes c) < length (tree_nodes n))%nat
  /\ forall k, k ∈ tree_nodes c -> k ∈ tree_nodes n.
Proof.
  intros Hc. rewrite (tree_nodes_unfold n).
  apply list_elem_of_split in Hc as (front & back & ->).
  unfold forest_nodes. rewrite flat_map_app. simpl.
  split; [rewrite !length_app; lia |].
  intros k Hk. rewrite elem_of_cons, !elem_of_app. auto.
Qed.

Lemma get_best_path_loop_spec (log : spec_float -> spec_float) (fuel : nat) :
  forall (node : MCTSNode.t) (path : list (string * list Z)),
    (length (tree_nodes node) <= fuel)%nat ->
    exists chain,
      MCTS.get_best_path_loop log fuel node path
      = Returned (path ++ map MCTSNode.action chain)
      /\ descending node chain
      /\ (length chain < length (tree_nodes node))%nat
      /\ (forall k, k ∈ chain -> k ∈ tree_nodes node)
      /\ MCTSNode.best_child log (default node (last chain)) F32.zero = None.
Proof.
  induction fuel as [| fuel IH]; intros node path Hfuel.
  - rewrite tree_nodes_unfold in Hfuel. simpl in Hfuel. lia.
  - simpl. destruct (MCTSNode.best_child log node F32.zero) as [c |] eqn:Hbest.
    + apply best_child_is_child in Hbest as Hc.
      apply tree_nodes_child in Hc as Hsub. destruct Hsub as [Hless Hsub].
      destruct (IH c (path ++ [MCTSNode.action c])) as (chain & -> & Hd & Hlen & Hin & Hend);
        [lia |].
      exists (c :: chain). rewrite <- app_assoc. simpl.
      split; [reflexivity |]. split; [auto |]. split; [lia |]. split.
      * intros k Hk. apply elem_of_cons in Hk as [-> | Hk]; [| auto].
        apply Hsub. rewrite tree_nodes_unfold. constructor.
      * destruct chain as [| c' chain]; [exact Hend |].
        rewrite last_cons. simpl in Hend |- *.
        destruct (last (c' :: chain)) eqn:Hlast; [exact Hend |].
        apply last_None in Hlast. discriminate.
    + exists []. rewrite app_nil_r. simpl.
      split; [reflexivity |]. split; [exact I |].
      split; [rewrite tree_nodes_unfold; simpl; lia |].
      split; [intros k Hk; inversion Hk | exact Hbest].
Qed.

(** X22. The loop [while (true)] of [get_best_path] ends: on a tree of
    [n] nodes it calls [best_child] at most [n] times.  The path it
    returns is the sequence of the actions of a chain of nodes of the
    tree, each a child of the one before and the first a child of the
    root; it has fewer entries than the tree has nodes, and [best_child]
    is null at the last node of the chain. *)
Theorem get_best_path_returns :
  forall (log : spec_float -> spec_float) (fuel : nat) (root : MCTSNode.t),
    (length (tree_nodes root) <= fuel)%nat ->
    exists chain,
      MCTS.get_best_path log fuel root = Returned (map MCTSNode.action chain)
      /\ descending root chain
      /\ (length chain < length (tree_nodes root))%nat
      /\ (forall k, k ∈ chain -> k ∈ tree_nodes root)
      /\ MCTSNode.best_child log (default root (last chain)) F32.zero = None.
Proof.
  intros log fuel root Hfuel. unfold MCTS.get_best_path.
  apply (get_best_path_loop_spec log fuel root []). exact Hfuel.
Qed.

Lemma get_best_path_returns_witness :
  exists chain,
    MCTS.get_best_path log_at_one 2 scenario_A_tree = Returned (map MCTSNode.action chain)
    /\ descending scenario_A_tree chain
    /\ (length chain < length (tree_nodes scenario_A_tree))%nat
    /\ (forall k, k ∈ chain -> k ∈ tree_nodes scenario_A_tree)
    /\ MCTSNode.best_child log_at_one (default scenario_A_tree (last chain)) F32.zero = None.
Proof. apply (get_best_path_returns log_at_one 2 scenario_A_tree). simpl. lia. Defined.

(** ** Snapshots on which every read is inside its vector *)

Lemma copies_nonneg (j : Z) (ids : list Z) : 0 <= copies j ids.
Proof. unfold copies. lia. Qed.

Lemma copies_at_index (j : Z) (ids : list Z) (i : Z) :
  at_index ids i = Some j -> 1 <= copies j ids.
Proof.
  intros H. destruct (at_index_split ids i j j H) as (front & back & -> & _).
  rewrite copies_app, copies_cons. unfold hit. rewrite Z.eqb_refl.
  pose proof (copies_nonneg j front). pose proof (copies_nonneg j back). lia.
Qed.

Lemma located_zero_parts (j : Z) (s : ProblemState) :
  located j s = 0 ->
  copies j (trailers_beluga s) = 0 /\ copies j (trailers_factory s) = 0.
Proof.
  unfold located. intros H.
  pose proof (copies_nonneg j (flat_map Beluga.current_jigs (belugas s))).
  pose proof (copies_nonneg j (trailers_beluga s)).
  pose proof (copies_nonneg j (trailers_factory s)).
  pose proof (copies_nonneg j (flat_map Rack.current_jigs (racks s))).
  pose proof (copies_nonneg j (hangars s)).
  lia.
Qed.

Lemma Forall_assign {T} (P : T -> Prop) (vec : list T) (i : Z) (x : T) :
  Forall P vec -> P x -> Forall P (assign vec i x).
Proof.
  intros Hvec Hx. unfold assign. destruct (is_valid_index i vec); [| exact Hvec].
  apply Forall_insert; assumption.
Qed.

Lemma racks_readable_at s r the_rack :
  racks_readable s -> at_index (racks s) r = Some the_rack ->
  Forall (fun jig_id => 1 <= jig_id <= Z.of_nat (length (jigs s)))
    (Rack.current_jigs the_rack).
Proof.
  intros Hs Hr. apply at_index_Some_valid in Hr as [_ Hr].
  unfold racks_readable in Hs. rewrite Forall_lookup in Hs. eapply Hs, Hr.
Qed.

Lemma left_stack_rack_readable s r t b s' :
  racks_readable s -> located 0 s = 0 ->
  Action.left_stack_rack s r t = Some (b, s') -> racks_readable s'.
Proof.
  intros Hs Hzero H. destruct b; [| apply left_stack_rack_refused in H as ->; exact Hs].
  pose proof H as Hchecks.
  apply left_stack_rack_checks in Hchecks
    as (jig_id & jig & the_rack & free & Ht & _ & Hv & _ & Hr & _ & _).
  apply left_stack_rack_true in H as (jig_id' & the_rack' & _ & _ & Ht' & Hr' & ->).
  rewrite Ht in Ht'. injection Ht' as <-. rewrite Hr in Hr'. injection Hr' as <-.
  unfold racks_readable. cbn -[assign].
  apply Forall_assign; [exact Hs |]. simpl. constructor.
  - apply is_valid_index_spec in Hv.
    assert (jig_id <> 0); [| lia].
    intros ->. apply copies_at_index in Ht. apply located_zero_parts in Hzero. lia.
  - eapply racks_readable_at; eassumption.
Qed.

Lemma right_stack_rack_readable s r t b s' :
  racks_readable s -> located 0 s = 0 ->
  Action.right_stack_rack s r t = Some (b, s') -> racks_readable s'.
Proof.
  intros Hs Hzero H. destruct b; [| apply right_stack_rack_refused in H as ->; exact Hs].
  pose proof H as Hchecks.
  apply right_stack_rack_checks in Hchecks
    as (jig_id & jig & the_rack & free & Ht & _ & Hv & _ & Hr & _ & _).
  apply right_stack_rack_true in H as (jig_id' & the_rack' & _ & _ & Ht' & Hr' & ->).
  rewrite Ht in Ht'. injection Ht' as <-. rewrite Hr in Hr'. injection Hr' as <-.
  unfold racks_readable. cbn -[assign].
  apply Forall_assign; [exact Hs |]. simpl. apply Forall_app. split.
  - eapply racks_readable_at; eassumption.
  - repeat constructor; apply is_valid_index_spec in Hv;
      (assert (jig_id <> 0); [| lia]);
      intros ->; apply copies_at_index in Ht; apply located_zero_parts in Hzero; lia.
Qed.

Lemma left_unstack_rack_readable s r t b s' :
  racks_readable s -> located 0 s = 0 ->
  Action.left_unstack_rack s r t = Some (b, s') -> racks_readable s'.
Proof.
  intros Hs _ H. destruct b; [| apply left_unstack_rack_refused in H as ->; exact Hs].
  apply left_unstack_rack_true in H as (the_rack & j & rest & _ & Hr & Hjigs & ->).
  unfold racks_readable. cbn -[assign].
  apply Forall_assign; [exact Hs |]. simpl.
  pose proof (racks_readable_at _ _ _ Hs Hr) as Hall. rewrite Hjigs in Hall.
  apply Forall_cons in Hall as [_ Hall]. exact Hall.
Qed.

Lemma right_unstack_rack_readable s r t b s' :
  racks_readable s -> located 0 s = 0 ->
  Action.right_unstack_rack s r t = Some (b, s') -> racks_readable s'.
Proof.
  intros Hs _ H. destruct b; [| apply right_unstack_rack_refused in H as ->; exact Hs].
  apply right_unstack_rack_true in H as (the_rack & front & j & _ & Hr & Hjigs & ->).
  unfold racks_readable. cbn -[assign].
  apply Forall_assign; [exact Hs |]. simpl.
  pose proof (racks_readable_at _ _ _ Hs Hr) as Hall. rewrite Hjigs in Hall.
  apply Forall_app in Hall as [Hall _]. exact Hall.
Qed.

Lemma get_from_hangar_readable s h t b s' :
  racks_readable s -> located 0 s = 0 ->
  Action.get_from_hangar s h t = Some (b, s') -> racks_readable s'.
Proof.
  intros Hs _ H. destruct b; [| apply get_from_hangar_refused in H as ->; exact Hs].
  apply get_from_hangar_true in H as (jig_id & jig & _ & _ & _ & _ & _ & ->). exact Hs.
Qed.

Lemma deliver_to_hangar_readable s h t b s' :
  racks_readable s -> located 0 s = 0 ->
  Action.deliver_to_hangar s h t = Some (b, s') -> racks_readable s'.
Proof.
  intros Hs _ H. destruct b; [| apply deliver_to_hangar_refused in H as ->; exact Hs].
  apply deliver_to_hangar_true in H
    as (jig_id & jig & idx & line & _ & _ & _ & _ & _ & _ & _ & _ & ->).
  cbn zeta. unfold racks_readable in *.
  destruct (vec_empty _); cbn -[assign erase_at]; rewrite length_assign; exact Hs.
Qed.

Lemma load_beluga_readable s t n b s' :
  racks_readable s -> located 0 s = 0 ->
  Action.load_beluga s t n = Some (b, s') -> racks_readable s'.
Proof.
  intros Hs _ H. destruct b; [| apply load_beluga_refused in H as ->; exact Hs].
  apply load_beluga_true in H
    as (jig_id & jig & beluga & rest & o & outs & _ & _ & _ & _ & Hb & _ & _ & _ & ->).
  cbn zeta. unfold racks_readable in *.
  destruct outs as [| o' outs]; unfold beluga_complete;
    cbn -[assign erase_at]; rewrite ?Hb, ?assign_head; cbn -[assign erase_at];
    exact Hs.
Qed.

Lemma unload_beluga_readable s b s' :
  racks_readable s -> located 0 s = 0 ->
  Action.unload_beluga s = Some (b, s') -> racks_readable s'.
Proof.
  intros Hs _ H. destruct b; [| apply unload_beluga_refused in H as ->; exact Hs].
  apply unload_beluga_true in H as (beluga & rest & front & j & slot & Hb & _ & _ & ->).
  cbn zeta. unfold racks_readable in *.
  destruct front as [| f front];
    [destruct (Beluga.outgoing beluga) as [| o outs] eqn:Ho |];
    unfold beluga_complete;
    cbn -[assign erase_at]; rewrite ?Hb, ?assign_head; cbn -[assign erase_at];
    rewrite ?Ho; cbn -[assign erase_at]; exact Hs.
Qed.

Lemma apply_action_readable s action_name params b s' :
  racks_readable s -> located 0 s = 0 ->
  apply_action s action_name params = Some (b, s') -> racks_readable s'.
Proof.
  intros Hs Hzero. unfold apply_action, mbind, option_bind.
  repeat match goal with
         | |- context [match ?x with _ => _ end] => destruct x eqn:?; simpl
         end;
  intros H; simplify_eq;
  eauto using left_stack_rack_readable, right_stack_rack_readable,
    left_unstack_rack_readable, right_unstack_rack_readable,
    get_from_hangar_readable, deliver_to_hangar_readable, load_beluga_readable,
    unload_beluga_readable.
Qed.

Lemma apply_action_first_jig_unused s action_name params b s' :
  first_jig_unused s ->
  apply_action s action_name params = Some (b, s') -> first_jig_unused s'.
Proof.
  intros [Hs Hzero] H. split; [eapply apply_action_readable; eassumption |].
  apply (apply_action_moves _ _ _ _ _ 0) in H as [H _]; [| discriminate].
  unfold located in *.
  pose proof (copies_nonneg 0 (flat_map Beluga.current_jigs (belugas s'))).
  pose proof (copies_nonneg 0 (trailers_beluga s')).
  pose proof (copies_nonneg 0 (trailers_factory s')).
  pose proof (copies_nonneg 0 (flat_map Rack.current_jigs (racks s'))).
  pose proof (copies_nonneg 0 (hangars s')).
  lia.
Qed.

Lemma for_each_total {A S} (items : list A) (body : A -> S -> option S) (init : S) :
  (forall x acc, x ∈ items -> is_Some (body x acc)) ->
  is_Some (for_each items body init).
Proof.
  revert init. induction items as [| x items IH]; intros init Hbody; simpl; [eauto |].
  destruct (Hbody x init) as [acc ->]; [constructor |]. simpl.
  apply IH. intros y acc' Hy. apply Hbody. constructor. exact Hy.
Qed.

Lemma push_if_valid_returns s action candidate params :
  racks_readable s -> is_Some (push_if_valid s action candidate params).
Proof.
  intros Hs. unfold push_if_valid, check_action_valid, copy.
  destruct (apply_action_returns s action candidate Hs) as [[b s'] ->]. simpl. eauto.
Qed.

Ltac loops_return Hs :=
  apply for_each_total; intros ? ? ?; apply for_each_total; intros ? ? ?;
  unfold mbind, option_bind;
  repeat match goal with
         | Hi : ?i ∈ indices ?vec |- context [at_index ?vec ?i] =>
             let x := fresh "x" in
             let Hx := fresh "Hx" in
             destruct (at_index_index vec i Hi) as [x Hx]; rewrite Hx
         end;
  repeat match goal with
         | |- is_Some (Some _) => eexists; reflexivity
         | |- is_Some (push_if_valid _ _ _ _) => apply push_if_valid_returns; exact Hs
         | |- is_Some (if ?c then _ else _) => destruct c eqn:?
         | |- is_Some (match at_index ?v ?i with _ => _ end) =>
             let Hv := fresh "Hv" in
             assert (Hv : is_valid_index i v = true)
               by (unfold is_valid_index; assumption);
             destruct (at_index_is_Some i v Hv) as [? ->]
         | Hr : at_index (racks ?s) ?r = Some ?the_rack
           |- is_Some (match Rack.get_free_space ?the_rack _ with _ => _ end) =>
             destruct (get_free_space_returns s r the_rack Hs Hr) as [? ->]
         end.

Lemma enumerate_valid_params_returns s action :
  racks_readable s -> is_Some (enumerate_valid_params s action).
Proof.
  intros Hs. unfold enumerate_valid_params.
  repeat match goal with
         | |- is_Some (if String.eqb action ?n then _ else _) =>
             destruct (String.eqb action n); [try (loops_return Hs) |]
         end.
  - destruct (belugas s) as [| beluga rest]; [eauto |]. destruct (negb _); eauto.
  - eauto.
Qed.

Lemma get_possible_actions_returns s :
  racks_readable s -> is_Some (get_possible_actions s).
Proof.
  intros Hs. unfold get_possible_actions, check_action_valid, copy.
  destruct (apply_action_returns s "unload_beluga" [] Hs) as [[b s'] ->].
  cbn [fmap option_fmap option_map mbind option_bind fst].
  apply for_each_total. intros action acc _.
  destruct (enumerate_valid_params_returns s action Hs) as [found ->]. simpl. eauto.
Qed.

(** X23. Call a snapshot one in which the first jig is unused when every
    id on a rack lies in [1 .. |jigs|] and the jig of id 0 is in no
    beluga, on no trailer, on no rack and in no hangar.  Every snapshot
    reached by actions from such a snapshot is one again, and on it
    [apply_action], whatever the action, [check_action_valid],
    [enumerate_valid_params] and [get_possible_actions] return: no read
    leaves its vector. *)
Theorem first_jig_unused_is_kept :
  forall s0 s : ProblemState,
    first_jig_unused s0 ->
    reachable s0 s ->
    first_jig_unused s
    /\ (forall action_name params,
          is_Some (apply_action s action_name params)
          /\ is_Some (check_action_valid s action_name params)
          /\ is_Some (enumerate_valid_params s action_name))
    /\ is_Some (get_possible_actions s).
Proof.
  intros s0 s Hstart Hreach.
  assert (Hsafe : first_jig_unused s).
  { induction Hreach as [| s action_name params b s' _ IH Hstep]; [exact Hstart |].
    eapply apply_action_first_jig_unused; eassumption. }
  split; [exact Hsafe |]. destruct Hsafe as [Hs _].
  split; [| apply get_possible_actions_returns; exact Hs].
  intros action_name params.
  pose proof (apply_action_returns s action_name params Hs) as Happly.
  split; [exact Happly |]. split; [| apply enumerate_valid_params_returns; exact Hs].
  unfold check_action_valid, copy. destruct Happly as [x ->]. simpl. eauto.
Qed.

Lemma first_jig_unused_is_kept_witness :
  first_jig_unused spare_jig_state
  /\ (forall action_name params,
        is_Some (apply_action spare_jig_state action_name params)
        /\ is_Some (check_action_valid spare_jig_state action_name params)
        /\ is_Some (enumerate_valid_params spare_jig_state action_name))
  /\ is_Some (get_possible_actions spare_jig_state).
Proof.
  apply (first_jig_unused_is_kept spare_jig_state spare_jig_state).
  - split; [repeat constructor | reflexivity].
  - apply reachable_start.
Defined.

Section RolloutReturns.
Variable RngState : Type.
Variable rng_next : RngState -> Z * RngState.

Lemma rollout_loop_returns fuel depth max_rollout_steps :
  forall state current_depth actions_taken rng,
    first_jig_unused state ->
    max_rollout_steps - actions_taken <= Z.of_nat fuel ->
    exists r,
      MCTS.rollout_loop RngState rng_next fuel depth max_rollout_steps
        state current_depth actions_taken rng = Returned r.
Proof.
  induction fuel as [| fuel IH]; intros state current_depth actions_taken rng Hsafe Hfuel.
  - simpl. destruct (actions_taken <? max_rollout_steps) eqn:Hsteps.
    + apply Z.ltb_lt in Hsteps. lia.
    + rewrite andb_false_r. eauto.
  - cbn -[Z.of_nat get_possible_actions apply_action].
    destruct (negb (is_terminal state) && (current_depth <? depth)
              && (actions_taken <? max_rollout_steps)) eqn:Hgo; [| eauto].
    destruct (get_possible_actions_returns state (proj1 Hsafe)) as [acts ->].
    destruct (vec_empty acts) eqn:Hempty; [eauto |].
    apply vec_empty_false in Hempty.
    destruct (rng_next rng) as [drawn rng'].
    pose proof (drawn_index_valid acts drawn Hempty) as Hidx.
    destruct (at_index_is_Some _ _ Hidx) as [action ->].
    destruct (apply_action_returns state (fst action) (snd action) (proj1 Hsafe))
      as [[b state'] Happly]. rewrite Happly.
    apply IH; [| simpl; lia].
    eapply apply_action_first_jig_unused; eassumption.
Qed.

(** X24. On a node whose snapshot has the first jig unused, as in X23,
    [rollout_single] returns a reward: no read of the rollout leaves its
    vector, and the loop ends within [min(50, depth - node.depth)]
    rounds. *)
Theorem rollout_single_returns :
  forall (depth : Z) (node : MCTSNode.t) (rng : RngState),
    first_jig_unused (MCTSNode.state node) ->
    exists reward rng',
      MCTS.rollout_single RngState rng_next depth node rng = Returned (reward, rng').
Proof.
  intros depth node rng Hsafe. unfold MCTS.rollout_single, copy.
  destruct (rollout_loop_returns
              (Z.to_nat (Z.min 50 (depth - MCTSNode.depth node))) depth
              (Z.min 50 (depth - MCTSNode.depth node)) (MCTSNode.state node)
              (MCTSNode.depth node) 0 rng Hsafe) as [[[[state d] taken] rng'] ->]; [lia |].
  eauto.
Qed.
End RolloutReturns.

Lemma rollout_single_returns_witness :
  exists reward rng',
    MCTS.rollout_single Z counter_next 5
      (MCTSNode.new spare_jig_state (EmptyString, []) 0) 0
    = Returned (reward, rng').
Proof.
  apply (rollout_single_returns Z counter_next 5
           (MCTSNode.new spare_jig_state (EmptyString, []) 0) 0).
  split; [repeat constructor | reflexivity].
Defined.

(** ** Types by name *)

(** X25. A type name that [get_type_from_string] accepts is the name of
    the type it returns; the type is the one [get_type] gives for the
    name, and its sizes are positive, the empty size at most the loaded
    one.  For a name it rejects the exception carries the name, and
    [get_type] gives the type [unknown] of size 0.  So on types that come
    from the loader [operator==], which compares names only, holds
    exactly of equal types. *)
Theorem type_names_determine_types :
  forall type_str : string,
    match get_type_from_string type_str with
    | inr ty =>
        name ty = type_str /\ get_type type_str = ty
        /\ 0 < size_empty ty <= size_loaded ty
        /\ forall other ty',
             get_type_from_string other = inr ty' ->
             (JigType_eqb ty ty' = true <-> ty = ty')
    | inl e =>
        e = runtime_error ("Unbekannter Jig-Typ: " ++ type_str)
        /\ get_type type_str = mkJigType "unknown" 0 0
    end.
Proof.
  intros type_str. unfold get_type_from_string, get_type, ret, throw.
  repeat match goal with
         | |- context [String.eqb type_str ?n] =>
             destruct (String.eqb_spec type_str n) as [-> | ?]
         end;
  try (split; reflexivity);
  (split; [reflexivity |]; split; [reflexivity |]; split; [simpl; lia |]);
  intros other ty'; unfold get_type_from_string, ret, throw;
  repeat match goal with
         | |- context [String.eqb other ?n] =>
             destruct (String.eqb_spec other n) as [-> | ?]
         end;
  intros [= <-]; split; intros H; try reflexivity; try discriminate.
Qed.

(** ** What [operator==] sees *)

Lemma print_lines_ext (i : nat) (xs ys : list string) :
  xs = ys -> print_lines i xs = print_lines i ys.
Proof. intros ->. reflexivity. Qed.

Lemma Forall2_map_eq {A B} (f : A -> B) (xs ys : list A) :
  Forall2 (fun x y => f x = f y) xs ys -> map f xs = map f ys.
Proof. induction 1 as [| x y xs ys Hxy _ IH]; simpl; congruence. Qed.

(** X26. [operator==] and [hash] go by [to_string], which prints the
    jigs, each with the name of its type and its flag, and the belugas,
    each with its jigs and the names of its outgoing types.  So two
    snapshots that agree on these have the same text and are equal for
    [operator==], whatever their trailers, racks, production lines,
    hangars and counters hold. *)
Theorem equality_reads_jigs_and_belugas :
  forall s other : ProblemState,
    Forall2 (fun a b => name (jig_type a) = name (jig_type b) /\ empty a = empty b)
      (jigs s) (jigs other) ->
    Forall2 (fun a b => Beluga.current_jigs a = Beluga.current_jigs b
                        /\ map name (Beluga.outgoing a) = map name (Beluga.outgoing b))
      (belugas s) (belugas other) ->
    to_string s = to_string other /\ ProblemState_eqb s other = true.
Proof.
  intros s other Hjigs Hbelugas.
  assert (Htext : to_string s = to_string other).
  { unfold to_string.
    rewrite (print_lines_ext 0 (map Jig_to_string (jigs s))
               (map Jig_to_string (jigs other))).
    - rewrite (print_lines_ext 0 (map Beluga_to_string (belugas s))
                 (map Beluga_to_string (belugas other))); [reflexivity |].
      apply Forall2_map_eq. eapply Forall2_impl; [exact Hbelugas |].
      intros a b [Hcur Hout]. unfold Beluga_to_string. rewrite Hcur, Hout. reflexivity.
    - apply Forall2_map_eq. eapply Forall2_impl; [exact Hjigs |].
      intros a b [Hname Hempty]. unfold Jig_to_string. rewrite Hname, Hempty.
      reflexivity. }
  split; [exact Htext |]. unfold ProblemState_eqb. rewrite Htext. apply String.eqb_refl.
Qed.

Lemma equality_reads_jigs_and_belugas_witness :
  to_string scenario_A = to_string scenario_A_other
  /\ ProblemState_eqb scenario_A scenario_A_other = true.
Proof.
  apply (equality_reads_jigs_and_belugas scenario_A scenario_A_other);
    repeat constructor.
Defined.

(** ** The rack of [rack.cpp] *)

Lemma total_used_space_spec (all_jigs : list Jig) (ids : list Z) :
  forall total,
    RackAlt.total_used_space all_jigs ids total
    = Some (total
            + foldr Z.add 0
                (map (fun jig_id => from_option jig_size 0 (at_index all_jigs jig_id)) ids)).
Proof.
  induction ids as [| jig_id ids IH]; intros total; simpl; [f_equal; lia |].
  destruct ((0 <=? jig_id) && (jig_id <? Z.of_nat (length all_jigs))) eqn:Hv.
  - destruct (at_index_is_Some jig_id all_jigs Hv) as [jig Hjig]. rewrite Hjig. simpl.
    rewrite IH. f_equal; lia.
  - unfold at_index, is_valid_index. rewrite Hv. simpl. rewrite IH. f_equal; lia.
Qed.

(** X27. In [rack.cpp] the free space is counted with the jig's own id:
    [getFreeSpace] always returns, and it is the size of the rack less the
    sizes of the jigs on it, an id outside the registry counting nothing.
    [canFitJig] holds exactly when the jig is no larger than the free
    space; after [addJig] of a jig of the registry, as after putting it in
    front, the free space is smaller by the size of that jig, so it is not
    negative when [canFitJig] held.  [removeTopJig] and [getTopJig] undo
    and read back [addJig]. *)
Theorem rack_alt_free_space :
  forall (r : RackAlt.t) (all_jigs : list Jig) (jig_id : Z) (jig : Jig),
    at_index all_jigs jig_id = Some jig ->
    exists free,
      RackAlt.getFreeSpace r all_jigs = Some free
      /\ free = RackAlt.size_ r
                - foldr Z.add 0
                    (map (fun id => from_option jig_size 0 (at_index all_jigs id))
                       (RackAlt.current_jigs_ r))
      /\ RackAlt.canFitJig r jig all_jigs = Some (jig_size jig <=? free)
      /\ RackAlt.getFreeSpace (RackAlt.addJig r jig_id) all_jigs
         = Some (free - jig_size jig)
      /\ RackAlt.getFreeSpace
           (RackAlt.mk (RackAlt.size_ r) (jig_id :: RackAlt.current_jigs_ r)) all_jigs
         = Some (free - jig_size jig)
      /\ RackAlt.removeTopJig (RackAlt.addJig r jig_id) = r
      /\ RackAlt.getTopJig (RackAlt.addJig r jig_id) = inr jig_id.
Proof.
  intros r all_jigs jig_id jig Hjig.
  assert (Hfree : forall r',
             RackAlt.getFreeSpace r' all_jigs
             = Some (RackAlt.size_ r'
                     - foldr Z.add 0
                         (map (fun id => from_option jig_size 0 (at_index all_jigs id))
                            (RackAlt.current_jigs_ r')))).
  { intros r'. unfold RackAlt.getFreeSpace. rewrite total_used_space_spec.
    rewrite Z.add_0_l. reflexivity. }
  eexists. split; [apply Hfree |]. split; [reflexivity |]. repeat split.
  - unfold RackAlt.canFitJig. rewrite Hfree. simpl. rewrite Z.geb_leb. reflexivity.
  - rewrite Hfree. unfold RackAlt.addJig. simpl. f_equal.
    rewrite map_app, foldr_app. simpl. rewrite Hjig. simpl.
    generalize (map (fun id => from_option jig_size 0 (at_index all_jigs id))
                  (RackAlt.current_jigs_ r)).
    intros sizes.
    assert (Hfold : forall acc, foldr Z.add acc sizes = acc + foldr Z.add 0 sizes)
      by (induction sizes as [| x sizes IH]; simpl; intros acc; [| rewrite IH]; lia).
    rewrite Hfold. lia.
  - rewrite Hfree. simpl. rewrite Hjig. simpl. f_equal. lia.
  - destruct r as [size ids]. unfold RackAlt.removeTopJig, RackAlt.addJig.
    cbn [RackAlt.size_ RackAlt.current_jigs_].
    replace (vec_empty (ids ++ [jig_id])) with false by (destruct ids; reflexivity).
    cbn [negb]. unfold pop_back. rewrite removelast_last. reflexivity.
  - unfold RackAlt.getTopJig, RackAlt.addJig. simpl. rewrite last_snoc. reflexivity.
Qed.

Lemma rack_alt_free_space_witness :
  exists free,
    RackAlt.getFreeSpace (RackAlt.mk 36 [1]) crowded_jigs = Some free
    /\ free = 36 - foldr Z.add 0
                     (map (fun id => from_option jig_size 0 (at_index crowded_jigs id)) [1])
    /\ RackAlt.canFitJig (RackAlt.mk 36 [1]) (mkJig typeE false) crowded_jigs
       = Some (jig_size (mkJig typeE false) <=? free)
    /\ RackAlt.getFreeSpace (RackAlt.addJig (RackAlt.mk 36 [1]) 2) crowded_jigs
       = Some (free - jig_size (mkJig typeE false))
    /\ RackAlt.getFreeSpace (RackAlt.mk 36 [2; 1]) crowded_jigs
       = Some (free - jig_size (mkJig typeE false))
    /\ RackAlt.removeTopJig (RackAlt.addJig (RackAlt.mk 36 [1]) 2) = RackAlt.mk 36 [1]
    /\ RackAlt.getTopJig (RackAlt.addJig (RackAlt.mk 36 [1]) 2) = inr 2.
Proof.
  apply (rack_alt_free_space (RackAlt.mk 36 [1]) crowded_jigs 2 (mkJig typeE false)).
  reflexivity.
Defined.

(** ** The training data *)

Lemma forest_nodes_pop_filter (f : MCTSNode.t -> bool) (n : MCTSNode.t)
    (rest : list MCTSNode.t) :
  length (List.filter f (forest_nodes (n :: rest)))
  = ((if f n then 1 else 0)
     + length (List.filter f (forest_nodes (rest ++ MCTSNode.children n))))%nat.
Proof.
  unfold forest_nodes.
  change (flat_map tree_nodes (n :: rest))
    with (tree_nodes n ++ flat_map tree_nodes rest).
  rewrite tree_nodes_unfold, flat_map_app. unfold forest_nodes.
  rewrite !List.filter_app, !length_app. simpl.
  destruct (f n); simpl; lia.
Qed.

Lemma collect_loop_spec (root : MCTSNode.t) (fuel : nat) (max_samples min_visits : Z) :
  forall (queue : list MCTSNode.t) (data : list (list spec_float * spec_float)),
    (length (forest_nodes queue) <= fuel)%nat ->
    (forall k, k ∈ forest_nodes queue -> k ∈ tree_nodes root) ->
    Forall (sample_of root min_visits) data ->
    Z.of_nat (length data) <= Z.max 0 max_samples ->
    match MCTS.collect_loop fuel max_samples min_visits queue data with
    | Returned training_data =>
        Forall (sample_of root min_visits) training_data
        /\ Z.of_nat (length training_data)
           = Z.min (Z.max 0 max_samples)
               (Z.of_nat (length data)
                + Z.of_nat (length (List.filter
                                      (fun k => MCTSNode.visits k >=? min_visits)
                                      (forest_nodes queue))))
    | OutOfBounds =>
        exists k, k ∈ tree_nodes root
                  /\ get_observation_high_level (MCTSNode.state k) = None
    | OutOfFuel => False
    end.
Proof.
  induction fuel as [| fuel IH]; intros queue data Hfuel Hsub Hdata Hlen.
  - destruct queue as [| n rest]; [simpl; split; [exact Hdata | lia] |].
    rewrite forest_nodes_pop_length in Hfuel. lia.
  - destruct queue as [| n rest]; [simpl; split; [exact Hdata | lia] |].
    pose proof (forest_nodes_pop_filter (fun k => MCTSNode.visits k >=? min_visits) n rest)
      as Hcount.
    rewrite forest_nodes_pop_length in Hfuel.
    assert (Hn : n ∈ tree_nodes root)
      by (apply Hsub, forest_nodes_pop_elem; left; reflexivity).
    assert (Hsub' : forall k, k ∈ forest_nodes (rest ++ MCTSNode.children n) ->
                              k ∈ tree_nodes root)
      by (intros k Hk; apply Hsub, forest_nodes_pop_elem; right; exact Hk).
    cbn -[Z.of_nat get_observation_high_level forest_nodes List.filter].
    destruct (Z.of_nat (length data) <? max_samples) eqn:Hmore.
    + apply Z.ltb_lt in Hmore.
      destruct (MCTSNode.visits n >=? min_visits) eqn:Hvisits.
      * destruct (get_observation_high_level (MCTSNode.state n)) as [obs |] eqn:Hobs;
          [| eauto].
        specialize (IH (rest ++ MCTSNode.children n)
                      (data ++ [(obs, MCTS.node_value n)])).
        destruct (MCTS.collect_loop fuel max_samples min_visits
                    (rest ++ MCTSNode.children n) (data ++ [(obs, MCTS.node_value n)]))
          as [d | |].
        -- destruct IH as [Hall Hd]; [lia | exact Hsub' | | | ].
           ++ apply Forall_app. split; [exact Hdata |]. repeat constructor.
              exists n. rewrite Z.geb_leb in Hvisits. apply Z.leb_le in Hvisits. auto.
           ++ rewrite length_app. simpl. lia.
           ++ split; [exact Hall |]. rewrite Hd, length_app. cbn [length].
              lia.
        -- apply IH; [lia | exact Hsub' | | rewrite length_app; simpl; lia].
           apply Forall_app. split; [exact Hdata |]. repeat constructor.
           exists n. rewrite Z.geb_leb in Hvisits. apply Z.leb_le in Hvisits. auto.
        -- apply IH; [lia | exact Hsub' | | rewrite length_app; simpl; lia].
           apply Forall_app. split; [exact Hdata |]. repeat constructor.
           exists n. rewrite Z.geb_leb in Hvisits. apply Z.leb_le in Hvisits. auto.
      * specialize (IH (rest ++ MCTSNode.children n) data).
        destruct (MCTS.collect_loop fuel max_samples min_visits
                    (rest ++ MCTSNode.children n) data) as [d | |].
        -- destruct IH as [Hall Hd]; [lia | exact Hsub' | exact Hdata | exact Hlen |].
           split; [exact Hall |]. rewrite Hd. lia.
        -- apply IH; [lia | exact Hsub' | exact Hdata | exact Hlen].
        -- apply IH; [lia | exact Hsub' | exact Hdata | exact Hlen].
    + apply Z.ltb_ge in Hmore. split; [exact Hdata | lia].
Qed.

(** X28. On a tree of [n] nodes each pass of [collect_training_data]
    ends within [n] rounds of its loop.  It fails only where
    [get_observation_high_level] of a node of the tree reads outside the
    registry.  Otherwise the first pass finds [min(max(0, max_samples),
    v)] samples, [v] being the number of nodes with at least [min_visits]
    visits; the function starts afresh with [min_visits = 1] exactly when
    these are fewer than ten and [min_visits > 1].  With [t] the
    threshold of the pass that gives the result, it returns
    [min(max(0, max_samples), w)] samples, [w] being the number of nodes
    with at least [t] visits, and each sample is the observation and the
    value [total_reward / visits] of a node of the tree with at least [t]
    visits. *)
Theorem collect_training_data_spec :
  forall (fuel : nat) (max_samples min_visits : Z) (root : MCTSNode.t),
    (length (tree_nodes root) <= fuel)%nat ->
    match MCTS.collect_training_data fuel max_samples min_visits root with
    | Returned training_data =>
        let first := Z.min (Z.max 0 max_samples) (visited_at_least root min_visits) in
        let threshold := if (first <? 10) && (min_visits >? 1) then 1 else min_visits in
        Forall (sample_of root threshold) training_data
        /\ Z.of_nat (length training_data)
           = Z.min (Z.max 0 max_samples) (visited_at_least root threshold)
    | OutOfBounds =>
        exists k, k ∈ tree_nodes root
                  /\ get_observation_high_level (MCTSNode.state k) = None
    | OutOfFuel => False
    end.
Proof.
  intros fuel max_samples min_visits root Hfuel. unfold MCTS.collect_training_data.
  assert (Hq : forest_nodes [root] = tree_nodes root)
    by (unfold forest_nodes; simpl; apply app_nil_r).
  assert (Hpass : forall threshold,
             match MCTS.collect_loop fuel max_samples threshold [root] [] with
             | Returned training_data =>
                 Forall (sample_of root threshold) training_data
                 /\ Z.of_nat (length training_data)
                    = Z.min (Z.max 0 max_samples) (visited_at_least root threshold)
             | OutOfBounds =>
                 exists k, k ∈ tree_nodes root
                           /\ get_observation_high_level (MCTSNode.state k) = None
             | OutOfFuel => False
             end).
  { intros threshold.
    pose proof (collect_loop_spec root fuel max_samples threshold [root] []) as Hloop.
    rewrite Hq in Hloop. unfold visited_at_least.
    destruct (MCTS.collect_loop fuel max_samples threshold [root] []) as [d | |];
      apply Hloop; try exact Hfuel; try (constructor; fail); try (simpl; lia); auto. }
  pose proof (Hpass min_visits) as Hfirst.
  destruct (MCTS.collect_loop fuel max_samples min_visits [root] []) as [data | |];
    [| exact Hfirst | exact Hfirst].
  destruct Hfirst as [Hall Hlen]. cbn zeta. rewrite <- Hlen.
  destruct ((Z.of_nat (length data) <? 10) && (min_visits >? 1)) eqn:Hagain.
  - exact (Hpass 1).
  - split; [exact Hall | exact Hlen].
Qed.

Lemma collect_training_data_spec_witness :
  match MCTS.collect_training_data 2 5 2 visited_tree with
  | Returned training_data =>
      let first := Z.min (Z.max 0 5) (visited_at_least visited_tree 2) in
      let threshold := if (first <? 10) && (2 >? 1) then 1 else 2 in
      Forall (sample_of visited_tree threshold) training_data
      /\ Z.of_nat (length training_data)
         = Z.min (Z.max 0 5) (visited_at_least visited_tree threshold)
  | OutOfBounds =>
      exists k, k ∈ tree_nodes visited_tree
                /\ get_observation_high_level (MCTSNode.state k) = None
  | OutOfFuel => False
  end.
Proof. apply (collect_training_data_spec 2 5 2 visited_tree). simpl. lia. Defined.

(** ** The flag of an action and its precondition *)

Lemma is_valid_index_at_index {T} (vec : list T) (i : Z) :
  is_valid_index i vec = match at_index vec i with Some _ => true | None => false end.
Proof.
  unfold at_index. destruct (is_valid_index i vec) eqn:Hv; [| reflexivity].
  destruct (at_index_is_Some i vec Hv) as [x Hx]. unfold at_index in Hx.
  rewrite Hv in Hx. rewrite Hx. reflexivity.
Qed.

Lemma find_first_existsb {T} (p : T -> bool) (vec : list T) :
  (find_first p vec 0 =? -1) = negb (existsb p vec).
Proof.
  destruct (find_first_spec p vec 0 ltac:(lia)) as [[He Hall] | (k & x & He & Hk & Hx & _)].
  - rewrite He. simpl. symmetry. apply negb_true_iff.
    apply not_true_is_false. intros Hex. apply existsb_exists in Hex as (y & Hin & Hy).
    rewrite Forall_forall in Hall. apply list_elem_of_In in Hin.
    rewrite (Hall y Hin) in Hy. discriminate.
  - rewrite He. replace (0 + Z.of_nat k =? -1) with false by (symmetry; apply Z.eqb_neq; lia).
    symmetry. apply negb_false_iff. apply existsb_exists. exists x.
    split; [| exact Hx]. apply list_elem_of_In. eapply list_elem_of_lookup_2, Hk.
Qed.

Lemma get_from_hangar_flag s h t :
  fst <$> Action.get_from_hangar s h t = Some (get_from_hangar_allowed s h t).
Proof.
  destruct (get_from_hangar_returns s h t) as [[b s'] H]. rewrite H. simpl. f_equal.
  destruct b.
  - apply get_from_hangar_true in H as (jig_id & jig & Hh & Hne & Ht & Hj & Hemp & _).
    unfold get_from_hangar_allowed, holds_jig, slot_is_empty. rewrite Hh, Ht. simpl.
    replace (jig_id =? -1) with false by (symmetry; apply Z.eqb_neq; exact Hne).
    rewrite Hj. simpl. symmetry. exact Hemp.
  - destruct (get_from_hangar_allowed s h t) eqn:Hallowed; [| reflexivity].
    exfalso. unfold get_from_hangar_allowed, holds_jig, slot_is_empty in Hallowed.
    apply andb_true_iff in Hallowed as [Ht Hrest].
    destruct (at_index (trailers_factory s) t) as [on_trailer |] eqn:Htrailer;
      [| discriminate].
    apply Z.eqb_eq in Ht. subst on_trailer.
    destruct (at_index (hangars s) h) as [jig_id |] eqn:Hhangar; [| discriminate].
    simpl in Hrest. destruct (jig_id =? -1) eqn:Hne; [discriminate |].
    destruct (at_index (jigs s) jig_id) as [jig |] eqn:Hjig; [| discriminate].
    simpl in Hrest. apply Z.eqb_neq in Hne.
    destruct (get_from_hangar_accepts s h t jig_id jig Hhangar Hne Htrailer Hjig Hrest)
      as [s'' Hacc].
    congruence.
Qed.

Lemma left_unstack_rack_flag s r t :
  fst <$> Action.left_unstack_rack s r t = Some (left_unstack_rack_allowed s r t).
Proof.
  destruct (left_unstack_rack_returns s r t) as [[b s'] H]. rewrite H. simpl. f_equal.
  destruct b.
  - apply left_unstack_rack_true in H as (the_rack & j & rest & Ht & Hr & Hjigs & _).
    unfold left_unstack_rack_allowed, slot_is_empty. rewrite Ht, Hr, Hjigs. reflexivity.
  - destruct (left_unstack_rack_allowed s r t) eqn:Hallowed; [| reflexivity].
    exfalso. unfold left_unstack_rack_allowed, slot_is_empty in Hallowed.
    apply andb_true_iff in Hallowed as [Ht Hrack].
    destruct (at_index (trailers_beluga s) t) as [on_trailer |] eqn:Htrailer;
      [| discriminate].
    destruct (at_index (racks s) r) as [the_rack |] eqn:Hr; [| discriminate].
    unfold Action.left_unstack_rack, mbind, option_bind in H.
    rewrite (at_index_Some_is_valid _ _ _ Hr), (at_index_Some_is_valid _ _ _ Htrailer),
      Htrailer, Hr, Ht in H.
    apply negb_true_iff in Hrack. rewrite Hrack in H. simpl in H.
    destruct (Rack.current_jigs the_rack); simpl in H; discriminate.
Qed.

Lemma right_unstack_rack_flag s r t :
  fst <$> Action.right_unstack_rack s r t = Some (right_unstack_rack_allowed s r t).
Proof.
  destruct (right_unstack_rack_returns s r t) as [[b s'] H]. rewrite H. simpl. f_equal.
  destruct b.
  - apply right_unstack_rack_true in H as (the_rack & front & j & Ht & Hr & Hjigs & _).
    unfold right_unstack_rack_allowed, slot_is_empty. rewrite Ht, Hr, Hjigs.
    destruct front; reflexivity.
  - destruct (right_unstack_rack_allowed s r t) eqn:Hallowed; [| reflexivity].
    exfalso. unfold right_unstack_rack_allowed, slot_is_empty in Hallowed.
    apply andb_true_iff in Hallowed as [Ht Hrack].
    destruct (at_index (trailers_factory s) t) as [on_trailer |] eqn:Htrailer;
      [| discriminate].
    destruct (at_index (racks s) r) as [the_rack |] eqn:Hr; [| discriminate].
    unfold Action.right_unstack_rack, mbind, option_bind in H.
    rewrite (at_index_Some_is_valid _ _ _ Hr), (at_index_Some_is_valid _ _ _ Htrailer),
      Htrailer, Hr, Ht in H.
    apply negb_true_iff in Hrack. rewrite Hrack in H. simpl in H.
    apply vec_empty_false in Hrack.
    destruct (exists_last Hrack) as (front & j & Hfj).
    rewrite Hfj, last_snoc in H. simpl in H. discriminate.
Qed.

Lemma load_beluga_flag s t n :
  fst <$> Action.load_beluga s t n = Some (load_beluga_allowed s t).
Proof.
  destruct (load_beluga_returns s t n) as [[b s'] H]. rewrite H. simpl. f_equal.
  destruct b.
  - apply load_beluga_true in H
      as (jig_id & jig & beluga & rest & o & outs & Ht & Hne & Hj & Hemp & Hb & Hcur
          & Hout & Hty & _).
    unfold load_beluga_allowed, holds_jig. rewrite Ht. simpl.
    replace (jig_id =? -1) with false by (symmetry; apply Z.eqb_neq; exact Hne).
    rewrite Hj. simpl. rewrite Hb, Hemp, Hcur, Hout, Hty. reflexivity.
  - destruct (load_beluga_allowed s t) eqn:Hallowed; [| reflexivity].
    exfalso. unfold load_beluga_allowed, holds_jig in Hallowed.
    destruct (at_index (trailers_beluga s) t) as [jig_id |] eqn:Ht; [| discriminate].
    simpl in Hallowed. destruct (jig_id =? -1) eqn:Hne; [discriminate |].
    destruct (at_index (jigs s) jig_id) as [jig |] eqn:Hj; [| discriminate].
    simpl in Hallowed.
    destruct (belugas s) as [| beluga rest] eqn:Hb; [discriminate |].
    apply andb_true_iff in Hallowed as [Hrest Hty].
    apply andb_true_iff in Hrest as [Hemp Hcur].
    destruct (Beluga.outgoing beluga) as [| o outs] eqn:Hout; [discriminate |].
    apply Z.eqb_neq in Hne. apply vec_empty_true in Hcur.
    unfold JigType_eqb in Hty. apply String.eqb_eq in Hty.
    destruct (load_beluga_accepts s t n jig_id jig beluga rest o outs
                Ht Hne Hj Hemp Hb Hcur Hout Hty) as [s'' Hacc].
    congruence.
Qed.

Lemma deliver_to_hangar_flag s h t :
  fst <$> Action.deliver_to_hangar s h t = Some (deliver_to_hangar_allowed s h t).
Proof.
  destruct (deliver_to_hangar_returns s h t) as [[b s'] H]. rewrite H. simpl. f_equal.
  destruct b.
  - apply deliver_to_hangar_true in H
      as (jig_id & jig & idx & line & Hh & Ht & Hne & Hj & Hemp & -> & Hidx & _).
    unfold deliver_to_hangar_allowed, holds_jig, slot_is_empty. rewrite Hh, Ht. simpl.
    replace (jig_id =? -1) with false by (symmetry; apply Z.eqb_neq; exact Hne).
    rewrite Hj. simpl. rewrite Hemp. simpl.
    apply Z.eqb_neq in Hidx. rewrite find_first_existsb in Hidx.
    apply negb_false_iff in Hidx. symmetry. exact Hidx.
  - destruct (deliver_to_hangar_allowed s h t) eqn:Hallowed; [| reflexivity].
    exfalso. unfold deliver_to_hangar_allowed, holds_jig, slot_is_empty in Hallowed.
    apply andb_true_iff in Hallowed as [Hh Hrest].
    destruct (at_index (hangars s) h) as [in_hangar |] eqn:Hhangar; [| discriminate].
    apply Z.eqb_eq in Hh. subst in_hangar.
    destruct (at_index (trailers_factory s) t) as [jig_id |] eqn:Htrailer;
      [| discriminate].
    simpl in Hrest. destruct (jig_id =? -1) eqn:Hne; [discriminate |].
    destruct (at_index (jigs s) jig_id) as [jig |] eqn:Hjig; [| discriminate].
    simpl in Hrest. apply andb_true_iff in Hrest as [Hemp Hline].
    apply negb_true_iff in Hemp. apply Z.eqb_neq in Hne.
    apply existsb_exists in Hline as (line & Hin & Hfirst).
    destruct (deliver_to_hangar_accepts s h t jig_id jig line Hhangar Htrailer Hne Hjig Hemp)
      as [s'' Hacc].
    + apply list_elem_of_In. exact Hin.
    + destruct (ProductionLine.scheduled_jigs line) as [| first rest]; [discriminate |].
      apply Z.eqb_eq in Hfirst. subst first. reflexivity.
    + congruence.
Qed.

Lemma unload_beluga_flag s :
  fst <$> Action.unload_beluga s = Some (unload_beluga_allowed s).
Proof.
  destruct (unload_beluga_returns s) as [[b s'] H]. rewrite H. simpl. f_equal.
  destruct b.
  - apply unload_beluga_true in H
      as (beluga & rest & front & j & slot & Hb & Hcur & Hslot & _).
    unfold unload_beluga_allowed. rewrite Hb, Hcur.
    replace (vec_empty (front ++ [j])) with false by (destruct front; reflexivity).
    simpl. symmetry. apply existsb_exists. exists (-1).
    split; [| reflexivity]. apply list_elem_of_In. eapply list_elem_of_lookup_2, Hslot.
  - destruct (unload_beluga_allowed s) eqn:Hallowed; [| reflexivity].
    exfalso. unfold unload_beluga_allowed in Hallowed.
    destruct (belugas s) as [| beluga rest] eqn:Hb; [discriminate |].
    apply andb_true_iff in Hallowed as [Hcur Hslot]. apply negb_true_iff in Hcur.
    destruct (unload_beluga_accepts s beluga rest Hb Hcur Hslot) as [s'' Hacc].
    congruence.
Qed.

(** C6.  If [apply_action] returns [false], the snapshot after the call
    is the snapshot before it (equal as values, hence with equal
    serializations).  For [unload_beluga], [load_beluga],
    [get_from_hangar], [deliver_to_hangar], [left_unstack_rack] and
    [right_unstack_rack] the call returns, and its flag is [true] exactly
    when the precondition of the specification holds.  For stacking this
    fails: in the scenario of C2, after [unload_beluga], the rack of
    capacity 36 holds a jig of size 32 and the trailer one of size 32, so
    the precondition of [left_stack_rack] does not hold, and yet
    [apply_action] returns [true] and moves the jig; and where the
    precondition holds, a rack with 32 units free and a jig of size 11,
    it returns [false]. *)
Theorem apply_action_stacks_without_room :
  (forall s action_name params b s',
     apply_action s action_name params = Some (b, s') -> b = false -> s' = s)
  /\ (forall s params,
        fst <$> apply_action s "unload_beluga" params = Some (unload_beluga_allowed s))
  /\ (forall s t,
        fst <$> apply_action s "load_beluga" [t] = Some (load_beluga_allowed s t))
  /\ (forall s h t,
        fst <$> apply_action s "get_from_hangar" [h; t]
        = Some (get_from_hangar_allowed s h t))
  /\ (forall s h t,
        fst <$> apply_action s "deliver_to_hangar" [h; t]
        = Some (deliver_to_hangar_allowed s h t))
  /\ (forall s r t,
        fst <$> apply_action s "left_unstack_rack" [r; t]
        = Some (left_unstack_rack_allowed s r t))
  /\ (forall s r t,
        fst <$> apply_action s "right_unstack_rack" [r; t]
        = Some (right_unstack_rack_allowed s r t))
  /\ load_from_json "crowded.json" (Some crowded_scenario) = inr crowded_state
  /\ apply_action crowded_state "unload_beluga" [] = Some (true, crowded_unloaded)
  /\ left_stack_rack_allowed crowded_unloaded 0 0 = false
  /\ apply_action crowded_unloaded "left_stack_rack" [0; 0]
     = Some (true, crowded_stacked)
  /\ crowded_stacked <> crowded_unloaded
  /\ left_stack_rack_allowed roomy_state 0 0 = true
  /\ apply_action roomy_state "left_stack_rack" [0; 0] = Some (false, roomy_state).
Proof.
  split; [| split; [| split; [| split; [| split; [| split; [| split]]]]]].
  - intros s action_name params b s' H ->. eapply apply_action_refused; eassumption.
  - intros s params. apply unload_beluga_flag.
  - intros s t. apply load_beluga_flag.
  - intros s h t. rewrite (apply_pair s _ h t (Action.get_from_hangar s)) by reflexivity.
    apply get_from_hangar_flag.
  - intros s h t. rewrite (apply_pair s _ h t (Action.deliver_to_hangar s)) by reflexivity.
    apply deliver_to_hangar_flag.
  - intros s r t. rewrite (apply_pair s _ r t (Action.left_unstack_rack s)) by reflexivity.
    apply left_unstack_rack_flag.
  - intros s r t. rewrite (apply_pair s _ r t (Action.right_unstack_rack s)) by reflexivity.
    apply right_unstack_rack_flag.
  - repeat split. discriminate.
Qed.
